(** * Ecommerce/agent.py: catalogue, cart, pricing and the nine tools

    A shallow embedding of the e-commerce assistant's tool module.  The
    module keeps one shopping cart and one search history; the nine tool
    functions read and update them and return a dict.

    Conventions of the embedding:
    - a Python [int] is a [Z]; a Python [float] is a binary64 value, given by
      the Standard Library's [spec_float] and its IEEE 754 operations;
    - the prices of the catalogue are int literals and a cart line is only
      built from a catalogue product, so unit prices and line subtotals are
      ints; floats come in with the discount rates and the tax rate;
    - a Python [str] is a [string] holding the text's UTF-8 bytes; [strip],
      [lower] and [upper] are those of the ASCII range, which is the range of
      the catalogue keys and of the discount codes; on text outside that
      range Python trims, changes case and compares by character, and the
      statements on the resolver and on the codes are for text of the range
      ([is_ascii]);
    - a Python [dict] is an association list in insertion order;
    - an exception is an [outcome]; the only one that the tools can meet is
      the [OverflowError] of an int too large for a float;
    - the module state is passed explicitly;
    - [difflib.get_close_matches], which the resolver calls, is embedded
      from the Python standard library;
    - the calls to [logger.info] write to the log only and are left out. *)

From Stdlib Require Import ZArith List String Ascii Bool Lia.
From Stdlib Require Import Sorted Permutation.
From Stdlib Require Import Floats.
Import ListNotations.

Set Warnings "-inexact-float,-register-all".
Open Scope string_scope.
Open Scope Z_scope.

(** ** Python values *)

(** *** Exceptions *)

Inductive exn := OverflowError | ValueError.

Inductive outcome (A : Type) :=
| Returns (a : A)
| Raises (e : exn).
Arguments Returns {A} a.
Arguments Raises {A} e.

Definition bind {A B} (c : outcome A) (k : A -> outcome B) : outcome B :=
  match c with
  | Returns a => k a
  | Raises e => Raises e
  end.

Notation "x <- c ;; k" := (bind c (fun x => k))
  (at level 61, c at next level, right associativity).

(** *** Dicts: association lists in insertion order *)

Section Dict.
Context {K V : Type} (eqb : K -> K -> bool).

Fixpoint dict_get (d : list (K * V)) (k : K) : option V :=
  match d with
  | [] => None
  | (k', v) :: d' => if eqb k' k then Some v else dict_get d' k
  end.

(** [d[k] = v]: an existing key keeps its place, a new key goes last. *)
Fixpoint dict_set (d : list (K * V)) (k : K) (v : V) : list (K * V) :=
  match d with
  | [] => [(k, v)]
  | (k', v') :: d' =>
      if eqb k' k then (k', v) :: d' else (k', v') :: dict_set d' k v
  end.

Definition dict_keys (d : list (K * V)) : list K := map fst d.
Definition dict_values (d : list (K * V)) : list V := map snd d.
End Dict.

(** *** Strings *)

Abbreviation str := string.

(** [str.isspace] on one ASCII character: tab to carriage return, the four
    separators 0x1c-0x1f and the space. *)
Definition isspace (c : ascii) : bool :=
  let n := N_of_ascii c in
  (((9 <=? n) && (n <=? 13)) || ((28 <=? n) && (n <=? 32)))%N.

Fixpoint lstrip (s : str) : str :=
  match s with
  | EmptyString => EmptyString
  | String c s' => if isspace c then lstrip s' else s
  end.

Fixpoint rstrip (s : str) : str :=
  match s with
  | EmptyString => EmptyString
  | String c s' =>
      match rstrip s' with
      | EmptyString => if isspace c then EmptyString else String c EmptyString
      | r => String c r
      end
  end.

Definition strip (s : str) : str := rstrip (lstrip s).

Definition lower_char (c : ascii) : ascii :=
  let n := N_of_ascii c in
  if ((65 <=? n) && (n <=? 90))%N then ascii_of_N (n + 32) else c.

Definition upper_char (c : ascii) : ascii :=
  let n := N_of_ascii c in
  if ((97 <=? n) && (n <=? 122))%N then ascii_of_N (n - 32) else c.

Fixpoint map_str (f : ascii -> ascii) (s : str) : str :=
  match s with
  | EmptyString => EmptyString
  | String c s' => String (f c) (map_str f s')
  end.

Definition lower : str -> str := map_str lower_char.
Definition upper : str -> str := map_str upper_char.

(** Truth value of a string: the empty string is false. *)
Definition str_bool (s : str) : bool :=
  match s with EmptyString => false | String _ _ => true end.

(** [str(n)] for an int. *)
Definition digit_char (d : Z) : ascii := ascii_of_N (48 + Z.to_N d).

Fixpoint digits_fuel (fuel : nat) (n : Z) (acc : str) : str :=
  match fuel with
  | O => acc
  | S fuel' =>
      let acc' := String (digit_char (n mod 10)) acc in
      if n <? 10 then acc' else digits_fuel fuel' (n / 10) acc'
  end.

(** The decimal digits of [n >= 0]; [n] has at most [log2 n + 1] of them. *)
Definition digits (n : Z) : str :=
  digits_fuel (S (Z.to_nat (Z.log2 n))) n EmptyString.

Definition str_int (z : Z) : str :=
  if z <? 0 then String "-" (digits (- z)) else digits z.

Fixpoint join (sep : str) (l : list str) : str :=
  match l with
  | [] => EmptyString
  | [s] => s
  | s :: l' => s ++ sep ++ join sep l'
  end.

(** *** Floats: IEEE 754 binary64 *)

Definition double : Type := spec_float.

Definition fadd : double -> double -> double := SFadd prec emax.
Definition fsub : double -> double -> double := SFsub prec emax.
Definition fmul : double -> double -> double := SFmul prec emax.
Definition fdiv : double -> double -> double := SFdiv prec emax.

(** The binary64 value nearest to an integer, ties to even. *)
Definition Z2F (z : Z) : double := binary_normalize prec emax z 0 false.

(** The least magnitude that rounds beyond the largest finite binary64. *)
Definition float_overflow_bound : Z := 2 ^ 1024 - 2 ^ 970.

(** [float(z)], also the conversion every mixed int/float operation applies
    to its int operand: it raises [OverflowError] when the nearest binary64
    value is not finite. *)
Definition float_of_int (z : Z) : outcome double :=
  if Z.abs z <? float_overflow_bound then Returns (Z2F z)
  else Raises OverflowError.

(** [int(x)] for a double: truncation towards zero. *)
Definition int_of_float (x : double) : outcome Z :=
  match x with
  | S754_zero _ => Returns 0
  | S754_infinity _ => Raises OverflowError
  | S754_nan => Raises ValueError
  | S754_finite s m e =>
      let a := if 0 <=? e then Zpos m * 2 ^ e else Zpos m / 2 ^ (- e) in
      Returns (if s then - a else a)
  end.

(** A number is an int or a float, as Python holds it. *)
Inductive num :=
| PInt (z : Z)
| PFloat (f : double).

Definition num_to_float (x : num) : outcome double :=
  match x with
  | PInt z => float_of_int z
  | PFloat f => Returns f
  end.

(** Python's binary arithmetic: int with int stays int, anything else is
    carried out on floats after converting the int operand. *)
Definition py_arith (fz : Z -> Z -> Z) (ff : double -> double -> double)
    (x y : num) : outcome num :=
  match x, y with
  | PInt a, PInt b => Returns (PInt (fz a b))
  | _, _ =>
      a <- num_to_float x ;;
      b <- num_to_float y ;;
      Returns (PFloat (ff a b))
  end.

Definition py_add := py_arith Z.add fadd.
Definition py_sub := py_arith Z.sub fsub.
Definition py_mul := py_arith Z.mul fmul.

(** [x > 0] and [x == 0] for a number. *)
Definition num_gt0 (x : num) : bool :=
  match x with
  | PInt z => 0 <? z
  | PFloat f => SFltb (S754_zero false) f
  end.

Definition num_eq0 (x : num) : bool :=
  match x with
  | PInt z => z =? 0
  | PFloat f => SFeqb f (S754_zero false)
  end.

(** *** The format [",.2f"] *)

(** [n / d] rounded to the nearest integer, ties to even ([d > 0]). *)
Definition round_half_even (n d : Z) : Z :=
  let q := n / d in
  match 2 * (n mod d) ?= d with
  | Lt => q
  | Gt => q + 1
  | Eq => if Z.even q then q else q + 1
  end.

(** The exact value [m * 2^e] in hundredths, correctly rounded. *)
Definition hundredths (m : positive) (e : Z) : Z :=
  if 0 <=? e then Zpos m * 2 ^ e * 100
  else round_half_even (Zpos m * 100) (2 ^ (- e)).

(** A comma before every group of three digits, counted from the right. *)
Fixpoint group_thousands (s : str) : str :=
  match s with
  | EmptyString => EmptyString
  | String c s' =>
      let n := String.length s' in
      if negb (Nat.eqb n 0) && Nat.eqb (Nat.modulo n 3) 0
      then String c (String "," (group_thousands s'))
      else String c (group_thousands s')
  end.

Definition two_digits (n : Z) : str :=
  String (digit_char (n / 10)) (String (digit_char (n mod 10)) EmptyString).

Definition format_comma_2f (x : double) : str :=
  match x with
  | S754_nan => "nan"
  | S754_infinity s => if s then "-inf" else "inf"
  | S754_zero s => if s then "-0.00" else "0.00"
  | S754_finite s m e =>
      let h := hundredths m e in
      (if s then "-" else "")
        ++ group_thousands (digits (h / 100)) ++ "." ++ two_digits (h mod 100)
  end.

(** ** Configuration *)

Definition TAX_RATE : double := Eval vm_compute in Prim2SF 0.08%float.
Definition SHIPPING_THRESHOLD : Z := 100.
Definition SHIPPING_COST : Z := 10.
Definition DISCOUNT_CODES : list (str * double) :=
  Eval vm_compute in
  [ ("WELCOME10", Prim2SF 0.10%float);
    ("SAVE20", Prim2SF 0.20%float);
    ("VIP30", Prim2SF 0.30%float) ].

Definition zero_f : double := S754_zero false.   (* 0.0 *)

(** ** Data models *)

Module Product.
Record t := {
  id : str;
  nombre : str;
  precio : Z;
  stock : Z;
  caracteristicas : list str;
  categoria : str;
  descripcion : str;
  rating : double;
  reviews : Z
}.
End Product.
Abbreviation Product := Product.t.

Module CartItem.
(** [subtotal] is a stored field: [__post_init__] sets it once, and the
    tools that change [cantidad] assign it again. *)
Record t := {
  producto_id : str;
  nombre : str;
  precio_unitario : Z;
  cantidad : Z;
  subtotal : Z
}.

(** The constructor with [__post_init__]. *)
Definition new (producto_id nombre : str) (precio_unitario cantidad : Z) : t :=
  {| producto_id := producto_id;
     nombre := nombre;
     precio_unitario := precio_unitario;
     cantidad := cantidad;
     subtotal := precio_unitario * cantidad |}.

(** The generated [__eq__]: field by field. *)
Definition eqb (x y : t) : bool :=
  String.eqb (producto_id x) (producto_id y)
  && String.eqb (nombre x) (nombre y)
  && (precio_unitario x =? precio_unitario y)
  && (cantidad x =? cantidad y)
  && (subtotal x =? subtotal y).
End CartItem.
Abbreviation CartItem := CartItem.t.

(** [sum] of ints: from 0, left to right. *)
Definition sum_int (l : list Z) : Z := fold_left Z.add l 0.

Module Cart.
Record t := {
  items : list CartItem;
  discount_code : option str
}.

Definition get_subtotal (self : t) : Z :=
  sum_int (map CartItem.subtotal (items self)).

(** The test [code in DISCOUNT_CODES] and the look-up that follows it are
    one [dict_get]. *)
Definition get_discount_amount (self : t) : outcome num :=
  match discount_code self with
  | Some code =>
      if str_bool code then
        match dict_get String.eqb DISCOUNT_CODES code with
        | Some rate => py_mul (PInt (get_subtotal self)) (PFloat rate)
        | None => Returns (PFloat zero_f)
        end
      else Returns (PFloat zero_f)
  | None => Returns (PFloat zero_f)
  end.

Definition get_tax (self : t) : outcome num :=
  discount <- get_discount_amount self ;;
  subtotal_after_discount <- py_sub (PInt (get_subtotal self)) discount ;;
  py_mul subtotal_after_discount (PFloat TAX_RATE).

Definition get_shipping (self : t) : num :=
  if SHIPPING_THRESHOLD <=? get_subtotal self then PFloat zero_f
  else PInt SHIPPING_COST.

Definition get_total (self : t) : outcome num :=
  let subtotal := PInt (get_subtotal self) in
  discount <- get_discount_amount self ;;
  tax <- get_tax self ;;
  let shipping := get_shipping self in
  a <- py_sub subtotal discount ;;
  b <- py_add a tax ;;
  py_add b shipping.
End Cart.
Abbreviation Cart := Cart.t.

(** ** The catalogue *)

Definition PRODUCTOS_DB : list (str * Product) :=
  Eval vm_compute in
  [ ("laptop gamer pro",
      {| Product.id := "LPG001";
         Product.nombre := "Laptop Gamer Pro";
         Product.precio := 1500;
         Product.stock := 10;
         Product.caracteristicas :=
           ["RTX 4070"; "32GB RAM"; "1TB SSD"; "144Hz Display"];
         Product.categoria := "Computadoras";
         Product.descripcion :=
           "Laptop gaming de alta gama para los juegos más exigentes";
         Product.rating := Prim2SF 4.8%float;
         Product.reviews := 127 |});
    ("teclado mecanico rgb",
      {| Product.id := "TEC005";
         Product.nombre := "Teclado Mecánico RGB";
         Product.precio := 120;
         Product.stock := 25;
         Product.caracteristicas :=
           ["Switches Cherry MX"; "RGB personalizable"; "TKL"; "USB-C"];
         Product.categoria := "Periféricos";
         Product.descripcion :=
           "Teclado mecánico premium con iluminación RGB completa";
         Product.rating := Prim2SF 4.6%float;
         Product.reviews := 89 |});
    ("monitor 4k hdr",
      {| Product.id := "MON003";
         Product.nombre := "Monitor 4K HDR";
         Product.precio := 400;
         Product.stock := 5;
         Product.caracteristicas :=
           ["27 pulgadas"; "144Hz"; "HDR10"; "G-Sync Compatible"];
         Product.categoria := "Monitores";
         Product.descripcion :=
           "Monitor gaming 4K con HDR para una experiencia visual inmersiva";
         Product.rating := Prim2SF 4.9%float;
         Product.reviews := 203 |});
    ("mouse gaming pro",
      {| Product.id := "MOU002";
         Product.nombre := "Mouse Gaming Pro";
         Product.precio := 80;
         Product.stock := 15;
         Product.caracteristicas :=
           ["16000 DPI"; "RGB"; "8 botones programables"; "Inalámbrico"];
         Product.categoria := "Periféricos";
         Product.descripcion :=
           "Mouse gaming profesional con sensor de alta precisión";
         Product.rating := Prim2SF 4.7%float;
         Product.reviews := 156 |});
    ("auriculares 7.1",
      {| Product.id := "AUR004";
         Product.nombre := "Auriculares Gaming 7.1";
         Product.precio := 150;
         Product.stock := 8;
         Product.caracteristicas :=
           ["Sonido 7.1 Surround"; "Micrófono retráctil"; "RGB";
            "Cancelación de ruido"];
         Product.categoria := "Audio";
         Product.descripcion :=
           "Auriculares gaming con sonido envolvente para máxima inmersión";
         Product.rating := Prim2SF 4.5%float;
         Product.reviews := 94 |}) ].

(** ** Shopping cart state *)

Record State := {
  carrito : Cart;
  historial_busquedas : list str
}.

Definition initial_state : State :=
  {| carrito := {| Cart.items := []; Cart.discount_code := None |};
     historial_busquedas := [] |}.

(** ** difflib

    [find_product_fuzzy] calls [difflib.get_close_matches] of the Python
    standard library (CPython 3.11, Lib/difflib.py).  This is the code it
    runs: a [SequenceMatcher] with no junk function and the automatic junk
    heuristic on, and [heapq.nlargest] for [n = 1], which is [max]. *)

Module difflib.

Definition seq := list ascii.

Definition len (s : seq) : Z := Z.of_nat (List.length s).

(** [s[i]] for [0 <= i < len(s)]. *)
Definition item (s : seq) (i : Z) : ascii := nth (Z.to_nat i) s Ascii.zero.

(** The named tuple [Match(a, b, size)]. *)
Definition Match : Type := Z * Z * Z.

(** *** [__chain_b]: where each element of [b] occurs *)

Fixpoint chain_b_loop (b : seq) (i : Z) (b2j : list (ascii * list Z))
    : list (ascii * list Z) :=
  match b with
  | [] => b2j
  | elt :: b' =>
      let indices :=
        match dict_get Ascii.eqb b2j elt with
        | Some l => l
        | None => []
        end in
      chain_b_loop b' (i + 1) (dict_set Ascii.eqb b2j elt (indices ++ [i])%list)
  end.

(** No element is junk ([isjunk] is [None]); in a sequence of 200 elements
    or more, the elements that occur more than [n // 100 + 1] times are
    popular and leave [b2j]. *)
Definition chain_b (b : seq) : list (ascii * list Z) :=
  let b2j := chain_b_loop b 0 [] in
  let n := len b in
  if 200 <=? n then
    let ntest := n / 100 + 1 in
    filter (fun kv => negb (ntest <? Z.of_nat (List.length (snd kv)))) b2j
  else b2j.

Definition isbjunk (c : ascii) : bool := false.

(** *** [find_longest_match] *)

Definition best_t : Type := Z * Z * Z.   (* besti, bestj, bestsize *)

Definition j2lenget (j2len : list (Z * Z)) (j : Z) : Z :=
  match dict_get Z.eqb j2len j with
  | Some k => k
  | None => 0
  end.

(** [for j in b2j.get(a[i], nothing)], with its [continue] and [break]. *)
Fixpoint inner_loop (js : list Z) (i blo bhi : Z) (j2len newj2len : list (Z * Z))
    (best : best_t) : list (Z * Z) * best_t :=
  match js with
  | [] => (newj2len, best)
  | j :: js' =>
      if j <? blo then inner_loop js' i blo bhi j2len newj2len best
      else if bhi <=? j then (newj2len, best)
      else
        let k := j2lenget j2len (j - 1) + 1 in
        let newj2len' := dict_set Z.eqb newj2len j k in
        let '(besti, bestj, bestsize) := best in
        let best' := if bestsize <? k then (i - k + 1, j - k + 1, k) else best in
        inner_loop js' i blo bhi j2len newj2len' best'
  end.

(** [for i in range(alo, ahi)]: [n] counts the iterations left. *)
Fixpoint outer_loop (n : nat) (a : seq) (b2j : list (ascii * list Z))
    (i blo bhi : Z) (j2len : list (Z * Z)) (best : best_t) : best_t :=
  match n with
  | O => best
  | S n' =>
      let js :=
        match dict_get Ascii.eqb b2j (item a i) with
        | Some l => l
        | None => []
        end in
      let '(newj2len, best') := inner_loop js i blo bhi j2len [] best in
      outer_loop n' a b2j (i + 1) blo bhi newj2len best'
  end.

(** [while besti > alo and bestj > blo and <junk test> and
    a[besti-1] == b[bestj-1]]; the loop runs at most [besti - alo] times,
    which is the fuel. *)
Fixpoint extend_left (fuel : nat) (junk : bool) (a b : seq) (alo blo : Z)
    (best : best_t) : best_t :=
  match fuel with
  | O => best
  | S fuel' =>
      let '(besti, bestj, bestsize) := best in
      if (alo <? besti) && (blo <? bestj)
         && Bool.eqb (isbjunk (item b (bestj - 1))) junk
         && Ascii.eqb (item a (besti - 1)) (item b (bestj - 1))
      then extend_left fuel' junk a b alo blo (besti - 1, bestj - 1, bestsize + 1)
      else best
  end.

(** [while besti+bestsize < ahi and bestj+bestsize < bhi and <junk test>
    and a[besti+bestsize] == b[bestj+bestsize]]; at most
    [ahi - (besti+bestsize)] times. *)
Fixpoint extend_right (fuel : nat) (junk : bool) (a b : seq) (ahi bhi : Z)
    (best : best_t) : best_t :=
  match fuel with
  | O => best
  | S fuel' =>
      let '(besti, bestj, bestsize) := best in
      if (besti + bestsize <? ahi) && (bestj + bestsize <? bhi)
         && Bool.eqb (isbjunk (item b (bestj + bestsize))) junk
         && Ascii.eqb (item a (besti + bestsize)) (item b (bestj + bestsize))
      then extend_right fuel' junk a b ahi bhi (besti, bestj, bestsize + 1)
      else best
  end.

Definition left_fuel (alo : Z) (best : best_t) : nat :=
  let '(besti, _, _) := best in Z.to_nat (besti - alo).

Definition right_fuel (ahi : Z) (best : best_t) : nat :=
  let '(besti, _, bestsize) := best in Z.to_nat (ahi - (besti + bestsize)).

Definition find_longest_match (a b : seq) (b2j : list (ascii * list Z))
    (alo ahi blo bhi : Z) : Match :=
  let best0 := outer_loop (Z.to_nat (ahi - alo)) a b2j alo blo bhi [] (alo, blo, 0) in
  let best1 := extend_left (left_fuel alo best0) false a b alo blo best0 in
  let best2 := extend_right (right_fuel ahi best1) false a b ahi bhi best1 in
  let best3 := extend_left (left_fuel alo best2) true a b alo blo best2 in
  extend_right (right_fuel ahi best3) true a b ahi bhi best3.

(** *** [get_matching_blocks] *)

(** The [while queue] loop.  The queue is a stack: its head here is the
    last element of the Python list, which [pop()] takes and after which
    [append] puts.  [None] is fuel run out. *)
Fixpoint matching_loop (fuel : nat) (a b : seq) (b2j : list (ascii * list Z))
    (queue : list (Z * Z * Z * Z)) (matching_blocks : list Match)
    : option (list Match) :=
  match fuel with
  | O => None
  | S fuel' =>
      match queue with
      | [] => Some matching_blocks
      | (alo, ahi, blo, bhi) :: queue0 =>
          let '(i, j, k) := find_longest_match a b b2j alo ahi blo bhi in
          if k =? 0 then matching_loop fuel' a b b2j queue0 matching_blocks
          else
            let queue1 :=
              if (alo <? i) && (blo <? j) then (alo, i, blo, j) :: queue0
              else queue0 in
            let queue2 :=
              if (i + k <? ahi) && (j + k <? bhi)
              then (i + k, ahi, j + k, bhi) :: queue1
              else queue1 in
            matching_loop fuel' a b b2j queue2 (matching_blocks ++ [(i, j, k)])%list
      end
  end.

(** Tuples of ints in their order: first component first. *)
Definition match_ltb (x y : Match) : bool :=
  let '(i1, j1, k1) := x in
  let '(i2, j2, k2) := y in
  if i1 =? i2 then (if j1 =? j2 then k1 <? k2 else j1 <? j2) else i1 <? i2.

Fixpoint insert_sorted (x : Match) (l : list Match) : list Match :=
  match l with
  | [] => [x]
  | y :: l' => if match_ltb x y then x :: l else y :: insert_sorted x l'
  end.

Definition sort (l : list Match) : list Match :=
  fold_left (fun acc x => insert_sorted x acc) l [].

(** Adjacent equal blocks are merged. *)
Fixpoint collapse (blocks : list Match) (cur : Match) (non_adjacent : list Match)
    : list Match :=
  let '(i1, j1, k1) := cur in
  match blocks with
  | [] => if k1 =? 0 then non_adjacent else (non_adjacent ++ [cur])%list
  | (i2, j2, k2) :: blocks' =>
      if (i1 + k1 =? i2) && (j1 + k1 =? j2)
      then collapse blocks' (i1, j1, k1 + k2) non_adjacent
      else collapse blocks' (i2, j2, k2)
             (if k1 =? 0 then non_adjacent else (non_adjacent ++ [cur])%list)
  end.

(** A block takes at least one element of [a] and every look at the queue
    takes one unit of fuel: [2 * len(a) + 2] is enough. *)
Definition blocks_fuel (a : seq) : nat := S (S (2 * List.length a)).

Definition get_matching_blocks (a b : seq) : list Match :=
  let la := len a in
  let lb := len b in
  let matching_blocks :=
    match matching_loop (blocks_fuel a) a b (chain_b b) [(0, la, 0, lb)] [] with
    | Some l => l
    | None => []
    end in
  (collapse (sort matching_blocks) (0, 0, 0) [] ++ [(la, lb, 0)])%list.

(** *** The three ratios *)

(** The int operands are counts of elements of the two sequences: they
    convert to float without overflow. *)
Definition _calculate_ratio (matches length : Z) : double :=
  if length =? 0 then Z2F 1   (* 1.0 *)
  else fdiv (fmul (Z2F 2) (Z2F matches)) (Z2F length).

Definition ratio (a b : seq) : double :=
  let matches := sum_int (map (fun t : Match => snd t) (get_matching_blocks a b)) in
  _calculate_ratio matches (len a + len b).

Fixpoint fullbcount (b : seq) (d : list (ascii * Z)) : list (ascii * Z) :=
  match b with
  | [] => d
  | elt :: b' =>
      let n := match dict_get Ascii.eqb d elt with Some n => n | None => 0 end in
      fullbcount b' (dict_set Ascii.eqb d elt (n + 1))
  end.

Fixpoint quick_loop (a : seq) (fullb avail : list (ascii * Z)) (matches : Z) : Z :=
  match a with
  | [] => matches
  | elt :: a' =>
      let numb :=
        match dict_get Ascii.eqb avail elt with
        | Some n => n
        | None => match dict_get Ascii.eqb fullb elt with Some n => n | None => 0 end
        end in
      quick_loop a' fullb (dict_set Ascii.eqb avail elt (numb - 1))
        (if 0 <? numb then matches + 1 else matches)
  end.

Definition quick_ratio (a b : seq) : double :=
  _calculate_ratio (quick_loop a (fullbcount b []) [] 0) (len a + len b).

Definition real_quick_ratio (a b : seq) : double :=
  _calculate_ratio (Z.min (len a) (len b)) (len a + len b).

(** *** [get_close_matches] with [n = 1] *)

(** [(score1, x1) > (score2, x2)] on tuples: the first components that
    differ decide. *)
Definition tuple_gt (t1 t2 : double * str) : bool :=
  let '(s1, x1) := t1 in
  let '(s2, x2) := t2 in
  if SFeqb s1 s2 then (x2 <? x1)%string else SFltb s2 s1.

(** [max]: a later item replaces the best one only when it is greater. *)
Fixpoint max_from (best : double * str) (l : list (double * str)) : double * str :=
  match l with
  | [] => best
  | t :: l' => max_from (if tuple_gt t best then t else best) l'
  end.

(** [heapq.nlargest(1, result)]. *)
Definition nlargest_1 (result : list (double * str)) : list (double * str) :=
  match result with
  | [] => []
  | t :: l => [max_from t l]
  end.

Definition good_enough (word x : str) (cutoff : double) : bool :=
  let a := list_ascii_of_string x in      (* seq1 *)
  let b := list_ascii_of_string word in   (* seq2 *)
  SFleb cutoff (real_quick_ratio a b)
  && SFleb cutoff (quick_ratio a b)
  && SFleb cutoff (ratio a b).

Definition score (word x : str) : double :=
  ratio (list_ascii_of_string x) (list_ascii_of_string word).

Fixpoint scored (word : str) (possibilities : list str) (cutoff : double)
    : list (double * str) :=
  match possibilities with
  | [] => []
  | x :: l =>
      if good_enough word x cutoff
      then (score word x, x) :: scored word l cutoff
      else scored word l cutoff
  end.

Definition get_close_matches_1 (word : str) (possibilities : list str)
    (cutoff : double) : list str :=
  map snd (nlargest_1 (scored word possibilities cutoff)).

End difflib.


(** ** Helper functions *)

Definition CUTOFF : double := Eval vm_compute in Prim2SF 0.6%float.

(** [PRODUCTOS_DB[match]] cannot miss: [match] is one of the keys. *)
Definition find_product_fuzzy (nombre : str) : option (str * Product) :=
  let nombre_lower := lower (strip nombre) in
  (* Exact match *)
  match dict_get String.eqb PRODUCTOS_DB nombre_lower with
  | Some p => Some (nombre_lower, p)
  | None =>
      (* Fuzzy match *)
      let product_names := dict_keys PRODUCTOS_DB in
      match difflib.get_close_matches_1 nombre_lower product_names CUTOFF with
      | m :: _ =>
          match dict_get String.eqb PRODUCTOS_DB m with
          | Some p => Some (m, p)
          | None => None
          end
      | [] => None
      end
  end.

(** [f"${amount:,.2f}"]: an int is converted to float first. *)
Definition format_price (amount : num) : outcome str :=
  f <- num_to_float amount ;;
  Returns ("$" ++ format_comma_2f f).

Definition get_cart_item_by_product (carrito : Cart) (producto_id : str)
    : option CartItem :=
  find (fun item => String.eqb (CartItem.producto_id item) producto_id)
       (Cart.items carrito).

(** ** Tool results *)

Inductive value :=
| VNone
| VBool (b : bool)
| VInt (z : Z)
| VStr (s : str)
| VList (l : list value)
| VDict (d : list (str * value)).

Definition dict : Type := list (str * value).

Definition nl : str := String (ascii_of_nat 10) EmptyString.

Fixpoint map_outcome {A B} (f : A -> outcome B) (l : list A) : outcome (list B) :=
  match l with
  | [] => Returns []
  | x :: l' =>
      y <- f x ;;
      ys <- map_outcome f l' ;;
      Returns (y :: ys)
  end.

Definition int_of_num (x : num) : outcome Z :=
  match x with
  | PInt z => Returns z
  | PFloat f => int_of_float f
  end.

(** ** State updates *)

Definition set_carrito (st : State) (c : Cart) : State :=
  {| carrito := c; historial_busquedas := historial_busquedas st |}.

Definition set_items (c : Cart) (l : list CartItem) : Cart :=
  {| Cart.items := l; Cart.discount_code := Cart.discount_code c |}.

Definition set_discount_code (c : Cart) (code : option str) : Cart :=
  {| Cart.items := Cart.items c; Cart.discount_code := code |}.

(** Assignment to the fields of the item that [get_cart_item_by_product]
    returned: that object is the first one in the list with its product id,
    and the list holds the object itself, so the first such element changes. *)
Fixpoint update_item (l : list CartItem) (producto_id : str) (new_item : CartItem)
    : list CartItem :=
  match l with
  | [] => []
  | item :: l' =>
      if String.eqb (CartItem.producto_id item) producto_id then new_item :: l'
      else item :: update_item l' producto_id new_item
  end.

Definition with_cantidad (item : CartItem) (cantidad : Z) : CartItem :=
  {| CartItem.producto_id := CartItem.producto_id item;
     CartItem.nombre := CartItem.nombre item;
     CartItem.precio_unitario := CartItem.precio_unitario item;
     CartItem.cantidad := cantidad;
     CartItem.subtotal := CartItem.precio_unitario item * cantidad |}.

(** [list.remove(x)]: the first element equal to [x] goes. *)
Fixpoint list_remove (x : CartItem) (l : list CartItem) : list CartItem :=
  match l with
  | [] => []
  | y :: l' => if CartItem.eqb y x then l' else y :: list_remove x l'
  end.

(** ** The tools

    A tool takes its arguments and the module state, and gives the dict it
    returns (or the exception it raises) with the state it leaves.  A tool
    that updates the cart does so before it builds its result, so the state
    it leaves is the same when building the result raises. *)

Definition tool_result : Type := outcome dict * State.

Section Tools.

(** [repr] of a float, which an f-string applies to [producto.rating]; the
    digits it prints are not modelled. *)
Variable repr_float : double -> str.

Definition product_detail (producto : Product) : outcome dict :=
  precio_formateado <- format_price (PInt (Product.precio producto)) ;;
  Returns
    [ ("id", VStr (Product.id producto));
      ("nombre", VStr (Product.nombre producto));
      ("precio", VInt (Product.precio producto));
      ("precio_formateado", VStr precio_formateado);
      ("stock", VInt (Product.stock producto));
      ("características", VList (map VStr (Product.caracteristicas producto)));
      ("categoria", VStr (Product.categoria producto));
      ("descripcion", VStr (Product.descripcion producto));
      ("rating", VStr ("⭐ " ++ repr_float (Product.rating producto) ++ "/5.0 ("
                         ++ str_int (Product.reviews producto) ++ " reseñas)"));
      ("disponible", VBool (0 <? Product.stock producto)) ].

Definition sugerencia (kp : str * Product) : outcome str :=
  let p := snd kp in
  precio <- format_price (PInt (Product.precio p)) ;;
  Returns ("• " ++ Product.nombre p ++ " (" ++ precio ++ ")").

Definition buscar_producto_por_nombre (nombre_producto : str) (st : State)
    : tool_result :=
  let st' :=
    {| carrito := carrito st;
       historial_busquedas := (historial_busquedas st ++ [nombre_producto])%list |} in
  match find_product_fuzzy nombre_producto with
  | Some (key, producto) =>
      (product <- product_detail producto ;;
       Returns
         [ ("status", VStr "success");
           ("product", VDict product);
           ("message", VStr ("✅ Producto '" ++ Product.nombre producto
                               ++ "' encontrado.")) ],
       st')
  | None =>
      (* Suggest similar products *)
      (sugerencias <- map_outcome sugerencia (firstn 3 PRODUCTOS_DB) ;;
       Returns
         [ ("status", VStr "not_found");
           ("message", VStr ("❌ No encontré '" ++ nombre_producto ++ "'."));
           ("sugerencias", VList (map VStr sugerencias));
           ("sugerencias_text",
             VStr ("Productos disponibles:" ++ nl ++ join nl sugerencias)) ],
       st')
  end.

Definition total_unidades (c : Cart) : Z :=
  sum_int (map CartItem.cantidad (Cart.items c)).

Definition agregar_al_carrito (producto : str) (cantidad : Z) (st : State)
    : tool_result :=
  (* Validate quantity *)
  if cantidad <=? 0 then
    (Returns
       [ ("status", VStr "error");
         ("message",
           VStr "❌ La cantidad debe ser un número entero mayor que cero.") ],
     st)
  else
  (* Find product *)
  match find_product_fuzzy producto with
  | None =>
      (Returns
         [ ("status", VStr "error");
           ("message", VStr ("❌ No encontré el producto '" ++ producto
                               ++ "'. Usa 'buscar_producto' para ver opciones.")) ],
       st)
  | Some (key, product_info) =>
      (* Check if already in cart *)
      let existing_item :=
        get_cart_item_by_product (carrito st) (Product.id product_info) in
      let cantidad_actual :=
        match existing_item with
        | Some item => CartItem.cantidad item
        | None => 0
        end in
      (* Verify stock *)
      if Product.stock product_info <? cantidad_actual + cantidad then
        let disponible := Product.stock product_info - cantidad_actual in
        (Returns
           [ ("status", VStr "error");
             ("message",
               VStr ("❌ Stock insuficiente. Solo hay " ++ str_int disponible
                       ++ " unidades disponibles de '"
                       ++ Product.nombre product_info ++ "'."));
             ("stock_actual", VInt (Product.stock product_info));
             ("en_carrito", VInt cantidad_actual);
             ("disponible", VInt disponible) ],
         st)
      else
        (* Add to cart *)
        let items' :=
          match existing_item with
          | Some item =>
              update_item (Cart.items (carrito st)) (Product.id product_info)
                (with_cantidad item (CartItem.cantidad item + cantidad))
          | None =>
              (Cart.items (carrito st)
                 ++ [CartItem.new (Product.id product_info)
                       (Product.nombre product_info)
                       (Product.precio product_info) cantidad])%list
          end in
        let st' := set_carrito st (set_items (carrito st) items') in
        let total_items := total_unidades (carrito st') in
        let subtotal := Cart.get_subtotal (carrito st') in
        (precio_unitario <- format_price (PInt (Product.precio product_info)) ;;
         subtotal_agregado <-
           format_price (PInt (Product.precio product_info * cantidad)) ;;
         subtotal_fmt <- format_price (PInt subtotal) ;;
         Returns
           [ ("status", VStr "success");
             ("message", VStr ("✅ Agregado " ++ str_int cantidad ++ "x '"
                                 ++ Product.nombre product_info
                                 ++ "' al carrito."));
             ("producto_agregado",
               VDict
                 [ ("nombre", VStr (Product.nombre product_info));
                   ("cantidad", VInt cantidad);
                   ("precio_unitario", VStr precio_unitario);
                   ("subtotal", VStr subtotal_agregado) ]);
             ("carrito_resumen",
               VDict
                 [ ("total_items", VInt total_items);
                   ("subtotal", VStr subtotal_fmt);
                   ("envio_gratis", VBool (SHIPPING_THRESHOLD <=? subtotal)) ]) ],
         st')
  end.

Definition item_detail (nombre_key : str) (item : CartItem) : outcome value :=
  precio_unitario <- format_price (PInt (CartItem.precio_unitario item)) ;;
  subtotal <- format_price (PInt (CartItem.subtotal item)) ;;
  Returns
    (VDict
       [ (nombre_key, VStr (CartItem.nombre item));
         ("cantidad", VInt (CartItem.cantidad item));
         ("precio_unitario", VStr precio_unitario);
         ("subtotal", VStr subtotal) ]).

Definition ver_carrito (st : State) : tool_result :=
  let c := carrito st in
  match Cart.items c with
  | [] =>
      (Returns
         [ ("status", VStr "empty");
           ("message", VStr "🛒 El carrito está vacío.");
           ("sugerencia",
             VStr "Puedes buscar productos disponibles o pedir recomendaciones.") ],
       st)
  | _ =>
      (* Build cart summary *)
      (items_detail <- map_outcome (item_detail "nombre") (Cart.items c) ;;
       let subtotal := Cart.get_subtotal c in
       discount <- Cart.get_discount_amount c ;;
       tax <- Cart.get_tax c ;;
       let shipping := Cart.get_shipping c in
       total <- Cart.get_total c ;;
       subtotal_fmt <- format_price (PInt subtotal) ;;
       descuento <-
         (if num_gt0 discount
          then (s <- format_price discount ;; Returns (VStr s))
          else Returns VNone) ;;
       impuestos <- format_price tax ;;
       envio <- format_price shipping ;;
       total_fmt <- format_price total ;;
       let resumen : dict :=
         [ ("status", VStr "success");
           ("items", VList items_detail);
           ("total_productos", VInt (Z.of_nat (List.length (Cart.items c))));
           ("total_unidades", VInt (total_unidades c));
           ("calculos",
             VDict
               [ ("subtotal", VStr subtotal_fmt);
                 ("descuento", descuento);
                 ("codigo_descuento",
                   match Cart.discount_code c with
                   | Some code => VStr code
                   | None => VNone
                   end);
                 ("impuestos", VStr impuestos);
                 ("envio", VStr envio);
                 ("envio_gratis", VBool (num_eq0 shipping));
                 ("total", VStr total_fmt) ]) ] in
       (* Add savings message if applicable *)
       resumen1 <-
         (if num_gt0 discount
          then (s <- format_price discount ;;
                Returns (dict_set String.eqb resumen "mensaje_ahorro"
                           (VStr ("¡Estás ahorrando " ++ s ++ "!"))))
          else Returns resumen) ;;
       Returns
         (if num_eq0 shipping && (SHIPPING_THRESHOLD <=? subtotal)
          then dict_set String.eqb resumen1 "mensaje_envio"
                 (VStr "¡Envío gratis incluido!")
          else resumen1),
       st)
  end.

Definition percent (rate : double) : outcome str :=
  x <- py_mul (PFloat rate) (PInt 100) ;;
  n <- int_of_num x ;;
  Returns (str_int n ++ "%").

Definition aplicar_descuento (codigo : str) (st : State) : tool_result :=
  match Cart.items (carrito st) with
  | [] =>
      (Returns
         [ ("status", VStr "error");
           ("message",
             VStr "❌ El carrito está vacío. Agrega productos antes de aplicar descuentos.") ],
       st)
  | _ =>
      let codigo_upper := upper (strip codigo) in
      match dict_get String.eqb DISCOUNT_CODES codigo_upper with
      | None =>
          (Returns
             [ ("status", VStr "error");
               ("message", VStr ("❌ Código '" ++ codigo ++ "' no válido."));
               ("codigos_disponibles",
                 VList (map VStr (dict_keys DISCOUNT_CODES))) ],
           st)
      | Some descuento_pct =>
          let c := set_discount_code (carrito st) (Some codigo_upper) in
          let st' := set_carrito st c in
          (descuento_amt <- Cart.get_discount_amount c ;;
           pct <- percent descuento_pct ;;
           monto <- format_price descuento_amt ;;
           subtotal_original <- format_price (PInt (Cart.get_subtotal c)) ;;
           total <- Cart.get_total c ;;
           total_con_descuento <- format_price total ;;
           Returns
             [ ("status", VStr "success");
               ("message", VStr ("✅ Código '" ++ codigo_upper ++ "' aplicado: "
                                   ++ pct ++ " de descuento"));
               ("descuento",
                 VDict
                   [ ("porcentaje", VStr pct);
                     ("monto", VStr monto);
                     ("subtotal_original", VStr subtotal_original);
                     ("total_con_descuento", VStr total_con_descuento) ]) ],
           st')
      end
  end.

Definition remover_del_carrito (producto : str) (cantidad : option Z) (st : State)
    : tool_result :=
  match find_product_fuzzy producto with
  | None =>
      (Returns
         [ ("status", VStr "error");
           ("message", VStr ("❌ Producto '" ++ producto
                               ++ "' no encontrado en el carrito.")) ],
       st)
  | Some (key, product_info) =>
      match get_cart_item_by_product (carrito st) (Product.id product_info) with
      | None =>
          (Returns
             [ ("status", VStr "error");
               ("message", VStr ("❌ '" ++ Product.nombre product_info
                                   ++ "' no está en el carrito.")) ],
           st)
      | Some item =>
          (* Remove completely *)
          let remove_completely : tool_result :=
            (Returns
               [ ("status", VStr "success");
                 ("message", VStr ("✅ Removido completamente '"
                                     ++ Product.nombre product_info
                                     ++ "' del carrito."));
                 ("producto_removido", VStr (Product.nombre product_info));
                 ("cantidad_removida", VInt (CartItem.cantidad item)) ],
             set_carrito st
               (set_items (carrito st)
                  (list_remove item (Cart.items (carrito st))))) in
          match cantidad with
          | None => remove_completely
          | Some n =>
              if CartItem.cantidad item <=? n then remove_completely
              else if 0 <? n then
                (* Remove partially *)
                let item' := with_cantidad item (CartItem.cantidad item - n) in
                (Returns
                   [ ("status", VStr "success");
                     ("message", VStr ("✅ Removidas " ++ str_int n
                                         ++ " unidades de '"
                                         ++ Product.nombre product_info ++ "'."));
                     ("cantidad_removida", VInt n);
                     ("cantidad_restante", VInt (CartItem.cantidad item')) ],
                 set_carrito st
                   (set_items (carrito st)
                      (update_item (Cart.items (carrito st))
                         (Product.id product_info) item')))
              else
                (Returns
                   [ ("status", VStr "error");
                     ("message", VStr "❌ La cantidad debe ser mayor que cero.") ],
                 st)
          end
      end
  end.

Definition vaciar_carrito (st : State) : tool_result :=
  let items_count := Z.of_nat (List.length (Cart.items (carrito st))) in
  let units_count := total_unidades (carrito st) in
  (Returns
     [ ("status", VStr "success");
       ("message", VStr "🧹 Carrito vaciado correctamente.");
       ("productos_removidos", VInt items_count);
       ("unidades_removidas", VInt units_count) ],
   set_carrito st {| Cart.items := []; Cart.discount_code := None |}).

Definition calcular_total (st : State) : tool_result :=
  let c := carrito st in
  match Cart.items c with
  | [] =>
      (total <- format_price (PInt 0) ;;
       Returns
         [ ("status", VStr "empty");
           ("message", VStr "El carrito está vacío.");
           ("total", VStr total) ],
       st)
  | _ =>
      (let subtotal := Cart.get_subtotal c in
       discount <- Cart.get_discount_amount c ;;
       tax <- Cart.get_tax c ;;
       let shipping := Cart.get_shipping c in
       total <- Cart.get_total c ;;
       (* Build detailed breakdown *)
       subtotal_fmt <- format_price (PInt subtotal) ;;
       descuento <-
         (if num_gt0 discount
          then (monto <- format_price discount ;;
                Returns
                  (VDict
                     [ ("codigo",
                         match Cart.discount_code c with
                         | Some code => VStr code
                         | None => VNone
                         end);
                       ("monto", VStr monto) ]))
          else Returns VNone) ;;
       tasa <- percent TAX_RATE ;;
       impuestos_monto <- format_price tax ;;
       costo <- format_price shipping ;;
       umbral_gratis <- format_price (PInt SHIPPING_THRESHOLD) ;;
       total_fmt <- format_price total ;;
       total_fmt' <- format_price total ;;
       (* Add product details *)
       resumen_productos <- map_outcome (item_detail "producto") (Cart.items c) ;;
       let desglose : dict :=
         [ ("status", VStr "success");
           ("resumen_productos", VList resumen_productos);
           ("subtotal", VStr subtotal_fmt);
           ("descuento", descuento);
           ("impuestos", VDict [ ("tasa", VStr tasa); ("monto", VStr impuestos_monto) ]);
           ("envio",
             VDict
               [ ("costo", VStr costo);
                 ("gratis", VBool (num_eq0 shipping));
                 ("umbral_gratis", VStr umbral_gratis) ]);
           ("total", VStr total_fmt);
           ("mensaje", VStr ("💳 Total a pagar: " ++ total_fmt')) ] in
       (* Add savings information *)
       ahorros1 <-
         (if num_gt0 discount
          then (s <- format_price discount ;; Returns ["Descuento: " ++ s])
          else Returns []) ;;
       ahorros <-
         (if num_eq0 shipping && (SHIPPING_THRESHOLD <=? subtotal)
          then (s <- format_price (PInt SHIPPING_COST) ;;
                Returns (ahorros1 ++ [("Envío gratis: " ++ s)%string])%list)
          else Returns ahorros1) ;;
       match ahorros with
       | [] => Returns desglose
       | _ =>
           ahorro <- py_add discount
                       (PInt (if num_eq0 shipping then SHIPPING_COST else 0)) ;;
           ahorro_fmt <- format_price ahorro ;;
           Returns
             (dict_set String.eqb desglose "ahorros_totales"
                (VDict
                   [ ("items", VList (map VStr ahorros));
                     ("total", VStr ahorro_fmt) ]))
       end,
       st)
  end.

(** The sort key [(p.rating, p.reviews)] and the order of such tuples. *)
Definition key_lt (p q : Product) : bool :=
  if SFeqb (Product.rating p) (Product.rating q)
  then Product.reviews p <? Product.reviews q
  else SFltb (Product.rating p) (Product.rating q).

(** [sort(key=..., reverse=True)] is stable: an element goes after the
    elements before it that are not smaller. *)
Fixpoint insert_desc (p : Product) (l : list Product) : list Product :=
  match l with
  | [] => [p]
  | q :: l' => if key_lt q p then p :: l else q :: insert_desc p l'
  end.

Definition sort_desc (l : list Product) : list Product :=
  fold_left (fun acc p => insert_desc p acc) l [].

(** [list(set(...))]: a set has no order of its own; the categories are
    listed here in the order of the catalogue. *)
Fixpoint distinct (l : list str) : list str :=
  match l with
  | [] => []
  | x :: l' =>
      x :: filter (fun y => negb (String.eqb x y)) (distinct l')
  end.

Definition recomendacion (p : Product) : outcome value :=
  precio <- format_price (PInt (Product.precio p)) ;;
  Returns
    (VDict
       [ ("nombre", VStr (Product.nombre p));
         ("precio", VStr precio);
         ("rating", VStr ("⭐ " ++ repr_float (Product.rating p) ++ "/5.0"));
         ("categoria", VStr (Product.categoria p));
         ("descripcion", VStr (Product.descripcion p));
         ("disponible", VBool (0 <? Product.stock p)) ]).

Definition recomendar_productos (categoria : option str) (st : State)
    : tool_result :=
  let todos := dict_values PRODUCTOS_DB in
  (* [if categoria:] neither None nor the empty string *)
  let filtro :=
    match categoria with
    | Some cat => if str_bool cat then Some cat else None
    | None => None
    end in
  (* Filter by category if specified *)
  let productos :=
    match filtro with
    | Some cat =>
        filter (fun p => String.eqb (lower (Product.categoria p)) (lower cat)) todos
    | None => todos
    end in
  match filtro, productos with
  | Some cat, [] =>
      (Returns
         [ ("status", VStr "error");
           ("message", VStr ("No hay productos en la categoría '" ++ cat ++ "'."));
           ("categorias_disponibles",
             VList (map VStr (distinct (map Product.categoria todos)))) ],
       st)
  | _, _ =>
      (* Sort by rating and reviews; top 3 *)
      (recomendaciones <- map_outcome recomendacion (firstn 3 (sort_desc productos)) ;;
       Returns
         [ ("status", VStr "success");
           ("categoria", VStr (match filtro with Some cat => cat | None => "Todas" end));
           ("recomendaciones", VList recomendaciones);
           ("mensaje",
             VStr ("🌟 Top " ++ str_int (Z.of_nat (List.length recomendaciones))
                     ++ " productos recomendados")) ],
       st)
  end.

(** [l[-5:]]: the last five elements. *)
Definition last5 {A} (l : list A) : list A := skipn (List.length l - 5) l.

Definition mostrar_historial_busquedas (st : State) : tool_result :=
  match historial_busquedas st with
  | [] =>
      (Returns
         [ ("status", VStr "empty");
           ("message", VStr "No hay búsquedas recientes.") ],
       st)
  | h =>
      (Returns
         [ ("status", VStr "success");
           ("historial", VList (map VStr (last5 h)));
           ("total_busquedas", VInt (Z.of_nat (List.length h))) ],
       st)
  end.

End Tools.

(** ** The pricing policy in the words of the specification *)

(** The rate of the cart's discount code, when a code is set and valid. *)
Definition rate (code : option str) : option double :=
  match code with
  | Some k => dict_get String.eqb DISCOUNT_CODES k
  | None => None
  end.

Definition spec_discount (subtotal : double) (code : option str) : double :=
  match rate code with
  | Some r => fmul subtotal r
  | None => zero_f
  end.

Definition spec_tax (subtotal discount : double) : double :=
  fmul (fsub subtotal discount) TAX_RATE.

(** Decided on the subtotal before the discount. *)
Definition spec_shipping (subtotal : Z) : double :=
  if 100 <=? subtotal then zero_f else Z2F 10.

Definition spec_total (c : Cart) : double :=
  let subtotal := Z2F (Cart.get_subtotal c) in
  let discount := spec_discount subtotal (Cart.discount_code c) in
  let tax := spec_tax subtotal discount in
  let shipping := spec_shipping (Cart.get_subtotal c) in
  fadd (fadd (fsub subtotal discount) tax) shipping.

(** An int in the range that converts to a finite float. *)
Definition in_float_range (z : Z) : Prop := Z.abs z < float_overflow_bound.

(** ** Reading a result *)

Definition field (d : dict) (k : str) : option value := dict_get String.eqb d k.

(** [d[k1][k2]] *)
Definition field2 (d : dict) (k1 k2 : str) : option value :=
  match field d k1 with
  | Some (VDict d') => field d' k2
  | _ => None
  end.

Definition result_field (r : tool_result) (k : str) : option value :=
  match fst r with
  | Returns d => field d k
  | Raises _ => None
  end.

Definition result_field2 (r : tool_result) (k1 k2 : str) : option value :=
  match fst r with
  | Returns d => field2 d k1 k2
  | Raises _ => None
  end.

(** ** Calls and reachable states *)

(** A call of one of the nine tools with its arguments. *)
Inductive call :=
| Buscar (nombre_producto : str)
| Agregar (producto : str) (cantidad : Z)
| Ver
| Aplicar (codigo : str)
| Remover (producto : str) (cantidad : option Z)
| Vaciar
| Calcular
| Recomendar (categoria : option str)
| Historial.

Definition run (repr_float : double -> str) (c : call) (st : State) : tool_result :=
  match c with
  | Buscar nombre_producto => buscar_producto_por_nombre repr_float nombre_producto st
  | Agregar producto cantidad => agregar_al_carrito producto cantidad st
  | Ver => ver_carrito st
  | Aplicar codigo => aplicar_descuento codigo st
  | Remover producto cantidad => remover_del_carrito producto cantidad st
  | Vaciar => vaciar_carrito st
  | Calcular => calcular_total st
  | Recomendar categoria => recomendar_productos repr_float categoria st
  | Historial => mostrar_historial_busquedas st
  end.

(** The states the module can be in: the state at import and the state any
    call leaves, whether it returns or raises. *)
Inductive reachable (repr_float : double -> str) : State -> Prop :=
| reachable_initial : reachable repr_float initial_state
| reachable_call (c : call) (st : State) :
    reachable repr_float st -> reachable repr_float (snd (run repr_float c st)).

(** ** The cart invariant *)

(** The line is a line of the product: its id, name and price are the
    product's, and its quantity is positive and within the stock. *)
Definition line_of (item : CartItem) (p : Product) : bool :=
  String.eqb (CartItem.producto_id item) (Product.id p)
  && String.eqb (CartItem.nombre item) (Product.nombre p)
  && (CartItem.precio_unitario item =? Product.precio p)
  && (0 <? CartItem.cantidad item)
  && (CartItem.cantidad item <=? Product.stock p).

Definition line_ok (item : CartItem) : bool :=
  existsb (line_of item) (dict_values PRODUCTOS_DB)
  && (CartItem.subtotal item =? CartItem.precio_unitario item * CartItem.cantidad item).

Definition cart_ok (c : Cart) : Prop :=
  NoDup (map CartItem.producto_id (Cart.items c))
  /\ forallb line_ok (Cart.items c) = true.

(** The quantity of a product in the cart, 0 when it has no line. *)
Definition cantidad_en_carrito (c : Cart) (producto_id : str) : Z :=
  match get_cart_item_by_product c producto_id with
  | Some item => CartItem.cantidad item
  | None => 0
  end.

(** ** The resolver in the words of the specification *)

(** The single best match at or above the cutoff; of two keys with the same
    similarity, the one met first in the order of the catalogue stays. *)
Fixpoint spec_best (word : str) (keys : list str) (best : option (double * str))
    : option (double * str) :=
  match keys with
  | [] => best
  | k :: keys' =>
      let s := difflib.score word k in
      let best' :=
        if SFleb CUTOFF s then
          match best with
          | None => Some (s, k)
          | Some (s0, _) => if SFltb s0 s then Some (s, k) else best
          end
        else best in
      spec_best word keys' best'
  end.

Definition spec_resolve (query : str) : option (str * Product) :=
  let q := lower (strip query) in
  match dict_get String.eqb PRODUCTOS_DB q with
  | Some p => Some (q, p)
  | None =>
      match spec_best q (dict_keys PRODUCTOS_DB) None with
      | Some (_, k) =>
          match dict_get String.eqb PRODUCTOS_DB k with
          | Some p => Some (k, p)
          | None => None
          end
      | None => None
      end
  end.

(** ** Catalogue entries by name *)

Definition no_product : Product :=
  {| Product.id := ""; Product.nombre := ""; Product.precio := 0;
     Product.stock := 0; Product.caracteristicas := []; Product.categoria := "";
     Product.descripcion := ""; Product.rating := zero_f; Product.reviews := 0 |}.

Definition product_at (key : str) : Product :=
  match dict_get String.eqb PRODUCTOS_DB key with
  | Some p => p
  | None => no_product
  end.

Definition mouse : Product := Eval vm_compute in product_at "mouse gaming pro".
Definition laptop : Product := Eval vm_compute in product_at "laptop gamer pro".

(** ** Definitions for the statements *)

(** One keyboard at 120 with the code VIP30: the subtotal after the discount
    is 84, below the threshold, and the shipping is still free. *)
Definition teclado_vip30 : Cart :=
  {| Cart.items := [CartItem.new "TEC005" "Teclado Mecánico RGB" 120 1];
     Cart.discount_code := Some "VIP30" |}.

(** The state after adding two mice to the empty cart. *)
Definition two_mice : State :=
  snd (agregar_al_carrito "Mouse Gaming Pro" 2 initial_state).

(** *** The dicts that the cart tools return

    Each is the dict literal of the source, with its f-string. *)








Definition discount_empty_cart : dict :=
  [ ("status", VStr "error");
    ("message",
      VStr "❌ El carrito está vacío. Agrega productos antes de aplicar descuentos.") ].

Definition discount_invalid_code (codigo : str) : dict :=
  [ ("status", VStr "error");
    ("message", VStr ("❌ Código '" ++ codigo ++ "' no válido."));
    ("codigos_disponibles", VList [VStr "WELCOME10"; VStr "SAVE20"; VStr "VIP30"]) ].

Definition discount_applied (code pct : str) (amount subtotal total : double) : dict :=
  [ ("status", VStr "success");
    ("message", VStr ("✅ Código '" ++ code ++ "' aplicado: " ++ pct ++ " de descuento"));
    ("descuento",
      VDict
        [ ("porcentaje", VStr pct);
          ("monto", VStr ("$" ++ format_comma_2f amount));
          ("subtotal_original", VStr ("$" ++ format_comma_2f subtotal));
          ("total_con_descuento", VStr ("$" ++ format_comma_2f total)) ]) ].

(** *** States of the statements *)

(** The lines of the cart other than the line of product [x]. *)
Definition other_lines (x : str) (l : list CartItem) : list CartItem :=
  filter (fun i => negb (String.eqb (CartItem.producto_id i) x)) l.

(** The state with the lines of the cart replaced. *)
Definition with_items (st : State) (l : list CartItem) : State :=
  set_carrito st (set_items (carrito st) l).

(** One keyboard in the cart and the code SAVE20 applied; then the keyboard
    removed. *)
Definition one_teclado_save20 : State :=
  snd (aplicar_descuento "SAVE20"
         (snd (agregar_al_carrito "teclado mecanico rgb" 1 initial_state))).

Definition emptied_by_remove : State :=
  snd (remover_del_carrito "teclado mecanico rgb" None one_teclado_save20).

(** *** The shape of a result *)








(** *** Orders

    The order of floats and of (score, key) tuples as relations on keys. *)

(** A key whose lexicographic order is the order of the floats that are not
    NaN: the class (-inf, negative, zero, positive, +inf), then the exponent
    and the mantissa, both negated for a negative float. *)
Definition fkey (x : double) : Z * Z * Z :=
  match x with
  | S754_nan => (3, 0, 0)
  | S754_infinity true => (-2, 0, 0)
  | S754_infinity false => (2, 0, 0)
  | S754_zero _ => (0, 0, 0)
  | S754_finite true m e => (-1, - e, Zneg m)
  | S754_finite false m e => (1, e, Zpos m)
  end.

Definition lt3 (p q : Z * Z * Z) : Prop :=
  let '(a, b, c) := p in
  let '(a', b', c') := q in
  a < a' \/ (a = a' /\ (b < b' \/ (b = b' /\ c < c'))).

(** [t1 < t2] on tuples of a score and a key. *)
Definition tuple_lt (t1 t2 : double * str) : Prop :=
  lt3 (fkey (fst t1)) (fkey (fst t2))
  \/ (fkey (fst t1) = fkey (fst t2) /\ String.compare (snd t1) (snd t2) = Lt).

(** *** Invariants of the loops of difflib *)

(** The lengths recorded in [j2len] are between 0 and [B]. *)
Definition vals_le (d : list (Z * Z)) (B : Z) : Prop :=
  Forall (fun kv => 0 <= snd kv <= B) d.

(** The best match so far lies in [a[alo:hi]]. *)
Definition best_ok (alo hi : Z) (best : difflib.best_t) : Prop :=
  let '(besti, _, bestsize) := best in
  alo <= besti /\ besti + bestsize <= hi /\ 0 <= bestsize.

(** The work left in the queue: two units for each element of [a] in a
    range, and one for the range. *)
Definition queue_work (queue : list (Z * Z * Z * Z)) : nat :=
  fold_right
    (fun q n => let '(alo, ahi, _, _) := q in (2 * Z.to_nat (ahi - alo) + 1 + n)%nat)
    O queue.

(** Every range of the queue has [alo <= ahi]. *)
Definition queue_ok (queue : list (Z * Z * Z * Z)) : Prop :=
  Forall (fun q => let '(alo, ahi, _, _) := q in alo <= ahi) queue.

(** [f z], [f (z + 1)], ...: [f] on [n] consecutive integers from [z]. *)
Fixpoint all_from (f : Z -> bool) (z : Z) (n : nat) : bool :=
  match n with
  | O => true
  | S n' => f z && all_from f (z + 1) n'
  end.

(** The discount on a subtotal of [z] is above zero for each rate of the
    table: the test [discount > 0] of the view and of the total. *)
Definition discount_positive (z : Z) : bool :=
  forallb (fun kr => num_gt0 (PFloat (fmul (Z2F z) (snd kr)))) DISCOUNT_CODES.

(** A property of every character of a string. *)
Fixpoint str_forall (f : ascii -> bool) (s : str) : bool :=
  match s with
  | EmptyString => true
  | String c s' => f c && str_forall f s'
  end.

(** White space only; and text of the ASCII range, on which [lower] and
    [upper] are Python's. *)
Definition all_space : str -> bool := str_forall isspace.
Definition is_ascii : str -> bool := str_forall (fun c => (N_of_ascii c <? 128)%N).

(** *** What two sequences have in common

    The three ratios of [SequenceMatcher] count matches in three ways.
    The definitions below name what they count, for the proof that the
    first two are upper bounds of the third. *)

(** How often [c] occurs in [s]. *)
Fixpoint count (c : ascii) (s : list ascii) : Z :=
  match s with
  | [] => 0
  | x :: s' => (if Ascii.eqb x c then 1 else 0) + count c s'
  end.

(** The 256 elements that a sequence of bytes can hold. *)
Definition all_ascii : list ascii := map ascii_of_nat (List.seq 0 256).

Definition sumf (f : ascii -> Z) (l : list ascii) : Z :=
  fold_right (fun c acc => f c + acc) 0 l.

(** The size of the intersection of [a] and [b] as multisets. *)
Definition common (a b : list ascii) : Z :=
  sumf (fun c => Z.min (count c a) (count c b)) all_ascii.

(** [d.get(c, 0)]. *)
Definition getd (d : list (ascii * Z)) (c : ascii) : Z :=
  match dict_get Ascii.eqb d c with Some n => n | None => 0 end.

(** The count that [quick_loop] reads for [c]. *)
Definition numb (fullb avail : list (ascii * Z)) (c : ascii) : Z :=
  match dict_get Ascii.eqb avail c with
  | Some n => n
  | None => getd fullb c
  end.

(** [a[i : i+k] == b[j : j+k]], element by element. *)
Definition same_run (a b : difflib.seq) (i j k : Z) : Prop :=
  forall t, 0 <= t < k -> difflib.item a (i + t) = difflib.item b (j + t).

(** A block of [a[alo:ahi]] and [b[blo:bhi]] on which the two agree. *)
Definition block_in (a b : difflib.seq) (alo ahi blo bhi : Z) (m : difflib.Match)
    : Prop :=
  let '(i, j, k) := m in
  0 <= k /\ alo <= i /\ i + k <= ahi /\ blo <= j /\ j + k <= bhi /\ same_run a b i j k.

(** Every index that [b2j] gives for an element is a place of it in [b]. *)
Definition b2j_sound (b : difflib.seq) (b2j : list (ascii * list Z)) : Prop :=
  forall c l j, In (c, l) b2j -> In j l ->
    0 <= j < difflib.len b /\ difflib.item b j = c.

(** [j2len[j] = k]: the [k] elements that end at [a[i]] and at [b[j]] agree. *)
Definition j2len_sound (a b : difflib.seq) (alo blo bhi i : Z)
    (j2len : list (Z * Z)) : Prop :=
  forall j k, In (j, k) j2len ->
    1 <= k /\ alo <= i - k + 1 /\ blo <= j - k + 1 /\ j < bhi
    /\ same_run a b (i - k + 1) (j - k + 1) k.

(** [s[lo:hi]]. *)
Definition slice (s : difflib.seq) (lo hi : Z) : difflib.seq :=
  firstn (Z.to_nat (hi - lo)) (skipn (Z.to_nat lo) s).

(** The sum of the sizes of the blocks: the matches that [ratio] counts. *)
Definition sizes (l : list difflib.Match) : Z :=
  sum_int (map (fun t : difflib.Match => snd t) l).

(** A range of the queue lies in the two sequences. *)
Definition region_ok (a b : difflib.seq) (r : Z * Z * Z * Z) : Prop :=
  let '(alo, ahi, blo, bhi) := r in
  0 <= alo <= ahi /\ ahi <= difflib.len a /\ 0 <= blo <= bhi /\ bhi <= difflib.len b.

(** What the ranges of the queue have in common, range by range. *)
Definition queue_common (a b : difflib.seq) (queue : list (Z * Z * Z * Z)) : Z :=
  fold_right
    (fun r acc => let '(alo, ahi, blo, bhi) := r in
                  common (slice a alo ahi) (slice b blo bhi) + acc)
    0 queue.

(** [2.0 * matches] for a count of at most 20 is zero or below 64. *)
Definition small_numerator (m : Z) : bool :=
  match fmul (Z2F 2) (Z2F m) with
  | S754_zero false => true
  | S754_finite false mx ex => Zpos (digits2_pos mx) + ex <=? 6
  | _ => false
  end.

(** For a total length [L], one more match keeps the ratio at or above the
    cutoff. *)
Definition ratio_step (L m : Z) : bool :=
  implb (SFleb CUTOFF (difflib._calculate_ratio m L))
        (SFleb CUTOFF (difflib._calculate_ratio (m + 1) L)).

Definition ratio_steps (L : Z) : bool := all_from (ratio_step L) 0 20.

(** *** The recommendations *)

(** The order of the sort keys [(p.rating, p.reviews)] when the ratings are
    numbers: by rating, then by the number of reviews. *)
Definition klt (p q : Product) : Prop :=
  lt3 (fkey (Product.rating p)) (fkey (Product.rating q))
  \/ (fkey (Product.rating p) = fkey (Product.rating q)
      /\ Product.reviews p < Product.reviews q).

(** The products that [recomendar_productos] chooses from: those of the
    category, or the whole catalogue when no category is given. *)
Definition candidatos (categoria : option str) : list Product :=
  match categoria with
  | Some cat =>
      if str_bool cat
      then filter (fun p => String.eqb (lower (Product.categoria p)) (lower cat))
             (dict_values PRODUCTOS_DB)
      else dict_values PRODUCTOS_DB
  | None => dict_values PRODUCTOS_DB
  end.

(** The categories on which the lower case of the embedding is Python's:
    those of the ASCII range and those spelled as in the catalogue. *)
Definition categoria_en_rango (categoria : option str) : Prop :=
  match categoria with
  | Some cat =>
      is_ascii cat = true
      \/ In cat (map Product.categoria (dict_values PRODUCTOS_DB))
  | None => True
  end.

(** * Properties *)

(** ** Arithmetic *)

Lemma sum_int_cons (x : Z) (l : list Z) : sum_int (x :: l) = x + sum_int l.
Proof.
  unfold sum_int. cbn [fold_left].
  enough (G : forall a b, fold_left Z.add l (a + b) = a + fold_left Z.add l b)
    by (rewrite <- (G x 0); f_equal; lia).
  induction l as [|y l IH]; intros a b; cbn [fold_left]; [reflexivity|].
  rewrite <- Z.add_assoc. apply IH.
Qed.

Lemma sum_int_app (l1 l2 : list Z) : sum_int (l1 ++ l2) = sum_int l1 + sum_int l2.
Proof.
  induction l1 as [|x l1 IH]; [reflexivity|].
  cbn [app]. rewrite !sum_int_cons, IH. lia.
Qed.

Lemma all_from_spec (f : Z -> bool) (n : nat) (z : Z) :
  all_from f z n = true -> forall x, z <= x < z + Z.of_nat n -> f x = true.
Proof.
  revert z. induction n as [|n IH]; intros z H x Hx; [lia|].
  cbn [all_from] in H. apply andb_true_iff in H. destruct H as [Hz H].
  destruct (Z.eq_dec x z) as [->|Hne]; [exact Hz|].
  apply (IH (z + 1) H). lia.
Qed.

Lemma float_of_int_in_range (z : Z) :
  in_float_range z -> float_of_int z = Returns (Z2F z).
Proof.
  unfold in_float_range, float_of_int. intros H.
  apply Z.ltb_lt in H. now rewrite H.
Qed.

Lemma get_discount_amount_spec (c : Cart) :
  in_float_range (Cart.get_subtotal c) ->
  Cart.get_discount_amount c =
    Returns (PFloat (spec_discount (Z2F (Cart.get_subtotal c)) (Cart.discount_code c))).
Proof.
  intros H. unfold Cart.get_discount_amount, spec_discount, rate.
  destruct (Cart.discount_code c) as [code|]; [|reflexivity].
  destruct code as [|ch code]; [reflexivity|]. cbn [str_bool].
  destruct (dict_get String.eqb DISCOUNT_CODES (String ch code)); [|reflexivity].
  unfold py_mul, py_arith. cbn [num_to_float]. rewrite (float_of_int_in_range _ H).
  reflexivity.
Qed.

Lemma get_tax_spec (c : Cart) :
  in_float_range (Cart.get_subtotal c) ->
  Cart.get_tax c =
    Returns (PFloat (spec_tax (Z2F (Cart.get_subtotal c))
                       (spec_discount (Z2F (Cart.get_subtotal c)) (Cart.discount_code c)))).
Proof.
  intros H. unfold Cart.get_tax. rewrite (get_discount_amount_spec _ H).
  cbn [bind]. unfold py_sub, py_mul, py_arith. cbn [num_to_float].
  rewrite (float_of_int_in_range _ H). reflexivity.
Qed.

Lemma ten_in_float_range : float_of_int SHIPPING_COST = Returns (Z2F 10).
Proof. reflexivity. Qed.

Lemma get_total_spec (c : Cart) :
  in_float_range (Cart.get_subtotal c) ->
  Cart.get_total c = Returns (PFloat (spec_total c)).
Proof.
  intros H. unfold Cart.get_total.
  rewrite (get_discount_amount_spec _ H), (get_tax_spec _ H). cbn [bind].
  unfold py_sub, py_add, py_arith. cbn [num_to_float].
  rewrite (float_of_int_in_range _ H). cbn [bind].
  unfold spec_total, spec_shipping, Cart.get_shipping, SHIPPING_THRESHOLD.
  destruct (100 <=? Cart.get_subtotal c); cbn [num_to_float bind].
  - reflexivity.
  - rewrite ten_in_float_range. reflexivity.
Qed.

(** ** Claim C1: the total *)

(** C1.  For every cart whose subtotal converts to a float, [get_total]
    returns subtotal - discount + tax + shipping, where the discount is
    subtotal x rate of the discount code when a valid code is set and 0.0
    otherwise, the tax is (subtotal - discount) x 0.08, and the shipping is
    0.0 when the subtotal before the discount is at least 100 and 10
    otherwise. *)
Theorem total_is_subtotal_less_discount_plus_tax_plus_shipping (c : Cart) :
  in_float_range (Cart.get_subtotal c) ->
  let subtotal := Z2F (Cart.get_subtotal c) in
  let discount :=
    match rate (Cart.discount_code c) with
    | Some r => fmul subtotal r
    | None => zero_f
    end in
  let tax := fmul (fsub subtotal discount) TAX_RATE in
  let shipping :=
    if 100 <=? Cart.get_subtotal c then zero_f else Z2F 10 in
  Cart.get_discount_amount c = Returns (PFloat discount)
  /\ Cart.get_tax c = Returns (PFloat tax)
  /\ Cart.get_shipping c = (if 100 <=? Cart.get_subtotal c
                            then PFloat zero_f else PInt 10)
  /\ Cart.get_total c =
       Returns (PFloat (fadd (fadd (fsub subtotal discount) tax) shipping)).
Proof.
  intros H. cbv zeta. repeat split.
  - apply (get_discount_amount_spec _ H).
  - apply (get_tax_spec _ H).
  - apply (get_total_spec _ H).
Qed.

Lemma total_is_subtotal_less_discount_plus_tax_plus_shipping_witness :
  in_float_range (Cart.get_subtotal teclado_vip30)
  /\ Cart.get_discount_amount teclado_vip30 = Returns (PFloat (Z2F 36))
  /\ Cart.get_shipping teclado_vip30 = PFloat zero_f
  /\ (format_price (PFloat (spec_total teclado_vip30)) = Returns "$90.72"
      /\ Cart.get_total teclado_vip30 = Returns (PFloat (spec_total teclado_vip30))).
Proof.
  assert (H : in_float_range (Cart.get_subtotal teclado_vip30))
    by (vm_compute; reflexivity).
  pose proof (total_is_subtotal_less_discount_plus_tax_plus_shipping
                teclado_vip30 H) as (Hd & _ & Hs & Ht).
  split; [exact H|]. split; [rewrite Hd; vm_compute; reflexivity|].
  split; [exact Hs|]. split; [vm_compute; reflexivity|exact Ht].
Defined.

(** ** Claim C2: two mice in an empty cart *)

(** The figures the claim states are not the ones [ver_carrito] shows: the
    subtotal 160 reaches the threshold 100, so the shipping is free. *)
Lemma view_of_two_mice_is_not_182_80 :
  ~ (result_field2 (ver_carrito two_mice) "calculos" "subtotal" = Some (VStr "$160.00")
     /\ result_field2 (ver_carrito two_mice) "calculos" "envio" = Some (VStr "$10.00")
     /\ result_field2 (ver_carrito two_mice) "calculos" "impuestos" = Some (VStr "$12.80")
     /\ result_field2 (ver_carrito two_mice) "calculos" "total" = Some (VStr "$182.80")).
Proof.
  intros (_ & H & _). vm_compute in H. discriminate H.
Qed.

(** C2, amended.  From the empty cart with no discount code, adding 2 of
    "Mouse Gaming Pro" succeeds and leaves one line of 2 units at 80; the
    view then shows subtotal $160.00, shipping $0.00 (free, the subtotal is
    at least 100), tax $12.80 and total $172.80. *)
Theorem view_of_two_mice :
  result_field (agregar_al_carrito "Mouse Gaming Pro" 2 initial_state) "status"
    = Some (VStr "success")
  /\ Cart.items (carrito two_mice)
     = [CartItem.new "MOU002" "Mouse Gaming Pro" 80 2]
  /\ Cart.get_shipping (carrito two_mice) = PFloat zero_f
  /\ result_field (ver_carrito two_mice) "status" = Some (VStr "success")
  /\ result_field2 (ver_carrito two_mice) "calculos" "subtotal" = Some (VStr "$160.00")
  /\ result_field2 (ver_carrito two_mice) "calculos" "envio" = Some (VStr "$0.00")
  /\ result_field2 (ver_carrito two_mice) "calculos" "envio_gratis" = Some (VBool true)
  /\ result_field2 (ver_carrito two_mice) "calculos" "impuestos" = Some (VStr "$12.80")
  /\ result_field2 (ver_carrito two_mice) "calculos" "total" = Some (VStr "$172.80").
Proof.
  repeat split; vm_compute; reflexivity.
Qed.

(** ** The catalogue and the resolver *)

Lemma dict_get_In {V} (d : list (str * V)) (k : str) (v : V) :
  dict_get String.eqb d k = Some v -> In (k, v) d.
Proof.
  induction d as [|[k' v'] d IH]; cbn [dict_get]; [discriminate|].
  destruct (String.eqb k' k) eqn:E.
  - intros [= <-]. apply String.eqb_eq in E. subst. now left.
  - intros H. right. now apply IH.
Qed.

Lemma find_product_fuzzy_get (nombre key : str) (p : Product) :
  find_product_fuzzy nombre = Some (key, p) ->
  dict_get String.eqb PRODUCTOS_DB key = Some p.
Proof.
  unfold find_product_fuzzy.
  destruct (dict_get String.eqb PRODUCTOS_DB (lower (strip nombre))) as [p0|] eqn:E.
  - intros [= <- <-]. exact E.
  - destruct (difflib.get_close_matches_1 _ _ _) as [|m l]; [discriminate|].
    destruct (dict_get String.eqb PRODUCTOS_DB m) as [p1|] eqn:E1; [|discriminate].
    intros [= <- <-]. exact E1.
Qed.

Lemma find_product_fuzzy_In (nombre key : str) (p : Product) :
  find_product_fuzzy nombre = Some (key, p) -> In p (dict_values PRODUCTOS_DB).
Proof.
  intros H. apply find_product_fuzzy_get, dict_get_In in H.
  unfold dict_values. change p with (snd (key, p)). now apply in_map.
Qed.

(** The facts about the five products are read off the table. *)
Ltac each_product H :=
  cbv [PRODUCTOS_DB dict_values map snd In] in H;
  repeat (destruct H as [H|H]; [subst|]); try contradiction.

Lemma catalogue_ids_distinct (p p' : Product) :
  In p (dict_values PRODUCTOS_DB) -> In p' (dict_values PRODUCTOS_DB) ->
  Product.id p = Product.id p' -> p = p'.
Proof.
  intros H H'. each_product H; each_product H'; cbn; intros E;
    first [reflexivity | discriminate E].
Qed.

Lemma catalogue_bounds (p : Product) :
  In p (dict_values PRODUCTOS_DB) ->
  0 <= Product.stock p /\ 0 <= Product.precio p
  /\ Product.precio p * Product.stock p <= 15000.
Proof.
  intros H. each_product H; cbn; lia.
Qed.

(** ** Lines of the cart *)

Lemma get_cart_item_by_product_some (c : Cart) (x : str) (item : CartItem) :
  get_cart_item_by_product c x = Some item ->
  In item (Cart.items c) /\ CartItem.producto_id item = x.
Proof.
  unfold get_cart_item_by_product. intros H. apply find_some in H.
  destruct H as [H1 H2]. apply String.eqb_eq in H2. now split.
Qed.

Lemma get_cart_item_by_product_none (c : Cart) (x : str) :
  get_cart_item_by_product c x = None ->
  ~ In x (map CartItem.producto_id (Cart.items c)).
Proof.
  unfold get_cart_item_by_product. intros H Hin.
  apply in_map_iff in Hin. destruct Hin as (item & E & Hin).
  pose proof (find_none _ _ H _ Hin) as Hn. cbn in Hn.
  rewrite E, String.eqb_refl in Hn. discriminate.
Qed.

Lemma line_ok_inv (item : CartItem) :
  line_ok item = true ->
  exists p, In p (dict_values PRODUCTOS_DB)
    /\ CartItem.producto_id item = Product.id p
    /\ CartItem.nombre item = Product.nombre p
    /\ CartItem.precio_unitario item = Product.precio p
    /\ 0 < CartItem.cantidad item <= Product.stock p
    /\ CartItem.subtotal item = CartItem.precio_unitario item * CartItem.cantidad item.
Proof.
  unfold line_ok. rewrite andb_true_iff, existsb_exists.
  intros [(p & Hin & Hl) Hs]. exists p. unfold line_of in Hl.
  rewrite !andb_true_iff in Hl. destruct Hl as ((((H1 & H2) & H3) & H4) & H5).
  apply String.eqb_eq in H1, H2. apply Z.eqb_eq in H3, Hs.
  apply Z.ltb_lt in H4. apply Z.leb_le in H5. repeat split; assumption.
Qed.

Lemma line_ok_intro (item : CartItem) (p : Product) :
  In p (dict_values PRODUCTOS_DB) ->
  CartItem.producto_id item = Product.id p ->
  CartItem.nombre item = Product.nombre p ->
  CartItem.precio_unitario item = Product.precio p ->
  0 < CartItem.cantidad item <= Product.stock p ->
  CartItem.subtotal item = CartItem.precio_unitario item * CartItem.cantidad item ->
  line_ok item = true.
Proof.
  intros Hin H1 H2 H3 [H4 H5] Hs. unfold line_ok.
  rewrite andb_true_iff, existsb_exists. split.
  - exists p. split; [exact Hin|]. unfold line_of.
    rewrite H1, H2, H3, !String.eqb_refl, Z.eqb_refl. cbn.
    apply andb_true_iff. split; [now apply Z.ltb_lt | now apply Z.leb_le].
  - now apply Z.eqb_eq.
Qed.

Lemma cart_ok_line (c : Cart) (item : CartItem) :
  cart_ok c -> In item (Cart.items c) -> line_ok item = true.
Proof.
  intros [_ H] Hin. rewrite forallb_forall in H. now apply H.
Qed.

(** In a cart that satisfies the invariant, the quantity of a catalogue
    product is between 0 and its stock. *)
Lemma cantidad_en_carrito_bounds (c : Cart) (p : Product) :
  cart_ok c -> In p (dict_values PRODUCTOS_DB) ->
  0 <= cantidad_en_carrito c (Product.id p) <= Product.stock p.
Proof.
  intros Hok Hp. unfold cantidad_en_carrito.
  destruct (get_cart_item_by_product c (Product.id p)) as [item|] eqn:E.
  - apply get_cart_item_by_product_some in E. destruct E as [Hin Hid].
    destruct (line_ok_inv _ (cart_ok_line _ _ Hok Hin))
      as (p' & Hp' & Hid' & _ & _ & Hq & _).
    assert (p' = p) by (apply catalogue_ids_distinct; congruence).
    subst p'. lia.
  - pose proof (catalogue_bounds _ Hp). lia.
Qed.

(** ** Claim C4: adding beyond the stock *)



(** The invariant of a given cart, by computation. *)
Ltac cart_ok_by_computation :=
  split; [vm_compute; repeat (constructor; [cbn; intuition discriminate|]);
          constructor
         | vm_compute; reflexivity].


(** ** Claim C5: removing *)

Lemma CartItem_eqb_refl (x : CartItem) : CartItem.eqb x x = true.
Proof.
  unfold CartItem.eqb. now rewrite !String.eqb_refl, !Z.eqb_refl.
Qed.

Lemma CartItem_eqb_id (x y : CartItem) :
  CartItem.eqb x y = true -> CartItem.producto_id x = CartItem.producto_id y.
Proof.
  unfold CartItem.eqb. rewrite !andb_true_iff.
  intros ((((H & _) & _) & _) & _). now apply String.eqb_eq.
Qed.

Lemma other_lines_all (x : str) (l : list CartItem) :
  ~ In x (map CartItem.producto_id l) -> other_lines x l = l.
Proof.
  induction l as [|y l IH]; [reflexivity|]. cbn. intros H.
  destruct (String.eqb_spec (CartItem.producto_id y) x) as [E|_].
  - exfalso. apply H. now left.
  - cbn. f_equal. apply IH. intros Hin. apply H. now right.
Qed.

(** [items.remove(item)] on the item that the look-up by product id gave:
    the line of that product goes and the other lines stay. *)
Lemma list_remove_found (l : list CartItem) (x : str) (item : CartItem) :
  NoDup (map CartItem.producto_id l) ->
  find (fun i => String.eqb (CartItem.producto_id i) x) l = Some item ->
  list_remove item l = other_lines x l.
Proof.
  induction l as [|y l IH]; [discriminate|]. cbn [map find list_remove].
  intros Hnd Hf. inversion Hnd as [|? ? Hnotin Hnd']; subst.
  unfold other_lines. cbn [filter].
  destruct (String.eqb_spec (CartItem.producto_id y) x) as [E|NE].
  - injection Hf as <-. rewrite CartItem_eqb_refl. cbn.
    symmetry. apply other_lines_all. now rewrite <- E.
  - cbn. destruct (CartItem.eqb y item) eqn:Eq.
    + exfalso. apply NE. apply CartItem_eqb_id in Eq. rewrite Eq.
      apply find_some in Hf. destruct Hf as [_ Hf]. now apply String.eqb_eq in Hf.
    + f_equal. now apply IH.
Qed.

Lemma find_update_item (l : list CartItem) (x : str) (item item' : CartItem) :
  find (fun i => String.eqb (CartItem.producto_id i) x) l = Some item ->
  CartItem.producto_id item' = x ->
  find (fun i => String.eqb (CartItem.producto_id i) x) (update_item l x item')
  = Some item'.
Proof.
  intros Hf Hid. induction l as [|y l IH]; [discriminate|].
  cbn [find update_item] in *.
  destruct (String.eqb (CartItem.producto_id y) x) eqn:E.
  - cbn [find]. now rewrite Hid, String.eqb_refl.
  - cbn [find]. rewrite E. now apply IH.
Qed.




(** ** Claim C6: applying a discount code *)

(** The percentage shown for each rate of the table. *)
Lemma percent_of_rate (code : str) (r : double) :
  dict_get String.eqb DISCOUNT_CODES code = Some r ->
  exists pct, percent r = Returns pct.
Proof.
  unfold DISCOUNT_CODES. cbn [dict_get].
  repeat (match goal with
          | |- context [String.eqb ?a ?b] => destruct (String.eqb a b)
          end;
          [intros [= <-]; eexists; vm_compute; reflexivity|]).
  discriminate.
Qed.

Lemma aplicar_descuento_valid (st : State) (codigo pct : str) (r : double) :
  Cart.items (carrito st) <> [] ->
  dict_get String.eqb DISCOUNT_CODES (upper (strip codigo)) = Some r ->
  percent r = Returns pct ->
  in_float_range (Cart.get_subtotal (carrito st)) ->
  let code := upper (strip codigo) in
  let c := set_discount_code (carrito st) (Some code) in
  let subtotal := Z2F (Cart.get_subtotal (carrito st)) in
  aplicar_descuento codigo st
  = (Returns (discount_applied code pct (fmul subtotal r) subtotal (spec_total c)),
     set_carrito st c).
Proof.
  intros Hne Hr Hpct Hrange code c subtotal. unfold aplicar_descuento.
  destruct (Cart.items (carrito st)) as [|i l] eqn:Ei; [contradiction|].
  cbv zeta. rewrite Hr. fold code. fold c.
  assert (Hsub : Cart.get_subtotal c = Cart.get_subtotal (carrito st)) by reflexivity.
  assert (Hrange' : in_float_range (Cart.get_subtotal c)) by (rewrite Hsub; exact Hrange).
  rewrite (get_discount_amount_spec _ Hrange'), (get_total_spec _ Hrange'), Hpct.
  cbn [bind]. unfold format_price. cbn [num_to_float bind].
  rewrite (float_of_int_in_range _ Hrange'). cbn [bind].
  unfold spec_discount, rate. subst c code subtotal.
  cbn [Cart.discount_code set_discount_code]. rewrite Hr. reflexivity.
Qed.

(** C6.  [aplicar_descuento] returns the empty-cart error whenever the cart
    has no line, whatever the code.  With lines in the cart it trims and
    upper-cases the code, and for a code of the ASCII range, on which
    [strip] and [upper] are Python's: when the result is not a key of the
    table it returns the invalid-code error, which lists the three valid
    codes, and keeps the state; when it is a key it sets the cart's discount
    code to the normalised code and returns the discount amount
    (subtotal x rate) and the new total, as prices. *)
Theorem apply_discount_cases (st : State) (codigo : str) :
  (Cart.items (carrito st) = [] ->
   aplicar_descuento codigo st = (Returns discount_empty_cart, st))
  /\ (Cart.items (carrito st) <> [] ->
      is_ascii codigo = true ->
      dict_get String.eqb DISCOUNT_CODES (upper (strip codigo)) = None ->
      aplicar_descuento codigo st = (Returns (discount_invalid_code codigo), st))
  /\ (forall r,
        Cart.items (carrito st) <> [] ->
        is_ascii codigo = true ->
        dict_get String.eqb DISCOUNT_CODES (upper (strip codigo)) = Some r ->
        in_float_range (Cart.get_subtotal (carrito st)) ->
        let code := upper (strip codigo) in
        let c := {| Cart.items := Cart.items (carrito st);
                    Cart.discount_code := Some code |} in
        let subtotal := Z2F (Cart.get_subtotal (carrito st)) in
        exists pct,
          aplicar_descuento codigo st
          = (Returns (discount_applied code pct (fmul subtotal r) subtotal (spec_total c)),
             {| carrito := c; historial_busquedas := historial_busquedas st |})
          /\ Cart.get_discount_amount c = Returns (PFloat (fmul subtotal r))
          /\ Cart.get_total c = Returns (PFloat (spec_total c))).
Proof.
  split; [|split].
  - intros He. unfold aplicar_descuento. now rewrite He.
  - intros Hne _ Hr. unfold aplicar_descuento.
    destruct (Cart.items (carrito st)); [contradiction|]. cbv zeta. now rewrite Hr.
  - intros r Hne _ Hr Hrange code c subtotal.
    destruct (percent_of_rate _ _ Hr) as (pct & Hpct).
    exists pct. split; [exact (aplicar_descuento_valid st codigo pct r Hne Hr Hpct Hrange)|].
    assert (Hrange' : in_float_range (Cart.get_subtotal c)) by exact Hrange.
    split.
    + rewrite (get_discount_amount_spec _ Hrange'). unfold spec_discount, rate.
      subst c code. cbn [Cart.discount_code]. now rewrite Hr.
    + apply (get_total_spec _ Hrange').
Qed.

Lemma apply_discount_cases_witness :
  aplicar_descuento " save20 " initial_state = (Returns discount_empty_cart, initial_state)
  /\ aplicar_descuento "SAVE25" two_mice
     = (Returns (discount_invalid_code "SAVE25"), two_mice)
  /\ result_field2 (aplicar_descuento " save20 " two_mice) "descuento" "monto"
     = Some (VStr "$32.00").
Proof.
  destruct (apply_discount_cases initial_state " save20 ") as (H1 & _).
  destruct (apply_discount_cases two_mice "SAVE25") as (_ & H2 & _).
  destruct (apply_discount_cases two_mice " save20 ") as (_ & _ & H3).
  split; [apply H1; reflexivity|].
  split; [apply H2; [vm_compute; discriminate | reflexivity | vm_compute; reflexivity]|].
  edestruct H3 as (pct & Heq & _).
  - vm_compute. discriminate.
  - reflexivity.
  - reflexivity.
  - vm_compute. reflexivity.
  - rewrite Heq. vm_compute. reflexivity.
Defined.

(** ** Claim C8: the same code twice *)

(** C8.  With lines in the cart and a valid code, a second application of
    the same code returns what the first returned, a success with the same
    discount amount, and leaves the state, hence the total, as the first
    application left it. *)
Theorem apply_discount_twice (st : State) (codigo : str) (r : double) :
  Cart.items (carrito st) <> [] ->
  dict_get String.eqb DISCOUNT_CODES (upper (strip codigo)) = Some r ->
  in_float_range (Cart.get_subtotal (carrito st)) ->
  let first := aplicar_descuento codigo st in
  let second := aplicar_descuento codigo (snd first) in
  snd second = snd first
  /\ Cart.get_total (carrito (snd second)) = Cart.get_total (carrito (snd first))
  /\ (exists total, Cart.get_total (carrito (snd first)) = Returns total)
  /\ fst second = fst first
  /\ result_field second "status" = Some (VStr "success")
  /\ result_field2 second "descuento" "monto" = result_field2 first "descuento" "monto"
  /\ result_field2 first "descuento" "monto"
     = Some (VStr ("$" ++ format_comma_2f (fmul (Z2F (Cart.get_subtotal (carrito st))) r))).
Proof.
  intros Hne Hr Hrange first second.
  destruct (percent_of_rate _ _ Hr) as (pct & Hpct).
  pose proof (aplicar_descuento_valid st codigo pct r Hne Hr Hpct Hrange) as H1.
  cbv zeta in H1.
  set (st1 := set_carrito st (set_discount_code (carrito st) (Some (upper (strip codigo))))) in *.
  assert (Hne1 : Cart.items (carrito st1) <> []) by exact Hne.
  assert (Hrange1 : in_float_range (Cart.get_subtotal (carrito st1))) by exact Hrange.
  pose proof (aplicar_descuento_valid st1 codigo pct r Hne1 Hr Hpct Hrange1) as H2.
  cbv zeta in H2.
  change (set_carrito st1 (set_discount_code (carrito st1) (Some (upper (strip codigo)))))
    with st1 in H2.
  change (set_discount_code (carrito st1) (Some (upper (strip codigo))))
    with (set_discount_code (carrito st) (Some (upper (strip codigo)))) in H2.
  change (Cart.get_subtotal (carrito st1)) with (Cart.get_subtotal (carrito st)) in H2.
  assert (E1 : first = aplicar_descuento codigo st) by reflexivity.
  rewrite H1 in E1.
  assert (E2 : second = aplicar_descuento codigo st1) by (unfold second; now rewrite E1).
  rewrite H2 in E2. rewrite E1, E2. cbn [fst snd].
  repeat split; try reflexivity.
  exists (PFloat (spec_total (carrito st1))). apply (get_total_spec _ Hrange1).
Qed.

Lemma apply_discount_twice_witness :
  snd (aplicar_descuento "welcome10" (snd (aplicar_descuento "welcome10" two_mice)))
  = snd (aplicar_descuento "welcome10" two_mice)
  /\ result_field2
       (aplicar_descuento "welcome10" (snd (aplicar_descuento "welcome10" two_mice)))
       "descuento" "monto"
     = Some (VStr "$16.00").
Proof.
  edestruct (apply_discount_twice two_mice "welcome10")
    as (Hst & _ & _ & _ & _ & Hsame & Hmonto).
  - vm_compute. discriminate.
  - reflexivity.
  - vm_compute. reflexivity.
  - split; [exact Hst|]. rewrite Hsame, Hmonto. vm_compute. reflexivity.
Defined.

(** ** Claim C10: removing keeps the discount code *)

(** C10.  [remover_del_carrito] never changes the cart's discount code.  So
    a cart emptied by removing its last line keeps its code: there
    [aplicar_descuento] returns the empty-cart error, and a product added
    next is discounted by the code that was kept. *)
Theorem remove_keeps_discount_code :
  (forall producto cantidad st,
     Cart.discount_code (carrito (snd (remover_del_carrito producto cantidad st)))
     = Cart.discount_code (carrito st))
  /\ Cart.items (carrito emptied_by_remove) = []
  /\ Cart.discount_code (carrito emptied_by_remove) = Some "SAVE20"
  /\ aplicar_descuento "SAVE20" emptied_by_remove
     = (Returns discount_empty_cart, emptied_by_remove)
  /\ (let st := snd (agregar_al_carrito "mouse gaming pro" 1 emptied_by_remove) in
      Cart.discount_code (carrito st) = Some "SAVE20"
      /\ Cart.get_discount_amount (carrito st) = Returns (PFloat (Z2F 16))
      /\ result_field2 (ver_carrito st) "calculos" "descuento" = Some (VStr "$16.00")).
Proof.
  split.
  - intros producto cantidad st. unfold remover_del_carrito.
    destruct (find_product_fuzzy producto) as [[key p]|]; [|reflexivity].
    destruct (get_cart_item_by_product (carrito st) (Product.id p)) as [item|];
      [|reflexivity].
    destruct cantidad as [n|]; [|reflexivity].
    destruct (CartItem.cantidad item <=? n); [reflexivity|].
    destruct (0 <? n); reflexivity.
  - repeat split; vm_compute; reflexivity.
Qed.

(** ** Claim C7: the invariant of the reachable carts *)

Lemma cart_ok_same_items (c c' : Cart) :
  Cart.items c' = Cart.items c -> cart_ok c -> cart_ok c'.
Proof. unfold cart_ok. intros ->. exact (fun H => H). Qed.

Lemma update_item_ids (l : list CartItem) (x : str) (item' : CartItem) :
  CartItem.producto_id item' = x ->
  map CartItem.producto_id (update_item l x item') = map CartItem.producto_id l.
Proof.
  intros Hid. induction l as [|y l IH]; [reflexivity|]. cbn [update_item].
  destruct (String.eqb_spec (CartItem.producto_id y) x) as [E|_]; cbn [map].
  - now rewrite Hid, E.
  - now rewrite IH.
Qed.

Lemma update_item_forallb (f : CartItem -> bool) (l : list CartItem) (x : str)
    (item' : CartItem) :
  forallb f l = true -> f item' = true -> forallb f (update_item l x item') = true.
Proof.
  intros Hl Hf. induction l as [|y l IH]; [reflexivity|].
  cbn [forallb update_item] in *. apply andb_true_iff in Hl. destruct Hl as [Hy Hl].
  destruct (String.eqb (CartItem.producto_id y) x); cbn [forallb].
  - now rewrite Hf, Hl.
  - now rewrite Hy, IH.
Qed.

Lemma other_lines_ok (x : str) (c : Cart) :
  cart_ok c -> cart_ok (set_items c (other_lines x (Cart.items c))).
Proof.
  intros [Hnd Hall]. split; cbn [set_items Cart.items].
  - clear Hall. induction (Cart.items c) as [|y l IH]; [constructor|].
    inversion Hnd as [|? ? Hnotin Hnd']; subst. unfold other_lines. cbn [filter].
    destruct (negb (String.eqb (CartItem.producto_id y) x)); [|now apply IH].
    cbn [map]. constructor; [|now apply IH].
    intros Hin. apply Hnotin. apply in_map_iff in Hin.
    destruct Hin as (i & Ei & Hi). apply filter_In in Hi.
    apply in_map_iff. exists i. now split.
  - rewrite forallb_forall in *. intros i Hi. apply Hall.
    apply filter_In in Hi. apply Hi.
Qed.

(** A line of the cart belongs to the product with its id. *)
Lemma cart_line_of_product (c : Cart) (item : CartItem) (p : Product) :
  cart_ok c -> In item (Cart.items c) -> In p (dict_values PRODUCTOS_DB) ->
  CartItem.producto_id item = Product.id p ->
  CartItem.nombre item = Product.nombre p
  /\ CartItem.precio_unitario item = Product.precio p
  /\ 0 < CartItem.cantidad item <= Product.stock p
  /\ CartItem.subtotal item = CartItem.precio_unitario item * CartItem.cantidad item.
Proof.
  intros Hok Hin Hp Hid.
  destruct (line_ok_inv _ (cart_ok_line _ _ Hok Hin)) as (p' & Hp' & Hid' & H).
  assert (p' = p) by (apply catalogue_ids_distinct; congruence).
  subst p'. exact H.
Qed.

Lemma with_cantidad_ok (c : Cart) (item : CartItem) (p : Product) (q : Z) :
  cart_ok c -> In item (Cart.items c) -> In p (dict_values PRODUCTOS_DB) ->
  CartItem.producto_id item = Product.id p ->
  0 < q <= Product.stock p ->
  cart_ok (set_items c (update_item (Cart.items c) (Product.id p) (with_cantidad item q))).
Proof.
  intros Hok Hin Hp Hid Hq.
  destruct (cart_line_of_product _ _ _ Hok Hin Hp Hid) as (Hn & Hpr & _ & _).
  destruct Hok as [Hnd Hall]. split; cbn [set_items Cart.items].
  - rewrite update_item_ids; [exact Hnd | exact Hid].
  - apply update_item_forallb; [exact Hall|].
    apply (line_ok_intro _ p); cbn; try assumption. reflexivity.
Qed.

Lemma agregar_al_carrito_ok (producto : str) (cantidad : Z) (st : State) :
  cart_ok (carrito st) ->
  cart_ok (carrito (snd (agregar_al_carrito producto cantidad st))).
Proof.
  intros Hok. unfold agregar_al_carrito.
  destruct (Z.leb_spec cantidad 0) as [|Hpos]; [exact Hok|].
  destruct (find_product_fuzzy producto) as [[key p]|] eqn:Hf; [|exact Hok].
  pose proof (find_product_fuzzy_In _ _ _ Hf) as Hp.
  destruct (get_cart_item_by_product (carrito st) (Product.id p)) as [item|] eqn:Hg.
  - destruct (Z.ltb_spec (Product.stock p) (CartItem.cantidad item + cantidad))
      as [|Hstock]; [exact Hok|]. cbn [snd set_carrito carrito].
    destruct (get_cart_item_by_product_some _ _ _ Hg) as [Hin Hid].
    destruct (cart_line_of_product _ _ _ Hok Hin Hp Hid) as (_ & _ & Hq & _).
    apply (with_cantidad_ok _ item p); try assumption. lia.
  - destruct (Z.ltb_spec (Product.stock p) (0 + cantidad)) as [|Hstock]; [exact Hok|].
    cbn [snd set_carrito carrito set_items].
    destruct Hok as [Hnd Hall]. split; cbn [Cart.items set_items].
    + rewrite map_app. cbn [map CartItem.new CartItem.producto_id].
      apply NoDup_app; [exact Hnd | constructor; [intros []|constructor] |].
      intros x Hx [<-|[]]. revert Hx.
      now apply get_cart_item_by_product_none.
    + rewrite forallb_app, Hall. cbn [forallb andb].
      rewrite andb_true_r. apply (line_ok_intro _ p); cbn; try reflexivity;
        [assumption|lia].
Qed.

Lemma remover_del_carrito_ok (producto : str) (cantidad : option Z) (st : State) :
  cart_ok (carrito st) ->
  cart_ok (carrito (snd (remover_del_carrito producto cantidad st))).
Proof.
  intros Hok. unfold remover_del_carrito.
  destruct (find_product_fuzzy producto) as [[key p]|] eqn:Hf; [|exact Hok].
  pose proof (find_product_fuzzy_In _ _ _ Hf) as Hp.
  destruct (get_cart_item_by_product (carrito st) (Product.id p)) as [item|] eqn:Hg;
    [|exact Hok].
  destruct (get_cart_item_by_product_some _ _ _ Hg) as [Hin Hid].
  assert (Hall : cart_ok (set_items (carrito st)
                            (list_remove item (Cart.items (carrito st))))).
  { rewrite (list_remove_found _ (Product.id p)); [|apply Hok|exact Hg].
    now apply other_lines_ok. }
  destruct cantidad as [n|]; [|exact Hall].
  destruct (Z.leb_spec (CartItem.cantidad item) n) as [|Hlt]; [exact Hall|].
  destruct (Z.ltb_spec 0 n) as [Hpos|]; [|exact Hok].
  cbn [snd set_carrito carrito].
  destruct (cart_line_of_product _ _ _ Hok Hin Hp Hid) as (_ & _ & Hq & _).
  apply (with_cantidad_ok _ item p); try assumption. lia.
Qed.

Lemma run_cart_ok (repr_float : double -> str) (c : call) (st : State) :
  cart_ok (carrito st) -> cart_ok (carrito (snd (run repr_float c st))).
Proof.
  intros Hok. destruct c as [nombre|producto cantidad| |codigo|producto cantidad| | |cat|];
    cbn [run].
  - unfold buscar_producto_por_nombre.
    destruct (find_product_fuzzy nombre) as [[key p]|]; exact Hok.
  - now apply agregar_al_carrito_ok.
  - unfold ver_carrito. destruct (Cart.items (carrito st)); exact Hok.
  - unfold aplicar_descuento. destruct (Cart.items (carrito st)) eqn:E; [exact Hok|].
    cbv zeta. destruct (dict_get String.eqb DISCOUNT_CODES (upper (strip codigo)));
      [|exact Hok].
    cbn [snd]. apply (cart_ok_same_items (carrito st)); [reflexivity|exact Hok].
  - now apply remover_del_carrito_ok.
  - split; [constructor|reflexivity].
  - unfold calcular_total. destruct (Cart.items (carrito st)); exact Hok.
  - unfold recomendar_productos. cbv zeta.
    destruct cat as [cat|]; [destruct (str_bool cat)|];
      try (destruct (filter _ _)); exact Hok.
  - unfold mostrar_historial_busquedas. destruct (historial_busquedas st); exact Hok.
Qed.

Lemma reachable_cart_ok (repr_float : double -> str) (st : State) :
  reachable repr_float st -> cart_ok (carrito st).
Proof.
  induction 1 as [|c st _ IH].
  - split; [constructor|reflexivity].
  - now apply run_cart_ok.
Qed.

(** C7.  In every state reachable from the initial one by calls of the nine
    tools: every line has a positive quantity and a subtotal equal to its
    unit price times its quantity, no two lines have the same product id,
    and the quantity of a line does not exceed the stock of the catalogue
    product with that id. *)
Theorem reachable_cart_invariant (repr_float : double -> str) (st : State) :
  reachable repr_float st ->
  (forall item, In item (Cart.items (carrito st)) ->
     0 < CartItem.cantidad item
     /\ CartItem.subtotal item = CartItem.precio_unitario item * CartItem.cantidad item)
  /\ NoDup (map CartItem.producto_id (Cart.items (carrito st)))
  /\ (forall item p,
        In item (Cart.items (carrito st)) ->
        In p (dict_values PRODUCTOS_DB) ->
        CartItem.producto_id item = Product.id p ->
        CartItem.cantidad item <= Product.stock p)
  /\ (forall p, In p (dict_values PRODUCTOS_DB) ->
        cantidad_en_carrito (carrito st) (Product.id p) <= Product.stock p).
Proof.
  intros Hr. pose proof (reachable_cart_ok _ _ Hr) as Hok.
  split; [|split; [|split]].
  - intros item Hin.
    destruct (line_ok_inv _ (cart_ok_line _ _ Hok Hin)) as (p & _ & _ & _ & _ & Hq & Hs).
    split; [lia|exact Hs].
  - apply Hok.
  - intros item p Hin Hp Hid.
    destruct (cart_line_of_product _ _ _ Hok Hin Hp Hid) as (_ & _ & Hq & _). lia.
  - intros p Hp. apply (cantidad_en_carrito_bounds _ _ Hok Hp).
Qed.

Lemma reachable_cart_invariant_witness :
  NoDup (map CartItem.producto_id (Cart.items (carrito two_mice)))
  /\ cantidad_en_carrito (carrito two_mice) (Product.id mouse) <= Product.stock mouse.
Proof.
  assert (Hr : reachable (fun _ => EmptyString) two_mice).
  { apply (reachable_call _ (Agregar "Mouse Gaming Pro" 2) initial_state).
    apply reachable_initial. }
  destruct (reachable_cart_invariant _ _ Hr) as (_ & Hnd & _ & Hq).
  split; [exact Hnd|]. apply (Hq mouse). vm_compute. do 3 right. left. reflexivity.
Defined.

(** ** No tool raises in a reachable state *)

Lemma in_float_range_small (z : Z) : 0 <= z <= 75000 -> in_float_range z.
Proof.
  intros H. unfold in_float_range.
  assert (75000 < float_overflow_bound) by (vm_compute; reflexivity).
  rewrite Z.abs_eq; lia.
Qed.

Lemma format_price_int (z : Z) :
  in_float_range z -> format_price (PInt z) = Returns ("$" ++ format_comma_2f (Z2F z)).
Proof.
  intros H. unfold format_price. cbn [num_to_float].
  now rewrite (float_of_int_in_range _ H).
Qed.

Lemma format_price_float (f : double) :
  format_price (PFloat f) = Returns ("$" ++ format_comma_2f f).
Proof. reflexivity. Qed.

Lemma map_outcome_returns {A B} (f : A -> outcome B) (l : list A) :
  (forall x, In x l -> exists y, f x = Returns y) ->
  exists ys, map_outcome f l = Returns ys /\ List.length ys = List.length l.
Proof.
  induction l as [|x l IH]; intros H.
  - now exists [].
  - destruct (H x (or_introl eq_refl)) as (y & Hy).
    destruct IH as (ys & Hys & Hlen); [intros x' Hx'; apply H; now right|].
    exists (y :: ys). cbn [map_outcome]. rewrite Hy, Hys. cbn. now rewrite Hlen.
Qed.

Lemma sum_int_bounds (B : Z) (l : list Z) :
  (forall x, In x l -> 0 <= x <= B) ->
  0 <= sum_int l <= B * Z.of_nat (List.length l).
Proof.
  intros H. unfold sum_int.
  enough (G : forall a, a <= fold_left Z.add l a <= a + B * Z.of_nat (List.length l))
    by (specialize (G 0); lia).
  induction l as [|x l IH]; intros a; cbn [fold_left List.length].
  - lia.
  - specialize (IH (fun y Hy => H y (or_intror Hy)) (a + x)).
    pose proof (H x (or_introl eq_refl)). lia.
Qed.

Lemma cart_ok_line_bounds (c : Cart) (item : CartItem) :
  cart_ok c -> In item (Cart.items c) ->
  0 <= CartItem.precio_unitario item <= 15000
  /\ 0 <= CartItem.subtotal item <= 15000.
Proof.
  intros Hok Hin.
  destruct (line_ok_inv _ (cart_ok_line _ _ Hok Hin))
    as (p & Hp & _ & _ & Hpr & Hq & Hs).
  pose proof (catalogue_bounds _ Hp). rewrite Hs, Hpr. nia.
Qed.

Lemma cart_ok_length (c : Cart) : cart_ok c -> (List.length (Cart.items c) <= 5)%nat.
Proof.
  intros Hok.
  rewrite <- (length_map CartItem.producto_id).
  change 5%nat with (List.length (map Product.id (dict_values PRODUCTOS_DB))).
  apply NoDup_incl_length; [apply Hok|].
  intros x Hx. apply in_map_iff in Hx. destruct Hx as (item & <- & Hin).
  destruct (line_ok_inv _ (cart_ok_line _ _ Hok Hin)) as (p & Hp & Hid & _).
  rewrite Hid. now apply in_map.
Qed.

Lemma cart_ok_subtotal_range (c : Cart) :
  cart_ok c -> 0 <= Cart.get_subtotal c <= 75000.
Proof.
  intros Hok. unfold Cart.get_subtotal.
  pose proof (sum_int_bounds 15000 (map CartItem.subtotal (Cart.items c))) as H.
  rewrite length_map in H. pose proof (cart_ok_length _ Hok).
  assert (forall x, In x (map CartItem.subtotal (Cart.items c)) -> 0 <= x <= 15000).
  { intros x Hx. apply in_map_iff in Hx. destruct Hx as (item & <- & Hin).
    apply (cart_ok_line_bounds _ _ Hok Hin). }
  specialize (H H1). lia.
Qed.

Lemma cart_ok_in_float_range (c : Cart) :
  cart_ok c -> in_float_range (Cart.get_subtotal c).
Proof.
  intros Hok. apply in_float_range_small, (cart_ok_subtotal_range _ Hok).
Qed.

Lemma item_detail_returns (c : Cart) (key : str) (item : CartItem) :
  cart_ok c -> In item (Cart.items c) -> exists v, item_detail key item = Returns v.
Proof.
  intros Hok Hin. destruct (cart_ok_line_bounds _ _ Hok Hin) as [Hp Hs].
  unfold item_detail.
  rewrite !format_price_int by (apply in_float_range_small; lia).
  cbn [bind]. eexists. reflexivity.
Qed.

(** ** Claim C9: the shape of the results *)



Lemma get_shipping_cases (c : Cart) :
  Cart.get_shipping c = PFloat zero_f \/ Cart.get_shipping c = PInt SHIPPING_COST.
Proof.
  unfold Cart.get_shipping.
  destruct (SHIPPING_THRESHOLD <=? Cart.get_subtotal c); [now left|now right].
Qed.


Lemma catalogue_price_range (p : Product) :
  In p (dict_values PRODUCTOS_DB) -> in_float_range (Product.precio p).
Proof.
  intros Hp. pose proof (catalogue_bounds _ Hp) as (Hs & Hpr & Hb).
  apply in_float_range_small. each_product Hp; cbn; lia.
Qed.



Lemma firstn_In_list {A} (n : nat) (l : list A) (x : A) :
  In x (firstn n l) -> In x l.
Proof.
  revert l. induction n as [|n IH]; intros [|y l]; cbn [firstn]; try contradiction.
  intros [<-|H]; [now left|right; now apply IH].
Qed.











(** The four successes without a [message]; two of them carry a [mensaje]. *)
Lemma four_successes_without_message :
  let searched := snd (run (fun _ => EmptyString) (Buscar "mouse") initial_state) in
  result_field (ver_carrito two_mice) "message" = None
  /\ result_field (calcular_total two_mice) "message" = None
  /\ result_field (calcular_total two_mice) "mensaje"
     = Some (VStr "💳 Total a pagar: $172.80")
  /\ result_field (recomendar_productos (fun _ => EmptyString) None two_mice) "message"
     = None
  /\ result_field (recomendar_productos (fun _ => EmptyString) None two_mice) "mensaje"
     = Some (VStr "🌟 Top 3 productos recomendados")
  /\ result_field (mostrar_historial_busquedas searched) "message" = None
  /\ result_field (mostrar_historial_busquedas searched) "status"
     = Some (VStr "success").
Proof.
  cbv zeta. repeat split; vm_compute; reflexivity.
Qed.

(** ** The order of floats and of (score, key) tuples *)

Lemma SFcompare_fkey (x y : double) :
  x <> S754_nan -> y <> S754_nan ->
  match SFcompare x y with
  | Some Lt => lt3 (fkey x) (fkey y)
  | Some Eq => fkey x = fkey y
  | Some Gt => lt3 (fkey y) (fkey x)
  | None => False
  end.
Proof.
  intros Hx Hy.
  destruct x as [sx|sx| |sx mx ex], y as [sy|sy| |sy my ey];
    try contradiction; try destruct sx; try destruct sy;
    cbn [SFcompare fkey lt3]; try reflexivity; try lia.
  - destruct (Z.compare_spec ex ey) as [->|?|?]; try lia.
    change (Pos.compare_cont Eq mx my) with (Pos.compare mx my).
    destruct (Pos.compare_spec mx my) as [->|?|?]; cbn [CompOpp lt3];
      [reflexivity|lia|lia].
  - destruct (Z.compare_spec ex ey) as [->|?|?]; try lia.
    change (Pos.compare_cont Eq mx my) with (Pos.compare mx my).
    destruct (Pos.compare_spec mx my) as [->|?|?]; cbn [lt3];
      [reflexivity|lia|lia].
Qed.

Lemma SFleb_not_nan (c x : double) : SFleb c x = true -> x <> S754_nan.
Proof.
  intros H ->. unfold SFleb in H. destruct c as [| | |[] ? ?]; discriminate H.
Qed.

Lemma lt3_trans (p q r : Z * Z * Z) : lt3 p q -> lt3 q r -> lt3 p r.
Proof.
  destruct p as [[a b] c], q as [[a' b'] c'], r as [[a'' b''] c''].
  unfold lt3. lia.
Qed.

Lemma lt3_irrefl (p : Z * Z * Z) : ~ lt3 p p.
Proof. destruct p as [[a b] c]. unfold lt3. lia. Qed.

Lemma ascii_compare_trans (a b c : ascii) :
  Ascii.compare a b = Lt -> Ascii.compare b c = Lt -> Ascii.compare a c = Lt.
Proof.
  unfold Ascii.compare. rewrite !N.compare_lt_iff. lia.
Qed.

Lemma string_compare_refl (s : str) : String.compare s s = Eq.
Proof.
  pose proof (String.compare_antisym s s) as H.
  destruct (String.compare s s); [reflexivity|discriminate H|discriminate H].
Qed.

Lemma string_compare_trans (a b c : str) :
  String.compare a b = Lt -> String.compare b c = Lt -> String.compare a c = Lt.
Proof.
  revert b c. induction a as [|x a IH]; intros [|y b] [|z c]; cbn [String.compare];
    try discriminate; try reflexivity.
  destruct (Ascii.compare x y) eqn:Exy; try discriminate;
    destruct (Ascii.compare y z) eqn:Eyz; try discriminate; intros H1 H2.
  - apply Ascii.compare_eq_iff in Exy, Eyz. subst.
    rewrite (proj2 (N.compare_eq_iff _ _) eq_refl : Ascii.compare z z = Eq).
    now apply (IH b).
  - apply Ascii.compare_eq_iff in Exy. subst. now rewrite Eyz.
  - apply Ascii.compare_eq_iff in Eyz. subst. now rewrite Exy.
  - now rewrite (ascii_compare_trans _ _ _ Exy Eyz).
Qed.

Lemma tuple_lt_trans (t1 t2 t3 : double * str) :
  tuple_lt t1 t2 -> tuple_lt t2 t3 -> tuple_lt t1 t3.
Proof.
  unfold tuple_lt. intros [H1|[E1 H1]] [H2|[E2 H2]].
  - left. now apply (lt3_trans _ (fkey (fst t2))).
  - left. now rewrite <- E2.
  - left. now rewrite E1.
  - right. split; [congruence|]. now apply (string_compare_trans _ (snd t2)).
Qed.

Lemma tuple_lt_irrefl (t : double * str) : ~ tuple_lt t t.
Proof.
  intros [H|[_ H]]; [now apply lt3_irrefl in H|].
  rewrite string_compare_refl in H. discriminate.
Qed.

Lemma SFeqb_fkey (x y : double) :
  x <> S754_nan -> y <> S754_nan -> (SFeqb x y = true <-> fkey x = fkey y).
Proof.
  intros Hx Hy. pose proof (SFcompare_fkey x y Hx Hy) as H. unfold SFeqb.
  destruct (SFcompare x y) as [[| |]|]; try contradiction.
  - now split.
  - split; [discriminate|]. intros E. rewrite E in H. now apply lt3_irrefl in H.
  - split; [discriminate|]. intros E. rewrite E in H. now apply lt3_irrefl in H.
Qed.

Lemma SFltb_fkey (x y : double) :
  x <> S754_nan -> y <> S754_nan -> (SFltb x y = true <-> lt3 (fkey x) (fkey y)).
Proof.
  intros Hx Hy. pose proof (SFcompare_fkey x y Hx Hy) as H. unfold SFltb.
  destruct (SFcompare x y) as [[| |]|]; try contradiction.
  - split; [discriminate|]. intros L. rewrite H in L. now apply lt3_irrefl in L.
  - now split.
  - split; [discriminate|]. intros L. exfalso.
    apply (lt3_irrefl (fkey x)). now apply (lt3_trans _ (fkey y)).
Qed.

(** On scores that are not NaN, [tuple_gt] is that order. *)
Lemma tuple_gt_spec (t1 t2 : double * str) :
  fst t1 <> S754_nan -> fst t2 <> S754_nan ->
  (difflib.tuple_gt t1 t2 = true <-> tuple_lt t2 t1).
Proof.
  destruct t1 as [s1 x1], t2 as [s2 x2]. cbn [fst]. intros H1 H2.
  unfold difflib.tuple_gt, tuple_lt. cbn [fst snd].
  destruct (SFeqb s1 s2) eqn:E.
  - apply (SFeqb_fkey _ _ H1 H2) in E. unfold String.ltb.
    destruct (String.compare x2 x1) eqn:Ec.
    + split; [discriminate|].
      intros [L|[_ L]]; [rewrite E in L; now apply lt3_irrefl in L|discriminate L].
    + split; [|reflexivity]. intros _. right. now split.
    + split; [discriminate|].
      intros [L|[_ L]]; [rewrite E in L; now apply lt3_irrefl in L|discriminate L].
  - rewrite (SFltb_fkey _ _ H2 H1). split; [now left|].
    intros [L|[Ek _]]; [exact L|].
    symmetry in Ek. apply (SFeqb_fkey _ _ H1 H2) in Ek. congruence.
Qed.

Lemma lt3_trichotomy (p q : Z * Z * Z) : lt3 p q \/ p = q \/ lt3 q p.
Proof.
  destruct p as [[a b] c], q as [[a' b'] c']. unfold lt3.
  destruct (Z.lt_trichotomy a a') as [?|[->|?]]; [lia| |lia].
  destruct (Z.lt_trichotomy b b') as [?|[->|?]]; [lia| |lia].
  destruct (Z.lt_trichotomy c c') as [?|[->|?]]; [lia| |lia].
  right. now left.
Qed.

(** The order of the tuples is total: what is below [c] is below [b], or
    [b] is below [c]. *)
Lemma tuple_lt_cotrans (a b c : double * str) :
  tuple_lt a c -> tuple_lt a b \/ tuple_lt b c.
Proof.
  unfold tuple_lt. intros Hac.
  destruct (lt3_trichotomy (fkey (fst a)) (fkey (fst b))) as [L|[E|L]].
  - left. now left.
  - destruct Hac as [L|[E' Hs]].
    + right. left. now rewrite <- E.
    + destruct (String.compare (snd a) (snd b)) eqn:Eab.
      * apply String.compare_eq_iff in Eab. right. right.
        split; [congruence|now rewrite <- Eab].
      * left. right. now split.
      * right. right. split; [congruence|].
        apply (string_compare_trans _ (snd a)); [|exact Hs].
        rewrite String.compare_antisym, Eab. reflexivity.
  - right. left. destruct Hac as [L'|[E' _]].
    + now apply (lt3_trans _ (fkey (fst a))).
    + now rewrite <- E'.
Qed.

(** [max] returns an item of the list that no item of the list is above. *)
Lemma max_from_spec (l : list (double * str)) (best : double * str) :
  fst best <> S754_nan ->
  (forall y, In y l -> fst y <> S754_nan) ->
  In (difflib.max_from best l) (best :: l)
  /\ forall y, In y (best :: l) -> ~ tuple_lt (difflib.max_from best l) y.
Proof.
  revert best. induction l as [|t l IH]; intros best Hb Hl; cbn [difflib.max_from].
  - split; [now left|]. intros y [<-|[]]. apply tuple_lt_irrefl.
  - assert (Ht : fst t <> S754_nan) by (apply Hl; now left).
    assert (Hl' : forall y, In y l -> fst y <> S754_nan)
      by (intros y Hy; apply Hl; now right).
    pose proof (tuple_gt_spec t best Ht Hb) as Hgt.
    destruct (difflib.tuple_gt t best) eqn:E.
    + destruct (IH t Ht Hl') as [Hin Hmax]. split.
      * destruct Hin as [<-|Hin]; [right; now left|right; now right].
      * intros y [Ey|[Ey|Hy]]; subst.
        -- intros Hm. apply (Hmax t (or_introl eq_refl)).
           apply (tuple_lt_trans _ y); [exact Hm|]. now apply Hgt.
        -- apply Hmax. now left.
        -- apply Hmax. now right.
    + destruct (IH best Hb Hl') as [Hin Hmax]. split.
      * destruct Hin as [<-|Hin]; [now left|right; now right].
      * intros y [Ey|[Ey|Hy]]; subst.
        -- apply Hmax. now left.
        -- intros Hm. destruct (tuple_lt_cotrans _ best _ Hm) as [H|H].
           ++ now apply (Hmax best (or_introl eq_refl)).
           ++ apply Hgt in H. discriminate H.
        -- apply Hmax. now right.
Qed.

Lemma scored_In (word : str) (l : list str) (cutoff s : double) (x : str) :
  In (s, x) (difflib.scored word l cutoff)
  <-> In x l /\ difflib.good_enough word x cutoff = true /\ s = difflib.score word x.
Proof.
  induction l as [|y l IH]; cbn [difflib.scored In]; [tauto|].
  destruct (difflib.good_enough word y cutoff) eqn:E; cbn [In]; rewrite IH; split.
  - intros [[= <- <-]|(H1 & H2 & H3)]; [now repeat split; try left|].
    repeat split; [now right|assumption..].
  - intros ([<-|H1] & H2 & H3); [left; now rewrite H3|right; now repeat split].
  - intros (H1 & H2 & H3). repeat split; [now right|assumption..].
  - intros ([<-|H1] & H2 & H3); [congruence|now repeat split].
Qed.

Lemma good_enough_score_not_nan (word x : str) (cutoff : double) :
  difflib.good_enough word x cutoff = true -> difflib.score word x <> S754_nan.
Proof.
  unfold difflib.good_enough, difflib.score. rewrite !andb_true_iff.
  intros [_ H]. now apply SFleb_not_nan in H.
Qed.

Lemma dict_keys_get {V} (d : list (str * V)) (k : str) :
  In k (dict_keys d) -> exists v, dict_get String.eqb d k = Some v.
Proof.
  induction d as [|[k' v'] d IH]; cbn [dict_keys map In dict_get fst]; [contradiction|].
  intros [->|H].
  - rewrite String.eqb_refl. now exists v'.
  - destruct (String.eqb k' k); [now exists v'|now apply IH].
Qed.

(** ** The loop of [get_matching_blocks] ends within its fuel *)

Lemma j2lenget_bounds (d : list (Z * Z)) (B j : Z) :
  0 <= B -> vals_le d B -> 0 <= difflib.j2lenget d j <= B.
Proof.
  intros HB Hd. unfold difflib.j2lenget.
  induction Hd as [|[k v] d Hv _ IH]; cbn [dict_get]; [lia|].
  destruct (k =? j); [exact Hv|exact IH].
Qed.

Lemma vals_le_set (d : list (Z * Z)) (B k v : Z) :
  0 <= v <= B -> vals_le d B -> vals_le (dict_set Z.eqb d k v) B.
Proof.
  intros Hv Hd. induction Hd as [|[k' v'] d Hv' Hd IH]; cbn [dict_set].
  - constructor; [exact Hv|constructor].
  - destruct (k' =? k); constructor; assumption.
Qed.

Lemma inner_loop_ok (js : list Z) (alo i blo bhi : Z) (j2len newj2len : list (Z * Z))
    (best : difflib.best_t) :
  alo <= i -> vals_le j2len (i - alo) -> vals_le newj2len (i - alo + 1) ->
  best_ok alo (i + 1) best ->
  vals_le (fst (difflib.inner_loop js i blo bhi j2len newj2len best)) (i - alo + 1)
  /\ best_ok alo (i + 1) (snd (difflib.inner_loop js i blo bhi j2len newj2len best)).
Proof.
  intros Hi Hj. revert newj2len best.
  induction js as [|j js IH]; intros newj2len best Hn Hb; cbn [difflib.inner_loop].
  - now split.
  - destruct (j <? blo); [now apply IH|].
    destruct (bhi <=? j); [now split|].
    pose proof (j2lenget_bounds j2len (i - alo) (j - 1) ltac:(lia) Hj) as Hk.
    destruct best as [[besti bestj] bestsize].
    apply IH.
    + apply vals_le_set; [lia|exact Hn].
    + destruct (bestsize <? difflib.j2lenget j2len (j - 1) + 1); [|exact Hb].
      cbn [best_ok]. lia.
Qed.

Lemma outer_loop_ok (n : nat) (a : difflib.seq) (b2j : list (ascii * list Z))
    (alo i blo bhi : Z) (j2len : list (Z * Z)) (best : difflib.best_t) :
  alo <= i -> vals_le j2len (i - alo) -> best_ok alo i best ->
  best_ok alo (i + Z.of_nat n) (difflib.outer_loop n a b2j i blo bhi j2len best).
Proof.
  revert i j2len best. induction n as [|n IH]; intros i j2len best Hi Hj Hb.
  - cbn [difflib.outer_loop]. now rewrite Z.add_0_r.
  - cbn [difflib.outer_loop].
    set (js := match dict_get Ascii.eqb b2j (difflib.item a i) with
               | Some l => l
               | None => []
               end).
    assert (Hb' : best_ok alo (i + 1) best)
      by (destruct best as [[besti bestj] bestsize]; cbn [best_ok] in *; lia).
    destruct (inner_loop_ok js alo i blo bhi j2len [] best Hi Hj (Forall_nil _) Hb')
      as [Hn' Hb''].
    destruct (difflib.inner_loop js i blo bhi j2len [] best) as [newj2len best'].
    cbn [fst snd] in Hn', Hb''.
    replace (i + Z.of_nat (S n)) with (i + 1 + Z.of_nat n) by lia.
    apply IH; [lia| |exact Hb''].
    now replace (i + 1 - alo) with (i - alo + 1) by lia.
Qed.

Lemma extend_left_ok (fuel : nat) (junk : bool) (a b : difflib.seq)
    (alo blo hi : Z) (best : difflib.best_t) :
  best_ok alo hi best ->
  best_ok alo hi (difflib.extend_left fuel junk a b alo blo best).
Proof.
  revert best. induction fuel as [|fuel IH]; intros best Hb; [exact Hb|].
  cbn [difflib.extend_left]. destruct best as [[besti bestj] bestsize].
  destruct (alo <? besti) eqn:E; cbn [andb]; [|exact Hb].
  destruct (_ && _); [|exact Hb].
  apply IH. apply Z.ltb_lt in E. cbn [best_ok] in *. lia.
Qed.

Lemma extend_right_ok (fuel : nat) (junk : bool) (a b : difflib.seq)
    (alo ahi bhi : Z) (best : difflib.best_t) :
  best_ok alo ahi best ->
  best_ok alo ahi (difflib.extend_right fuel junk a b ahi bhi best).
Proof.
  revert best. induction fuel as [|fuel IH]; intros best Hb; [exact Hb|].
  cbn [difflib.extend_right]. destruct best as [[besti bestj] bestsize].
  destruct (besti + bestsize <? ahi) eqn:E; cbn [andb]; [|exact Hb].
  destruct (_ && _); [|exact Hb].
  apply IH. apply Z.ltb_lt in E. cbn [best_ok] in *. lia.
Qed.

(** The longest match of [a[alo:ahi]] lies in [a[alo:ahi]]. *)
Lemma find_longest_match_range (a b : difflib.seq) (b2j : list (ascii * list Z))
    (alo ahi blo bhi : Z) :
  alo <= ahi -> best_ok alo ahi (difflib.find_longest_match a b b2j alo ahi blo bhi).
Proof.
  intros H. unfold difflib.find_longest_match.
  apply extend_right_ok, extend_left_ok, extend_right_ok, extend_left_ok.
  pose proof (outer_loop_ok (Z.to_nat (ahi - alo)) a b2j alo alo blo bhi []
                (alo, blo, 0)) as Ho.
  replace (alo + Z.of_nat (Z.to_nat (ahi - alo))) with ahi in Ho by lia.
  apply Ho; [lia|constructor|cbn; lia].
Qed.

Lemma matching_loop_ends (fuel : nat) (a b : difflib.seq)
    (b2j : list (ascii * list Z)) (queue : list (Z * Z * Z * Z))
    (blocks : list difflib.Match) :
  queue_ok queue -> (queue_work queue < fuel)%nat ->
  exists r, difflib.matching_loop fuel a b b2j queue blocks = Some r.
Proof.
  revert queue blocks. induction fuel as [|fuel IH]; intros queue blocks Hq Hw; [lia|].
  cbn [difflib.matching_loop].
  destruct queue as [|[[[alo ahi] blo] bhi] queue0]; [now exists blocks|].
  inversion Hq as [|? ? Hr Hq0]; subst. cbn [queue_work fold_right] in Hw.
  fold (queue_work queue0) in Hw.
  pose proof (find_longest_match_range a b b2j alo ahi blo bhi Hr) as Hb.
  destruct (difflib.find_longest_match a b b2j alo ahi blo bhi) as [[i j] k].
  cbn [best_ok] in Hb.
  destruct (Z.eqb_spec k 0) as [->|Hk]; [apply IH; [exact Hq0|lia]|].
  apply IH.
  - destruct ((i + k <? ahi) && (j + k <? bhi)) eqn:E2;
      destruct ((alo <? i) && (blo <? j)) eqn:E1;
      rewrite ?andb_true_iff, ?Z.ltb_lt in *;
      repeat (constructor; [lia|]); exact Hq0.
  - destruct ((i + k <? ahi) && (j + k <? bhi)) eqn:E2;
      destruct ((alo <? i) && (blo <? j)) eqn:E1;
      rewrite ?andb_true_iff, ?Z.ltb_lt in *;
      cbn [queue_work fold_right]; fold (queue_work queue0); lia.
Qed.

(** [get_matching_blocks] never runs out of fuel. *)
Lemma get_matching_blocks_fuel (a b : difflib.seq) :
  exists r,
    difflib.matching_loop (difflib.blocks_fuel a) a b (difflib.chain_b b)
      [(0, difflib.len a, 0, difflib.len b)] [] = Some r.
Proof.
  apply matching_loop_ends.
  - constructor; [unfold difflib.len; lia|constructor].
  - cbn [queue_work fold_right]. unfold difflib.blocks_fuel, difflib.len. lia.
Qed.

(** ** The cutoff of [get_close_matches] is a cutoff on [ratio]

    [get_close_matches] keeps a key when [real_quick_ratio], [quick_ratio]
    and [ratio] are all at or above the cutoff.  The first two are upper
    bounds of the third, so that for the keys of the catalogue the test is
    [ratio >= 0.6].  The bounds are on the counts of matches; that the
    floats follow the counts is by the definition of the division for long
    queries and by evaluation for the others. *)

(** *** The number of binary digits *)

Lemma digits2_pos_bounds (p : positive) :
  2 ^ (Zpos (digits2_pos p) - 1) <= Zpos p < 2 ^ Zpos (digits2_pos p).
Proof.
  induction p as [p IH|p IH|]; cbn [digits2_pos].
  - rewrite Pos2Z.inj_succ.
    replace (Z.succ (Z.pos (digits2_pos p)) - 1) with (Z.succ (Z.pos (digits2_pos p) - 1)) by lia.
    rewrite !Z.pow_succ_r by lia. lia.
  - rewrite Pos2Z.inj_succ.
    replace (Z.succ (Z.pos (digits2_pos p)) - 1) with (Z.succ (Z.pos (digits2_pos p) - 1)) by lia.
    rewrite !Z.pow_succ_r by lia. lia.
  - cbn. lia.
Qed.

Lemma Zdigits2_nonneg (m : Z) : 0 <= Zdigits2 m.
Proof. destruct m; cbn; lia. Qed.

Lemma Zdigits2_upper (m k : Z) : 0 <= m < 2 ^ k -> 0 <= k -> Zdigits2 m <= k.
Proof.
  intros [H0 H] Hk. destruct m as [|p|p]; cbn [Zdigits2]; [lia| |lia].
  pose proof (digits2_pos_bounds p) as [Hl _].
  destruct (Z_le_gt_dec (Zpos (digits2_pos p)) k) as [|Hgt]; [assumption|].
  exfalso. assert (2 ^ k <= 2 ^ (Zpos (digits2_pos p) - 1))
    by (apply Z.pow_le_mono_r; lia). lia.
Qed.

Lemma Zdigits2_lower (m k : Z) : 2 ^ k <= m -> 0 <= k -> k + 1 <= Zdigits2 m.
Proof.
  intros H Hk. assert (0 < 2 ^ k) by (apply Z.pow_pos_nonneg; lia).
  destruct m as [|p|p]; cbn [Zdigits2]; [lia| |lia].
  pose proof (digits2_pos_bounds p) as [_ Hu].
  destruct (Z_le_gt_dec (k + 1) (Zpos (digits2_pos p))) as [|Hgt]; [assumption|].
  exfalso. assert (2 ^ Zpos (digits2_pos p) <= 2 ^ k)
    by (apply Z.pow_le_mono_r; lia). lia.
Qed.

Lemma Zdigits2_bounds (m : Z) :
  0 < m -> 2 ^ (Zdigits2 m - 1) <= m < 2 ^ Zdigits2 m.
Proof.
  destruct m as [|p|p]; try lia. intros _. apply digits2_pos_bounds.
Qed.

Lemma Zdigits2_mono (m n : Z) : 0 <= m <= n -> Zdigits2 m <= Zdigits2 n.
Proof.
  intros [H0 H]. destruct (Z.eq_dec m 0) as [->|Hm]; [apply Zdigits2_nonneg|].
  apply Zdigits2_upper; [|apply Zdigits2_nonneg].
  pose proof (Zdigits2_bounds n ltac:(lia)). lia.
Qed.

Lemma shr_1_m (r : shr_record) :
  0 <= shr_m r -> shr_m (shr_1 r) = shr_m r / 2.
Proof.
  destruct r as [m r s]. cbn [shr_m shr_1].
  destruct m as [|[p|p|]|p]; intros H; cbn [shr_m]; try lia.
  - reflexivity.
  - apply (Z.div_unique _ _ _ 1); lia.
  - apply (Z.div_unique _ _ _ 0); lia.
  - reflexivity.
Qed.

Lemma iter_pos_shr_1_m (p : positive) (r : shr_record) :
  0 <= shr_m r -> shr_m (iter_pos shr_1 p r) = shr_m r / 2 ^ Zpos p.
Proof.
  revert r. induction p as [p IH|p IH|]; intros r H; cbn [iter_pos].
  - assert (H1 : 0 <= shr_m (shr_1 r)) by (rewrite shr_1_m by lia; apply Z.div_pos; lia).
    assert (H2 : 0 <= shr_m (iter_pos shr_1 p (shr_1 r)))
      by (rewrite IH by lia; apply Z.div_pos; [lia|apply Z.pow_pos_nonneg; lia]).
    rewrite IH, IH, shr_1_m by lia.
    assert (0 < 2 ^ Z.pos p) by (apply Z.pow_pos_nonneg; lia).
    rewrite !Z.div_div by lia.
    replace (Z.pos p~1) with (1 + Z.pos p + Z.pos p) by lia.
    rewrite !Z.pow_add_r by lia. f_equal. change (2 ^ 1) with 2. lia.
  - assert (H2 : 0 <= shr_m (iter_pos shr_1 p r))
      by (rewrite IH by lia; apply Z.div_pos; [lia|apply Z.pow_pos_nonneg; lia]).
    rewrite IH, IH by lia.
    assert (0 < 2 ^ Z.pos p) by (apply Z.pow_pos_nonneg; lia).
    rewrite !Z.div_div by lia.
    replace (Z.pos p~0) with (Z.pos p + Z.pos p) by lia.
    rewrite !Z.pow_add_r by lia. f_equal.
  - rewrite shr_1_m by lia. reflexivity.
Qed.

(** The mantissa and the exponent after [shr]: a division by [2 ^ n] for
    [n > 0], and nothing for [n <= 0]. *)
Lemma shr_spec (r : shr_record) (e n : Z) :
  0 <= shr_m r ->
  shr_m (fst (shr r e n)) = shr_m r / 2 ^ Z.max n 0
  /\ snd (shr r e n) = e + Z.max n 0.
Proof.
  intros H. destruct n as [|p|p]; cbn [shr fst snd].
  - rewrite Z.max_r by lia. cbn. rewrite Z.div_1_r. lia.
  - rewrite Z.max_l by lia. split; [now apply iter_pos_shr_1_m|reflexivity].
  - rewrite Z.max_r by lia. cbn. rewrite Z.div_1_r. lia.
Qed.

Lemma shr_record_of_loc_m (m : Z) (l : location) : shr_m (shr_record_of_loc m l) = m.
Proof. destruct l as [|[]]; reflexivity. Qed.

Lemma round_nearest_even_bounds (m : Z) (l : location) :
  m <= round_nearest_even m l <= m + 1.
Proof.
  destruct l as [|[]]; cbn [round_nearest_even]; try lia.
  destruct (Z.even m); lia.
Qed.

Lemma Zdigits2_succ (m : Z) : 0 <= m -> Zdigits2 (m + 1) <= Zdigits2 m + 1.
Proof.
  intros H. pose proof (Zdigits2_nonneg m).
  apply Zdigits2_upper; [|lia].
  destruct (Z.eq_dec m 0) as [->|Hm]; [cbn; lia|].
  pose proof (Zdigits2_bounds m ltac:(lia)) as [_ Hu].
  rewrite Z.pow_add_r by lia. change (2 ^ 1) with 2. lia.
Qed.

Lemma Zdigits2_div_pow (m k : Z) :
  0 <= m -> 0 <= k -> Zdigits2 (m / 2 ^ k) <= Z.max (Zdigits2 m - k) 0.
Proof.
  intros Hm Hk. pose proof (Zdigits2_nonneg m).
  assert (0 < 2 ^ k) by (apply Z.pow_pos_nonneg; lia).
  apply Zdigits2_upper; [|lia]. split; [apply Z.div_pos; lia|].
  destruct (Z.eq_dec m 0) as [->|Hm0].
  { rewrite Z.div_0_l by lia. apply Z.pow_pos_nonneg; lia. }
  pose proof (Zdigits2_bounds m ltac:(lia)) as [_ Hu].
  apply Z.div_lt_upper_bound; [lia|].
  rewrite <- Z.pow_add_r by lia.
  eapply Z.lt_le_trans; [exact Hu|]. apply Z.pow_le_mono_r; lia.
Qed.

Lemma Zdigits2_div_pow_lower (m k : Z) :
  0 < m -> 0 <= k < Zdigits2 m ->
  Zdigits2 m - k <= Zdigits2 (m / 2 ^ k) /\ 0 < m / 2 ^ k.
Proof.
  intros Hm Hk.
  assert (0 < 2 ^ k) by (apply Z.pow_pos_nonneg; lia).
  pose proof (Zdigits2_bounds m Hm) as [Hl _].
  assert (Hq : 2 ^ (Zdigits2 m - 1 - k) <= m / 2 ^ k).
  { apply Z.div_le_lower_bound; [lia|].
    rewrite <- Z.pow_add_r by lia.
    replace (k + (Zdigits2 m - 1 - k)) with (Zdigits2 m - 1) by lia. exact Hl. }
  assert (0 < 2 ^ (Zdigits2 m - 1 - k)) by (apply Z.pow_pos_nonneg; lia).
  split; [|lia].
  pose proof (Zdigits2_lower _ _ Hq ltac:(lia)). lia.
Qed.

Lemma Zdigits2_div (a b : Z) :
  0 <= a -> 0 < b -> Zdigits2 (a / b) <= Z.max (Zdigits2 a - Zdigits2 b + 1) 0.
Proof.
  intros Ha Hb. pose proof (Zdigits2_nonneg a).
  apply Zdigits2_upper; [|lia]. split; [apply Z.div_pos; lia|].
  pose proof (Zdigits2_bounds b Hb) as [Hl _].
  pose proof (Zdigits2_lower b 0 ltac:(cbn; lia) ltac:(lia)) as Hb1.
  remember (Z.max (Zdigits2 a - Zdigits2 b + 1) 0) as K eqn:EK.
  assert (0 < 2 ^ K) by (apply Z.pow_pos_nonneg; lia).
  destruct (Z.eq_dec a 0) as [->|Ha0]; [rewrite Z.div_0_l by lia; lia|].
  pose proof (Zdigits2_bounds a ltac:(lia)) as [_ Hu].
  apply Z.div_lt_upper_bound; [lia|].
  assert (2 ^ Zdigits2 a <= 2 ^ (Zdigits2 b - 1) * 2 ^ K).
  { rewrite <- Z.pow_add_r by lia. apply Z.pow_le_mono_r; lia. }
  nia.
Qed.

(** The result of [binary_round_aux] on a small value: zero, or a float of
    exponent -54 at most. *)
Lemma binary_round_aux_small (sx : bool) (mx ex : Z) (lx : location) :
  0 <= mx -> Zdigits2 mx + ex <= -2 -> ex <= -54 ->
  binary_round_aux prec emax sx mx ex lx = S754_zero sx
  \/ exists m e,
       binary_round_aux prec emax sx mx ex lx = S754_finite sx m e /\ e <= -54.
Proof.
  intros Hm Hd He. unfold binary_round_aux, shr_fexp.
  set (n1 := fexp prec emax (Zdigits2 mx + ex) - ex).
  pose proof (shr_spec (shr_record_of_loc mx lx) ex n1) as H1.
  rewrite shr_record_of_loc_m in H1. specialize (H1 Hm).
  destruct (shr (shr_record_of_loc mx lx) ex n1) as [mrs' e'].
  cbn [fst snd] in H1. destruct H1 as [Hm1 He1].
  set (m2 := round_nearest_even (shr_m mrs') (loc_of_shr_record mrs')).
  pose proof (round_nearest_even_bounds (shr_m mrs') (loc_of_shr_record mrs')) as Hr.
  fold m2 in Hr.
  assert (Hk1 : 0 <= Z.max n1 0) by lia.
  assert (Hm1' : 0 <= shr_m mrs')
    by (rewrite Hm1; apply Z.div_pos; [lia|apply Z.pow_pos_nonneg; lia]).
  pose proof (Zdigits2_div_pow mx (Z.max n1 0) Hm Hk1) as Hd1. rewrite <- Hm1 in Hd1.
  pose proof (Zdigits2_mono m2 (shr_m mrs' + 1) ltac:(lia)) as Hd2.
  pose proof (Zdigits2_succ (shr_m mrs') Hm1') as Hd3.
  set (n2 := fexp prec emax (Zdigits2 m2 + e') - e').
  pose proof (shr_spec (shr_record_of_loc m2 loc_Exact) e' n2) as H2.
  rewrite shr_record_of_loc_m in H2. specialize (H2 ltac:(lia)).
  destruct (shr (shr_record_of_loc m2 loc_Exact) e' n2) as [mrs'' e''].
  cbn [fst snd] in H2. destruct H2 as [Hm3 He3].
  assert (Hm3' : 0 <= shr_m mrs'')
    by (rewrite Hm3; apply Z.div_pos; [lia|apply Z.pow_pos_nonneg; lia]).
  assert (He'' : e'' <= -54).
  { subst n1 n2. unfold fexp, emin, prec, emax in *. lia. }
  destruct (shr_m mrs'') as [|m|m]; [now left| |lia].
  right. exists m, e''. split; [|exact He''].
  unfold prec, emax. destruct (Z.leb_spec e'' (1024 - 53)); [reflexivity|lia].
Qed.

(** The result of [binary_round_aux] on a value above the subnormal range:
    a float that is not smaller in magnitude, or infinity. *)
Lemma binary_round_aux_lower (sx : bool) (mx ex : Z) (lx : location) :
  0 < mx -> -1074 < Zdigits2 mx + ex ->
  binary_round_aux prec emax sx mx ex lx = S754_infinity sx
  \/ exists m e,
       binary_round_aux prec emax sx mx ex lx = S754_finite sx m e
       /\ Zdigits2 mx + ex <= Zdigits2 (Zpos m) + e.
Proof.
  intros Hm Hd. unfold binary_round_aux, shr_fexp.
  set (n1 := fexp prec emax (Zdigits2 mx + ex) - ex).
  pose proof (shr_spec (shr_record_of_loc mx lx) ex n1) as H1.
  rewrite shr_record_of_loc_m in H1. specialize (H1 ltac:(lia)).
  destruct (shr (shr_record_of_loc mx lx) ex n1) as [mrs' e'].
  cbn [fst snd] in H1. destruct H1 as [Hm1 He1].
  pose proof (Zdigits2_lower mx 0 ltac:(cbn; lia) ltac:(lia)) as Hx1.
  assert (Hk1 : 0 <= Z.max n1 0 < Zdigits2 mx)
    by (subst n1; unfold fexp, emin, prec, emax; lia).
  pose proof (Zdigits2_div_pow_lower mx (Z.max n1 0) Hm Hk1) as [Hd1 Hp1].
  rewrite <- Hm1 in Hd1, Hp1.
  set (m2 := round_nearest_even (shr_m mrs') (loc_of_shr_record mrs')).
  pose proof (round_nearest_even_bounds (shr_m mrs') (loc_of_shr_record mrs')) as Hr.
  fold m2 in Hr.
  pose proof (Zdigits2_mono (shr_m mrs') m2 ltac:(lia)) as Hd2.
  set (n2 := fexp prec emax (Zdigits2 m2 + e') - e').
  pose proof (shr_spec (shr_record_of_loc m2 loc_Exact) e' n2) as H2.
  rewrite shr_record_of_loc_m in H2. specialize (H2 ltac:(lia)).
  destruct (shr (shr_record_of_loc m2 loc_Exact) e' n2) as [mrs'' e''].
  cbn [fst snd] in H2. destruct H2 as [Hm3 He3].
  pose proof (Zdigits2_lower m2 0 ltac:(cbn; lia) ltac:(lia)) as Hx2.
  assert (Hk2 : 0 <= Z.max n2 0 < Zdigits2 m2)
    by (subst n1 n2; unfold fexp, emin, prec, emax in *; lia).
  pose proof (Zdigits2_div_pow_lower m2 (Z.max n2 0) ltac:(lia) Hk2) as [Hd3 Hp3].
  rewrite <- Hm3 in Hd3, Hp3.
  destruct (shr_m mrs'') as [|m|m]; [lia| |lia].
  destruct (e'' <=? emax - prec); [|now left].
  right. exists m, e''. split; [reflexivity|]. lia.
Qed.

Lemma digits2_pos_iter_xO (p d : positive) :
  Zpos (digits2_pos (Pos.iter xO p d)) = Zpos (digits2_pos p) + Zpos d.
Proof.
  induction d as [|d IH] using Pos.peano_ind.
  - cbn [Pos.iter digits2_pos]. lia.
  - rewrite Pos.iter_succ. cbn [digits2_pos]. lia.
Qed.

(** A large int converts to a float of at least its magnitude, or to
    infinity. *)
Lemma Z2F_large (L : Z) :
  256 <= L ->
  Z2F L = S754_infinity false
  \/ exists m e, Z2F L = S754_finite false m e /\ 9 <= Zdigits2 (Zpos m) + e.
Proof.
  intros HL. destruct L as [|p|p]; try lia.
  pose proof (Zdigits2_lower (Zpos p) 8 ltac:(cbn; lia) ltac:(lia)) as Hd.
  cbn [Zdigits2] in Hd.
  unfold Z2F, binary_normalize, binary_round, shl_align.
  set (ex' := fexp prec emax (Z.pos (digits2_pos p) + 0)).
  destruct (ex' - 0) as [|d|d] eqn:Ed.
  - destruct (binary_round_aux_lower false (Zpos p) 0 loc_Exact) as [H|(m & e & H & Hm)];
      [lia|cbn [Zdigits2]; lia|now left|].
    right. exists m, e. split; [exact H|]. cbn [Zdigits2] in Hm |- *. lia.
  - destruct (binary_round_aux_lower false (Zpos p) 0 loc_Exact) as [H|(m & e & H & Hm)];
      [lia|cbn [Zdigits2]; lia|now left|].
    right. exists m, e. split; [exact H|]. cbn [Zdigits2] in Hm |- *. lia.
  - pose proof (digits2_pos_iter_xO p d) as Hi.
    destruct (binary_round_aux_lower false (Zpos (Pos.iter xO p d)) ex' loc_Exact)
      as [H|(m & e & H & Hm)]; [lia|cbn [Zdigits2]; lia|now left|].
    right. exists m, e. split; [exact H|]. cbn [Zdigits2] in Hm |- *. lia.
Qed.

Lemma SFdiv_core_binary_bounds (mx my : positive) (ex ey : Z) :
  let D := Zpos (digits2_pos mx) + ex - (Zpos (digits2_pos my) + ey) in
  let '(q, e', _) := SFdiv_core_binary prec emax (Zpos mx) ex (Zpos my) ey in
  0 <= q /\ Zdigits2 q + e' <= Z.max (D + 1) e' /\ e' <= fexp prec emax D.
Proof.
  intros D. unfold SFdiv_core_binary. cbn [Zdigits2]. fold D.
  set (e' := Z.min (fexp prec emax D) (ex - ey)).
  set (s := ex - ey - e').
  assert (Hs : 0 <= s) by (subst s e'; lia).
  set (m' := match s with
             | 0 => Z.pos mx
             | Z.pos _ => Z.shiftl (Z.pos mx) s
             | Z.neg _ => 0
             end).
  assert (Hm' : m' = Zpos mx * 2 ^ s).
  { subst m'. destruct s as [|s'|s'] eqn:Es; [cbn; lia| |lia].
    now rewrite Z.shiftl_mul_pow2 by lia. }
  assert (H2s : 0 < 2 ^ s) by (apply Z.pow_pos_nonneg; lia).
  assert (Hdm' : Zdigits2 m' <= Zpos (digits2_pos mx) + s).
  { apply Zdigits2_upper; [|lia]. rewrite Hm'.
    pose proof (digits2_pos_bounds mx) as [_ Hu].
    rewrite Z.pow_add_r by lia. nia. }
  pose proof (Zdigits2_div m' (Zpos my) ltac:(nia) ltac:(lia)) as Hq.
  cbn [Zdigits2] in Hq.
  assert (Hdiv : Z.div_eucl m' (Zpos my) = (m' / Zpos my, m' mod Zpos my)).
  { unfold Z.div, Z.modulo. now destruct (Z.div_eucl m' (Z.pos my)). }
  rewrite Hdiv. split; [apply Z.div_pos; nia|]. split; [|subst e'; lia].
  subst s. lia.
Qed.

Lemma small_numerators (m : Z) : 0 <= m <= 20 -> small_numerator m = true.
Proof.
  intros H. apply (all_from_spec small_numerator 21 0); [|lia].
  vm_compute. reflexivity.
Qed.

Lemma SFleb_CUTOFF_small (m : positive) (e : Z) :
  e <= -54 -> SFleb CUTOFF (S754_finite false m e) = false.
Proof.
  intros H. unfold SFleb, SFcompare, CUTOFF.
  destruct (Z.compare_spec (-53) e); first [lia|reflexivity].
Qed.

(** Far from the cutoff: with at most 20 matches and a total length of 256
    or more, the ratio is below 0.6. *)
Lemma ratio_far (m L : Z) :
  0 <= m <= 20 -> 256 <= L ->
  SFleb CUTOFF (difflib._calculate_ratio m L) = false.
Proof.
  intros Hm HL. unfold difflib._calculate_ratio.
  destruct (Z.eqb_spec L 0); [lia|].
  pose proof (small_numerators m Hm) as Hx. unfold small_numerator in Hx.
  unfold fdiv.
  destruct (fmul (Z2F 2) (Z2F m)) as [[]| | |[] mx ex]; try discriminate.
  - destruct (Z2F_large L HL) as [-> | (my & ey & -> & _)]; reflexivity.
  - apply Z.leb_le in Hx.
    destruct (Z2F_large L HL) as [-> | (my & ey & -> & Hy)]; [reflexivity|].
    cbn [SFdiv Zdigits2] in *.
    pose proof (SFdiv_core_binary_bounds mx my ex ey) as Hc. cbv zeta in Hc.
    destruct (SFdiv_core_binary prec emax (Z.pos mx) ex (Z.pos my) ey) as [[q e'] l].
    destruct Hc as (Hq & Hd & He).
    assert (He' : e' <= -56) by (unfold fexp, emin, prec, emax in He; lia).
    destruct (binary_round_aux_small (xorb false false) q e' l Hq) as [-> | (r & e & -> & Hr)];
      [lia|lia|reflexivity|].
    now apply SFleb_CUTOFF_small.
Qed.

Lemma ratio_steps_near (L : Z) : 0 <= L < 256 -> ratio_steps L = true.
Proof.
  intros H. apply (all_from_spec ratio_steps 256 0); [|lia].
  vm_compute. reflexivity.
Qed.

Lemma ratio_near (L m m' : Z) :
  0 <= L < 256 -> 0 <= m <= m' -> m' <= 20 ->
  SFleb CUTOFF (difflib._calculate_ratio m L) = true ->
  SFleb CUTOFF (difflib._calculate_ratio m' L) = true.
Proof.
  intros HL Hm Hm' H.
  pose proof (ratio_steps_near L HL) as Hs. unfold ratio_steps in Hs.
  assert (G : forall n : nat,
             m + Z.of_nat n <= 20 ->
             SFleb CUTOFF (difflib._calculate_ratio (m + Z.of_nat n) L) = true).
  { induction n as [|n IH]; intros Hn.
    - now rewrite Z.add_0_r.
    - pose proof (all_from_spec _ _ _ Hs (m + Z.of_nat n) ltac:(lia)) as Hstep.
      unfold ratio_step in Hstep. rewrite IH in Hstep by lia. cbn [implb] in Hstep.
      now replace (m + Z.of_nat (S n)) with (m + Z.of_nat n + 1) by lia. }
  specialize (G (Z.to_nat (m' - m))).
  replace (m + Z.of_nat (Z.to_nat (m' - m))) with m' in G by lia. apply G. lia.
Qed.

(** *** What is common to two sequences *)

Lemma count_nonneg (c : ascii) (s : list ascii) : 0 <= count c s.
Proof.
  induction s as [|x s IH]; cbn [count]; [lia|]. destruct (Ascii.eqb x c); lia.
Qed.

Lemma count_app (c : ascii) (s t : list ascii) :
  count c (s ++ t) = count c s + count c t.
Proof.
  induction s as [|x s IH]; cbn [count app]; [reflexivity|]. rewrite IH. lia.
Qed.

Lemma sumf_add (f g : ascii -> Z) (l : list ascii) :
  sumf (fun c => f c + g c) l = sumf f l + sumf g l.
Proof.
  induction l as [|x l IH]; cbn [sumf fold_right]; [reflexivity|].
  fold (sumf (fun c => f c + g c) l) (sumf f l) (sumf g l). lia.
Qed.

Lemma sumf_le (f g : ascii -> Z) (l : list ascii) :
  (forall c, f c <= g c) -> sumf f l <= sumf g l.
Proof.
  intros H. induction l as [|x l IH]; cbn [sumf fold_right]; [lia|].
  fold (sumf f l) (sumf g l). specialize (H x). lia.
Qed.

Lemma sumf_ext (f g : ascii -> Z) (l : list ascii) :
  (forall c, f c = g c) -> sumf f l = sumf g l.
Proof.
  intros H. apply Z.le_antisymm; apply sumf_le; intros c; rewrite H; lia.
Qed.

Lemma sumf_zero (l : list ascii) : sumf (fun _ => 0) l = 0.
Proof.
  induction l as [|x l IH]; cbn [sumf fold_right]; [reflexivity|].
  fold (sumf (fun _ => 0) l). lia.
Qed.

Lemma sumf_at_out (x : ascii) (v : Z) (l : list ascii) :
  ~ In x l -> sumf (fun c => if Ascii.eqb x c then v else 0) l = 0.
Proof.
  induction l as [|y l IH]; cbn [sumf fold_right In]; [reflexivity|].
  fold (sumf (fun c => if Ascii.eqb x c then v else 0) l). intros H.
  destruct (Ascii.eqb_spec x y) as [->|_]; [exfalso; apply H; now left|].
  rewrite IH; [lia|]. intros Hin. apply H. now right.
Qed.

(** The sum of a function that is [v] at [x] and 0 elsewhere. *)
Lemma sumf_at (x : ascii) (v : Z) (l : list ascii) :
  NoDup l -> In x l -> sumf (fun c => if Ascii.eqb x c then v else 0) l = v.
Proof.
  intros Hnd. induction Hnd as [|y l Hy Hnd IH]; [contradiction|].
  cbn [sumf fold_right]. fold (sumf (fun c => if Ascii.eqb x c then v else 0) l).
  intros [->|Hin].
  - rewrite Ascii.eqb_refl, (sumf_at_out _ _ _ Hy). lia.
  - destruct (Ascii.eqb_spec x y) as [->|_]; [contradiction|]. rewrite (IH Hin). lia.
Qed.

Lemma all_ascii_In (c : ascii) : In c all_ascii.
Proof.
  unfold all_ascii. rewrite <- (ascii_nat_embedding c). apply in_map.
  apply in_seq. pose proof (nat_ascii_bounded c). lia.
Qed.

Lemma all_ascii_NoDup : NoDup all_ascii.
Proof.
  apply (NoDup_map_inv nat_of_ascii).
  replace (map nat_of_ascii all_ascii) with (List.seq 0 256)
    by (vm_compute; reflexivity).
  apply seq_NoDup.
Qed.

Lemma sumf_count (s : list ascii) :
  sumf (fun c => count c s) all_ascii = Z.of_nat (List.length s).
Proof.
  induction s as [|x s IH]; cbn [count List.length].
  - apply sumf_zero.
  - rewrite sumf_add, IH.
    rewrite (sumf_at x 1 all_ascii all_ascii_NoDup (all_ascii_In x)). lia.
Qed.

Lemma common_nonneg (a b : list ascii) : 0 <= common a b.
Proof.
  unfold common. rewrite <- (sumf_zero all_ascii). apply sumf_le. intros c.
  pose proof (count_nonneg c a). pose proof (count_nonneg c b). lia.
Qed.

Lemma common_le_l (a b : list ascii) : common a b <= Z.of_nat (List.length a).
Proof.
  rewrite <- sumf_count. apply sumf_le. intros c. lia.
Qed.

Lemma common_le_r (a b : list ascii) : common a b <= Z.of_nat (List.length b).
Proof.
  rewrite <- sumf_count. apply sumf_le. intros c. lia.
Qed.

(** A run that the two sequences share counts in full, and what is common
    before it and after it adds to it. *)
Lemma common_split (x1 x2 y1 y2 m : list ascii) :
  common x1 y1 + Z.of_nat (List.length m) + common x2 y2
  <= common (x1 ++ m ++ x2) (y1 ++ m ++ y2).
Proof.
  unfold common. rewrite <- (sumf_count m), <- !sumf_add.
  apply sumf_le. intros c. rewrite !count_app. lia.
Qed.

(** *** [quick_ratio] counts what is common *)

Section DictFacts.
Context {K V : Type} (eqb : K -> K -> bool).
Hypothesis eqb_spec : forall x y, eqb x y = true <-> x = y.

Lemma dict_get_set (d : list (K * V)) (k k' : K) (v : V) :
  dict_get eqb (dict_set eqb d k v) k'
  = if eqb k k' then Some v else dict_get eqb d k'.
Proof.
  induction d as [|[k0 v0] d IH]; cbn [dict_set dict_get].
  - now destruct (eqb k k').
  - destruct (eqb k0 k) eqn:E; cbn [dict_get].
    + apply eqb_spec in E. subst k0. now destruct (eqb k k').
    + rewrite IH. destruct (eqb k0 k') eqn:E'; [|reflexivity].
      apply eqb_spec in E'. subst k0.
      destruct (eqb k k') eqn:E2; [|reflexivity].
      apply eqb_spec in E2. subst k.
      assert (E3 : eqb k' k' = true) by now apply eqb_spec. congruence.
Qed.

Lemma dict_get_entry (d : list (K * V)) (k : K) (v : V) :
  dict_get eqb d k = Some v -> In (k, v) d.
Proof.
  induction d as [|[k0 v0] d IH]; cbn [dict_get]; [discriminate|].
  destruct (eqb k0 k) eqn:E.
  - intros [= ->]. apply eqb_spec in E. subst. now left.
  - intros H. right. now apply IH.
Qed.

Lemma dict_set_entry (d : list (K * V)) (k k' : K) (v v' : V) :
  In (k', v') (dict_set eqb d k v) -> (k' = k /\ v' = v) \/ In (k', v') d.
Proof.
  induction d as [|[k0 v0] d IH]; cbn [dict_set].
  - intros [[= <- <-]|[]]. now left.
  - destruct (eqb k0 k) eqn:E.
    + apply eqb_spec in E. subst k0.
      intros [[= <- <-]|H]; [now left|right; now right].
    + intros [H|H]; [right; now left|].
      destruct (IH H) as [?|?]; [now left|right; now right].
Qed.
End DictFacts.

Lemma fullbcount_get (b : list ascii) (d : list (ascii * Z)) (c : ascii) :
  getd (difflib.fullbcount b d) c = getd d c + count c b.
Proof.
  revert d. induction b as [|x b IH]; intros d; cbn [difflib.fullbcount count]; [lia|].
  rewrite IH. unfold getd at 1. rewrite (dict_get_set _ Ascii.eqb_eq).
  fold (getd d x). destruct (Ascii.eqb_spec x c) as [->|_]; [lia|].
  fold (getd d c). lia.
Qed.

Lemma quick_loop_spec (a : list ascii) (fullb avail : list (ascii * Z)) (m : Z) :
  difflib.quick_loop a fullb avail m
  = m + sumf (fun c => Z.min (count c a) (Z.max (numb fullb avail c) 0)) all_ascii.
Proof.
  revert avail m. induction a as [|x a IH]; intros avail m; cbn [difflib.quick_loop].
  - rewrite (sumf_ext _ (fun _ => 0)), sumf_zero; [lia|].
    intros c. cbn [count]. lia.
  - fold (getd fullb x). fold (numb fullb avail x).
    rewrite IH.
    set (d := if 0 <? numb fullb avail x then 1 else 0).
    replace (if 0 <? numb fullb avail x then m + 1 else m) with (m + d)
      by (subst d; destruct (0 <? numb fullb avail x); lia).
    rewrite <- Z.add_assoc. f_equal.
    rewrite <- (sumf_at x d all_ascii all_ascii_NoDup (all_ascii_In x)) at 1.
    rewrite <- sumf_add. apply sumf_ext. intros c.
    unfold numb at 1. rewrite (dict_get_set _ Ascii.eqb_eq). fold (numb fullb avail c).
    cbn [count]. pose proof (count_nonneg c a). subst d.
    destruct (Ascii.eqb_spec x c) as [->|_]; [|fold (numb fullb avail c); lia].
    destruct (Z.ltb_spec 0 (numb fullb avail c)); lia.
Qed.

Lemma quick_loop_common (a b : list ascii) :
  difflib.quick_loop a (difflib.fullbcount b []) [] 0 = common a b.
Proof.
  rewrite quick_loop_spec. unfold common. rewrite Z.add_0_l.
  apply sumf_ext. intros c. unfold numb. cbn [dict_get].
  rewrite fullbcount_get. unfold getd at 1. cbn [dict_get].
  pose proof (count_nonneg c b). lia.
Qed.

(** *** The blocks of [find_longest_match] are common runs *)

Lemma block_in_wider (a b : difflib.seq) (alo ahi ahi' blo bhi : Z) (m : difflib.Match) :
  ahi <= ahi' -> block_in a b alo ahi blo bhi m -> block_in a b alo ahi' blo bhi m.
Proof.
  destruct m as [[i j] k]. unfold block_in. intuition lia.
Qed.

Lemma inner_loop_sound (a b : difflib.seq) (js : list Z) (alo ahi i blo bhi : Z)
    (j2len newj2len : list (Z * Z)) (best : difflib.best_t) :
  alo <= i < ahi ->
  (forall j, In j js -> difflib.item b j = difflib.item a i) ->
  j2len_sound a b alo blo bhi (i - 1) j2len ->
  j2len_sound a b alo blo bhi i newj2len ->
  block_in a b alo ahi blo bhi best ->
  j2len_sound a b alo blo bhi i
    (fst (difflib.inner_loop js i blo bhi j2len newj2len best))
  /\ block_in a b alo ahi blo bhi
       (snd (difflib.inner_loop js i blo bhi j2len newj2len best)).
Proof.
  intros Hi Hjs Hj. revert newj2len best.
  induction js as [|j js IH]; intros newj2len best Hn Hb; cbn [difflib.inner_loop].
  - now split.
  - assert (Hjs' : forall j', In j' js -> difflib.item b j' = difflib.item a i)
      by (intros j' Hj'; apply Hjs; now right).
    destruct (Z.ltb_spec j blo) as [|Hlo]; [now apply IH|].
    destruct (Z.leb_spec bhi j) as [|Hhi]; [now split|].
    set (k := difflib.j2lenget j2len (j - 1) + 1).
    assert (Hk : 1 <= k /\ alo <= i - k + 1 /\ blo <= j - k + 1
                 /\ same_run a b (i - k + 1) (j - k + 1) k).
    { subst k. unfold difflib.j2lenget.
      destruct (dict_get Z.eqb j2len (j - 1)) as [k0|] eqn:Eg.
      - apply (dict_get_entry _ Z.eqb_eq) in Eg.
        destruct (Hj _ _ Eg) as (H1 & H2 & H3 & _ & H5).
        repeat split; try lia.
        intros t Ht. destruct (Z.eq_dec t k0) as [->|Hne].
        + replace (i - (k0 + 1) + 1 + k0) with i by lia.
          replace (j - (k0 + 1) + 1 + k0) with j by lia.
          symmetry. apply Hjs. now left.
        + specialize (H5 t ltac:(lia)).
          replace (i - 1 - k0 + 1 + t) with (i - (k0 + 1) + 1 + t) in H5 by lia.
          replace (j - 1 - k0 + 1 + t) with (j - (k0 + 1) + 1 + t) in H5 by lia.
          exact H5.
      - repeat split; try lia.
        intros t Ht. replace t with 0 by lia.
        replace (i - (0 + 1) + 1 + 0) with i by lia.
        replace (j - (0 + 1) + 1 + 0) with j by lia.
        symmetry. apply Hjs. now left. }
    destruct Hk as (Hk1 & Hk2 & Hk3 & Hk4).
    destruct best as [[besti bestj] bestsize].
    apply IH; [exact Hjs'| |].
    + intros j' k' Hin.
      apply (dict_set_entry _ Z.eqb_eq) in Hin. destruct Hin as [[-> ->]|Hin].
      * repeat split; try lia. exact Hk4.
      * now apply Hn.
    + destruct (bestsize <? k); [|exact Hb].
      unfold block_in. repeat split; try lia. exact Hk4.
Qed.

Lemma outer_loop_sound (n : nat) (a b : difflib.seq) (b2j : list (ascii * list Z))
    (alo ahi i blo bhi : Z) (j2len : list (Z * Z)) (best : difflib.best_t) :
  b2j_sound b b2j ->
  alo <= i -> i + Z.of_nat n <= ahi ->
  j2len_sound a b alo blo bhi (i - 1) j2len ->
  block_in a b alo ahi blo bhi best ->
  block_in a b alo ahi blo bhi (difflib.outer_loop n a b2j i blo bhi j2len best).
Proof.
  intros Hs. revert i j2len best.
  induction n as [|n IH]; intros i j2len best Hi Hn Hj Hb; cbn [difflib.outer_loop].
  - exact Hb.
  - set (js := match dict_get Ascii.eqb b2j (difflib.item a i) with
               | Some l => l
               | None => []
               end).
    assert (Hjs : forall j, In j js -> difflib.item b j = difflib.item a i).
    { subst js. destruct (dict_get Ascii.eqb b2j (difflib.item a i)) as [l|] eqn:Eg;
        [|contradiction].
      apply (dict_get_entry _ Ascii.eqb_eq) in Eg.
      intros j Hin. now destruct (Hs _ _ _ Eg Hin). }
    destruct (inner_loop_sound a b js alo ahi i blo bhi j2len [] best
                ltac:(lia) Hjs Hj ltac:(intros ? ? []) Hb) as [Hn' Hb'].
    destruct (difflib.inner_loop js i blo bhi j2len [] best) as [newj2len best'].
    cbn [fst snd] in Hn', Hb'.
    apply IH; [lia|lia| |exact Hb'].
    now replace (i + 1 - 1) with i by lia.
Qed.

Lemma extend_left_sound (fuel : nat) (junk : bool) (a b : difflib.seq)
    (alo ahi blo bhi : Z) (best : difflib.best_t) :
  block_in a b alo ahi blo bhi best ->
  block_in a b alo ahi blo bhi (difflib.extend_left fuel junk a b alo blo best).
Proof.
  revert best. induction fuel as [|fuel IH]; intros best Hb; [exact Hb|].
  cbn [difflib.extend_left]. destruct best as [[besti bestj] bestsize].
  destruct (Z.ltb_spec alo besti); cbn [andb]; [|exact Hb].
  destruct (Z.ltb_spec blo bestj); cbn [andb]; [|exact Hb].
  destruct (Bool.eqb _ junk); cbn [andb]; [|exact Hb].
  destruct (Ascii.eqb_spec (difflib.item a (besti - 1)) (difflib.item b (bestj - 1)))
    as [E|_]; [|exact Hb].
  apply IH. unfold block_in in *. destruct Hb as (H1 & H2 & H3 & H4 & H5 & H6).
  repeat split; try lia.
  intros t Ht. destruct (Z.eq_dec t 0) as [->|Hne].
  - now rewrite !Z.add_0_r.
  - specialize (H6 (t - 1) ltac:(lia)).
    replace (besti - 1 + t) with (besti + (t - 1)) by lia.
    replace (bestj - 1 + t) with (bestj + (t - 1)) by lia. exact H6.
Qed.

Lemma extend_right_sound (fuel : nat) (junk : bool) (a b : difflib.seq)
    (alo ahi blo bhi : Z) (best : difflib.best_t) :
  block_in a b alo ahi blo bhi best ->
  block_in a b alo ahi blo bhi (difflib.extend_right fuel junk a b ahi bhi best).
Proof.
  revert best. induction fuel as [|fuel IH]; intros best Hb; [exact Hb|].
  cbn [difflib.extend_right]. destruct best as [[besti bestj] bestsize].
  destruct (Z.ltb_spec (besti + bestsize) ahi); cbn [andb]; [|exact Hb].
  destruct (Z.ltb_spec (bestj + bestsize) bhi); cbn [andb]; [|exact Hb].
  destruct (Bool.eqb _ junk); cbn [andb]; [|exact Hb].
  destruct (Ascii.eqb_spec (difflib.item a (besti + bestsize))
              (difflib.item b (bestj + bestsize))) as [E|_]; [|exact Hb].
  apply IH. unfold block_in in *. destruct Hb as (H1 & H2 & H3 & H4 & H5 & H6).
  repeat split; try lia.
  intros t Ht. destruct (Z.eq_dec t bestsize) as [->|Hne]; [exact E|].
  apply H6. lia.
Qed.

(** The block that [find_longest_match] returns lies in the two ranges, and
    the sequences agree on it. *)
Lemma find_longest_match_sound (a b : difflib.seq) (b2j : list (ascii * list Z))
    (alo ahi blo bhi : Z) :
  b2j_sound b b2j -> alo <= ahi -> blo <= bhi ->
  block_in a b alo ahi blo bhi (difflib.find_longest_match a b b2j alo ahi blo bhi).
Proof.
  intros Hs Ha Hb. unfold difflib.find_longest_match.
  apply extend_right_sound, extend_left_sound, extend_right_sound, extend_left_sound.
  apply outer_loop_sound; [exact Hs|lia|lia|intros ? ? []|].
  unfold block_in. repeat split; try lia. intros t Ht. lia.
Qed.

(** *** [b2j] gives places of [b] *)

Lemma item_middle (pre post : difflib.seq) (x : ascii) :
  difflib.item (pre ++ x :: post)%list (difflib.len pre) = x.
Proof.
  unfold difflib.item, difflib.len. rewrite Nat2Z.id. apply nth_middle.
Qed.

Lemma chain_b_loop_sound (b pre post : difflib.seq) (b2j : list (ascii * list Z)) :
  b = (pre ++ post)%list ->
  b2j_sound b b2j ->
  b2j_sound b (difflib.chain_b_loop post (difflib.len pre) b2j).
Proof.
  revert pre b2j. induction post as [|x post IH]; intros pre b2j Hb Hs;
    cbn [difflib.chain_b_loop]; [exact Hs|].
  replace (difflib.len pre + 1) with (difflib.len (pre ++ [x])%list)
    by (unfold difflib.len; rewrite length_app; cbn [List.length]; lia).
  apply IH; [now rewrite <- app_assoc|].
  intros c l j Hin Hj.
  apply (dict_set_entry _ Ascii.eqb_eq) in Hin. destruct Hin as [[-> ->]|Hin];
    [|exact (Hs _ _ _ Hin Hj)].
  apply in_app_or in Hj. destruct Hj as [Hj|[<-|[]]].
  - destruct (dict_get Ascii.eqb b2j x) as [l|] eqn:Eg; [|contradiction].
    apply (dict_get_entry _ Ascii.eqb_eq) in Eg. exact (Hs _ _ _ Eg Hj).
  - subst b. split; [|apply item_middle].
    unfold difflib.len. rewrite length_app. cbn [List.length]. lia.
Qed.

Lemma chain_b_sound (b : difflib.seq) : b2j_sound b (difflib.chain_b b).
Proof.
  assert (H : b2j_sound b (difflib.chain_b_loop b 0 [])).
  { apply (chain_b_loop_sound b [] b [] eq_refl). intros c l j []. }
  unfold difflib.chain_b. destruct (200 <=? difflib.len b); [|exact H].
  intros c l j Hin. apply filter_In in Hin. destruct Hin as [Hin _].
  now apply H.
Qed.

(** *** Slices *)

Lemma slice_length (s : difflib.seq) (lo hi : Z) :
  0 <= lo <= hi -> hi <= difflib.len s ->
  Z.of_nat (List.length (slice s lo hi)) = hi - lo.
Proof.
  intros H Hs. unfold slice, difflib.len in *.
  rewrite length_firstn, length_skipn. lia.
Qed.

Lemma slice_nth (s : difflib.seq) (lo hi : Z) (n : nat) :
  0 <= lo <= hi -> hi <= difflib.len s -> Z.of_nat n < hi - lo ->
  nth n (slice s lo hi) Ascii.zero = difflib.item s (lo + Z.of_nat n).
Proof.
  intros H Hs Hn. unfold slice, difflib.item.
  rewrite nth_firstn. destruct (Nat.ltb_spec n (Z.to_nat (hi - lo))); [|lia].
  rewrite nth_skipn. f_equal. lia.
Qed.

Lemma slice_all (s : difflib.seq) : slice s 0 (difflib.len s) = s.
Proof.
  unfold slice, difflib.len. cbn [Z.to_nat skipn].
  rewrite Z.sub_0_r, Nat2Z.id. apply firstn_all.
Qed.

Lemma firstn_plus {A : Type} (n m : nat) (l : list A) :
  firstn (n + m) l = (firstn n l ++ firstn m (skipn n l))%list.
Proof.
  revert l. induction n as [|n IH]; intros l; [reflexivity|].
  destruct l as [|x l]; cbn [Nat.add firstn skipn app].
  - now rewrite firstn_nil.
  - now rewrite IH.
Qed.

Lemma slice_split (s : difflib.seq) (lo mid hi : Z) :
  0 <= lo <= mid -> mid <= hi ->
  slice s lo hi = (slice s lo mid ++ slice s mid hi)%list.
Proof.
  intros H1 H2. unfold slice.
  replace (Z.to_nat (hi - lo)) with (Z.to_nat (mid - lo) + Z.to_nat (hi - mid))%nat
    by lia.
  rewrite firstn_plus, skipn_skipn. do 3 f_equal. lia.
Qed.

Lemma slice_same_run (a b : difflib.seq) (i j k : Z) :
  0 <= i -> 0 <= j -> 0 <= k ->
  i + k <= difflib.len a -> j + k <= difflib.len b ->
  same_run a b i j k -> slice a i (i + k) = slice b j (j + k).
Proof.
  intros Hi Hj Hk Ha Hb Hrun.
  pose proof (slice_length a i (i + k) ltac:(lia) Ha) as La.
  pose proof (slice_length b j (j + k) ltac:(lia) Hb) as Lb.
  apply (nth_ext _ _ Ascii.zero Ascii.zero); [lia|].
  intros n Hn.
  rewrite (slice_nth a i (i + k)), (slice_nth b j (j + k)) by lia.
  apply Hrun. lia.
Qed.

(** What two ranges have in common is at least the block plus what the
    ranges before and after the block have in common. *)
Lemma common_block (a b : difflib.seq) (alo ahi blo bhi i j k : Z) :
  0 <= alo -> ahi <= difflib.len a -> 0 <= blo -> bhi <= difflib.len b ->
  block_in a b alo ahi blo bhi (i, j, k) ->
  common (slice a alo i) (slice b blo j) + k
  + common (slice a (i + k) ahi) (slice b (j + k) bhi)
  <= common (slice a alo ahi) (slice b blo bhi).
Proof.
  intros Ha Ha' Hb Hb' (Hk & H1 & H2 & H3 & H4 & Hrun).
  rewrite (slice_split a alo i ahi), (slice_split a i (i + k) ahi) by lia.
  rewrite (slice_split b blo j bhi), (slice_split b j (j + k) bhi) by lia.
  rewrite <- (slice_same_run a b i j k) by (assumption || lia).
  pose proof (slice_length a i (i + k) ltac:(lia) ltac:(lia)) as Hl.
  replace k with (Z.of_nat (List.length (slice a i (i + k)))) at 1 by lia.
  apply common_split.
Qed.

(** *** The matches are at most what is common *)

Lemma sizes_app (l l' : list difflib.Match) : sizes (l ++ l') = sizes l + sizes l'.
Proof.
  unfold sizes. now rewrite map_app, sum_int_app.
Qed.

Lemma sizes_cons (x : difflib.Match) (l : list difflib.Match) :
  sizes (x :: l) = snd x + sizes l.
Proof.
  unfold sizes. cbn [map]. now rewrite sum_int_cons.
Qed.

Lemma matching_loop_bound (fuel : nat) (a b : difflib.seq)
    (b2j : list (ascii * list Z)) (queue : list (Z * Z * Z * Z))
    (blocks res : list difflib.Match) :
  b2j_sound b b2j ->
  Forall (region_ok a b) queue ->
  0 <= sizes blocks ->
  difflib.matching_loop fuel a b b2j queue blocks = Some res ->
  0 <= sizes res <= sizes blocks + queue_common a b queue.
Proof.
  intros Hs. revert queue blocks.
  induction fuel as [|fuel IH]; intros queue blocks Hq Hb; cbn [difflib.matching_loop];
    [discriminate|].
  destruct queue as [|[[[alo ahi] blo] bhi] queue0].
  - intros [= <-]. cbn [queue_common fold_right]. lia.
  - pose proof (Forall_inv Hq) as Hr. pose proof (Forall_inv_tail Hq) as Hq0.
    cbn [region_ok] in Hr.
    destruct Hr as (Ha & Ha' & Hb0 & Hb').
    pose proof (find_longest_match_sound a b b2j alo ahi blo bhi Hs ltac:(lia) ltac:(lia))
      as Hm.
    destruct (difflib.find_longest_match a b b2j alo ahi blo bhi) as [[i j] k].
    pose proof (common_block a b alo ahi blo bhi i j k ltac:(lia) Ha' ltac:(lia) Hb' Hm)
      as Hc.
    pose proof (common_nonneg (slice a alo i) (slice b blo j)).
    pose proof (common_nonneg (slice a (i + k) ahi) (slice b (j + k) bhi)).
    pose proof (common_nonneg (slice a alo ahi) (slice b blo bhi)).
    destruct Hm as (Hk & Hi1 & Hi2 & Hj1 & Hj2 & _).
    cbn [queue_common fold_right]. fold (queue_common a b queue0).
    destruct (Z.eqb_spec k 0) as [->|Hk0].
    + intros Hres. specialize (IH queue0 blocks Hq0 Hb Hres). lia.
    + intros Hres.
      assert (Hsz : sizes (blocks ++ [(i, j, k)]) = sizes blocks + k).
      { rewrite sizes_app, sizes_cons. cbn [snd]. change (sizes []) with 0. lia. }
      apply IH in Hres.
      * rewrite Hsz in Hres.
        destruct ((i + k <? ahi) && (j + k <? bhi));
          destruct ((alo <? i) && (blo <? j));
          cbn [queue_common fold_right] in Hres; fold (queue_common a b queue0) in Hres;
          lia.
      * destruct ((i + k <? ahi) && (j + k <? bhi)) eqn:E2;
          destruct ((alo <? i) && (blo <? j)) eqn:E1;
          rewrite ?andb_true_iff, ?Z.ltb_lt in *;
          repeat (constructor; [cbn [region_ok]; lia|]); exact Hq0.
      * rewrite Hsz. lia.
Qed.

Lemma insert_sorted_sizes (x : difflib.Match) (l : list difflib.Match) :
  sizes (difflib.insert_sorted x l) = snd x + sizes l.
Proof.
  induction l as [|y l IH]; cbn [difflib.insert_sorted].
  - apply sizes_cons.
  - destruct (difflib.match_ltb x y); rewrite !sizes_cons; [reflexivity|].
    rewrite IH. lia.
Qed.

Lemma sort_sizes (l : list difflib.Match) : sizes (difflib.sort l) = sizes l.
Proof.
  unfold difflib.sort.
  enough (G : forall acc,
             sizes (fold_left (fun acc x => difflib.insert_sorted x acc) l acc)
             = sizes acc + sizes l)
    by (rewrite G; reflexivity).
  induction l as [|x l IH]; intros acc; cbn [fold_left].
  - unfold sizes at 3. cbn. lia.
  - rewrite IH, insert_sorted_sizes, sizes_cons. lia.
Qed.

Lemma collapse_sizes (blocks : list difflib.Match) (cur : difflib.Match)
    (acc : list difflib.Match) :
  sizes (difflib.collapse blocks cur acc) = sizes acc + snd cur + sizes blocks.
Proof.
  revert cur acc. induction blocks as [|[[i2 j2] k2] blocks IH]; intros [[i1 j1] k1] acc;
    cbn [difflib.collapse snd].
  - unfold sizes at 3. cbn [map]. change (sum_int []) with 0.
    destruct (Z.eqb_spec k1 0) as [->|_]; [lia|].
    rewrite sizes_app, sizes_cons. cbn [snd]. unfold sizes at 2. cbn. lia.
  - rewrite sizes_cons. cbn [snd].
    destruct ((i1 + k1 =? i2) && (j1 + k1 =? j2)); rewrite IH; cbn [snd]; [lia|].
    destruct (Z.eqb_spec k1 0) as [->|_]; [lia|].
    rewrite sizes_app, sizes_cons. cbn [snd]. unfold sizes at 2. cbn. lia.
Qed.

(** The matches that [ratio] counts are at most what the two sequences have
    in common, which [quick_ratio] counts. *)
Lemma matches_le_common (a b : difflib.seq) :
  0 <= sizes (difflib.get_matching_blocks a b) <= common a b.
Proof.
  unfold difflib.get_matching_blocks.
  rewrite sizes_app, collapse_sizes, sort_sizes, sizes_cons. cbn [snd].
  change (sizes []) with 0.
  destruct (difflib.matching_loop (difflib.blocks_fuel a) a b (difflib.chain_b b)
              [(0, difflib.len a, 0, difflib.len b)] []) as [l|] eqn:El.
  - apply matching_loop_bound in El.
    + cbn [queue_common fold_right] in El. rewrite !slice_all in El.
      change (sizes []) with 0 in El. lia.
    + apply chain_b_sound.
    + constructor; [|constructor]. cbn [region_ok]. unfold difflib.len. lia.
    + change (sizes []) with 0. lia.
  - change (sizes []) with 0. pose proof (common_nonneg a b). lia.
Qed.

(** For a key of at most twenty bytes the three tests of
    [get_close_matches] come to the last one: the upper bounds
    [real_quick_ratio] and [quick_ratio] pass the cutoff whenever [ratio]
    does. *)
Lemma good_enough_ratio (word k : str) :
  difflib.len (list_ascii_of_string k) <= 20 ->
  difflib.good_enough word k CUTOFF = SFleb CUTOFF (difflib.score word k).
Proof.
  intros Hk. unfold difflib.good_enough, difflib.score.
  set (a := list_ascii_of_string k) in *. set (b := list_ascii_of_string word).
  destruct (SFleb CUTOFF (difflib.ratio a b)) eqn:Er; [|apply andb_false_r].
  unfold difflib.ratio in Er. fold (sizes (difflib.get_matching_blocks a b)) in Er.
  pose proof (matches_le_common a b) as [HM0 HM].
  pose proof (common_le_l a b) as Hl. pose proof (common_le_r a b) as Hr.
  fold (difflib.len a) in Hl. fold (difflib.len b) in Hr.
  assert (HL : difflib.len a + difflib.len b < 256).
  { destruct (Z_lt_le_dec (difflib.len a + difflib.len b) 256) as [H|H]; [exact H|].
    rewrite ratio_far in Er by lia. discriminate. }
  assert (Hb0 : 0 <= difflib.len b) by (unfold difflib.len; lia).
  assert (Ha0 : 0 <= difflib.len a) by (unfold difflib.len; lia).
  unfold difflib.real_quick_ratio, difflib.quick_ratio.
  rewrite quick_loop_common.
  set (L := difflib.len a + difflib.len b) in *.
  set (M := sizes (difflib.get_matching_blocks a b)) in *.
  assert (H1 : SFleb CUTOFF
                 (difflib._calculate_ratio (Z.min (difflib.len a) (difflib.len b)) L)
               = true)
    by (apply (ratio_near L M); [lia|lia|lia|exact Er]).
  assert (H2 : SFleb CUTOFF (difflib._calculate_ratio (common a b) L) = true)
    by (apply (ratio_near L M); [lia|lia|lia|exact Er]).
  rewrite H1, H2. reflexivity.
Qed.

(** ** Claim C3: the resolver *)

(** "gam pro" is as similar to "laptop gamer pro" as to "mouse gaming pro",
    and the first of the two in the catalogue is the laptop; the resolver
    returns the mouse. *)
Lemma tie_goes_to_the_later_key :
  find_product_fuzzy "gam pro" <> spec_resolve "gam pro".
Proof.
  vm_compute. discriminate.
Qed.

Lemma tie_of_gam_pro :
  difflib.score "gam pro" "laptop gamer pro" = difflib.score "gam pro" "mouse gaming pro"
  /\ difflib.good_enough "gam pro" "laptop gamer pro" CUTOFF = true
  /\ dict_keys PRODUCTOS_DB
     = ["laptop gamer pro"; "teclado mecanico rgb"; "monitor 4k hdr";
        "mouse gaming pro"; "auriculares 7.1"]
  /\ spec_resolve "gam pro" = Some ("laptop gamer pro", laptop)
  /\ find_product_fuzzy "gam pro" = Some ("mouse gaming pro", mouse).
Proof.
  repeat split; vm_compute; reflexivity.
Qed.

(** Every key of the catalogue has at most twenty bytes. *)
Lemma keys_are_short (k : str) :
  In k (dict_keys PRODUCTOS_DB) -> difflib.len (list_ascii_of_string k) <= 20.
Proof.
  intros Hk. vm_compute in Hk.
  repeat (destruct Hk as [<-|Hk]; [vm_compute; discriminate|]).
  contradiction.
Qed.

(** On the keys of the catalogue the test of [get_close_matches] is the
    test [ratio >= 0.6]. *)
Lemma good_enough_on_keys (q k : str) :
  In k (dict_keys PRODUCTOS_DB) ->
  difflib.good_enough q k CUTOFF = SFleb CUTOFF (difflib.score q k).
Proof.
  intros Hk. apply good_enough_ratio, keys_are_short, Hk.
Qed.

(** C3, amended.  For a name of the ASCII range, on which [strip] and
    [lower] are Python's and the bytes of the embedding are the characters
    that Python compares: the resolver trims and lower-cases the query.
    When the result is a key of the catalogue it returns that entry.
    Otherwise it returns not-found when no key has a ratio of at least 0.6
    to the query, and else the key of the highest ratio among those of at
    least 0.6; of keys with the same ratio it returns the greatest in string
    order, not the first in the catalogue. *)
Theorem resolver_exact_then_best_ratio (nombre : str) :
  is_ascii nombre = true ->
  let q := lower (strip nombre) in
  let keys := dict_keys PRODUCTOS_DB in
  (forall p,
     dict_get String.eqb PRODUCTOS_DB q = Some p ->
     find_product_fuzzy nombre = Some (q, p))
  /\ (dict_get String.eqb PRODUCTOS_DB q = None ->
      (forall k, In k keys -> SFleb CUTOFF (difflib.score q k) = false) ->
      find_product_fuzzy nombre = None)
  /\ (dict_get String.eqb PRODUCTOS_DB q = None ->
      forall k, In k keys -> SFleb CUTOFF (difflib.score q k) = true ->
      exists m p,
        find_product_fuzzy nombre = Some (m, p)
        /\ dict_get String.eqb PRODUCTOS_DB m = Some p
        /\ SFleb CUTOFF (difflib.score q m) = true
        /\ forall k', In k' keys -> SFleb CUTOFF (difflib.score q k') = true ->
             SFltb (difflib.score q k') (difflib.score q m) = true
             \/ (SFeqb (difflib.score q k') (difflib.score q m) = true
                 /\ (k' <=? m)%string = true)).
Proof.
  intros _ q keys. unfold find_product_fuzzy. fold q. split; [|split].
  - intros p Hp. now rewrite Hp.
  - intros Hnone Hall. rewrite Hnone. fold keys.
    unfold difflib.get_close_matches_1, difflib.nlargest_1.
    destruct (difflib.scored q keys CUTOFF) as [|[s x] l] eqn:Es; [reflexivity|].
    assert (Hin : In (s, x) (difflib.scored q keys CUTOFF)) by (rewrite Es; now left).
    apply scored_In in Hin. destruct Hin as (Hk & Hg & _).
    rewrite (good_enough_on_keys q x Hk), (Hall x Hk) in Hg. discriminate Hg.
  - intros Hnone k Hk Hg. rewrite Hnone. fold keys.
    rewrite <- (good_enough_on_keys q k Hk) in Hg.
    unfold difflib.get_close_matches_1, difflib.nlargest_1.
    assert (Hin : In (difflib.score q k, k) (difflib.scored q keys CUTOFF))
      by (apply scored_In; now repeat split).
    destruct (difflib.scored q keys CUTOFF) as [|t l] eqn:Es; [contradiction|].
    assert (Hnan : forall y, In y (t :: l) -> fst y <> S754_nan).
    { intros [s x] Hy. rewrite <- Es in Hy. apply scored_In in Hy.
      destruct Hy as (_ & Hgx & ->). now apply (good_enough_score_not_nan _ _ CUTOFF). }
    destruct (max_from_spec l t (Hnan t (or_introl eq_refl))
                (fun y Hy => Hnan y (or_intror Hy))) as [Hm Hmax].
    destruct (difflib.max_from t l) as [sm m] eqn:Emax. cbn [map snd].
    rewrite <- Es in Hm. apply scored_In in Hm. destruct Hm as (Hmk & Hmg & ->).
    destruct (dict_keys_get _ _ Hmk) as (p & Hp). rewrite Hp.
    exists m, p. split; [reflexivity|]. split; [exact Hp|].
    split; [now rewrite <- (good_enough_on_keys q m Hmk)|].
    intros k' Hk' Hg'. rewrite <- (good_enough_on_keys q k' Hk') in Hg'.
    assert (Hin' : In (difflib.score q k', k') (t :: l))
      by (rewrite <- Es; apply scored_In; now repeat split).
    pose proof (Hmax _ Hin') as Hnot.
    pose proof (good_enough_score_not_nan _ _ _ Hg') as N1.
    pose proof (good_enough_score_not_nan _ _ _ Hmg) as N2.
    destruct (lt3_trichotomy (fkey (difflib.score q k')) (fkey (difflib.score q m)))
      as [L|[E|L]].
    + left. now apply SFltb_fkey.
    + right. split; [now apply SFeqb_fkey|]. unfold String.leb.
      destruct (String.compare k' m) eqn:Ec; try reflexivity.
      exfalso. apply Hnot. right. cbn [fst snd]. split; [now symmetry|].
      rewrite String.compare_antisym, Ec. reflexivity.
    + exfalso. apply Hnot. left. exact L.
Qed.

Lemma resolver_exact_then_best_ratio_witness :
  exists m p,
    find_product_fuzzy " Gam Pro " = Some (m, p)
    /\ SFleb CUTOFF (difflib.score "gam pro" m) = true
    /\ (SFltb (difflib.score "gam pro" "laptop gamer pro") (difflib.score "gam pro" m)
        = true
        \/ (SFeqb (difflib.score "gam pro" "laptop gamer pro")
              (difflib.score "gam pro" m) = true
            /\ ("laptop gamer pro" <=? m)%string = true)).
Proof.
  destruct (resolver_exact_then_best_ratio " Gam Pro " eq_refl) as (_ & _ & H).
  assert (Hnone : dict_get String.eqb PRODUCTOS_DB (lower (strip " Gam Pro ")) = None)
    by (vm_compute; reflexivity).
  assert (Hin : In "laptop gamer pro" (dict_keys PRODUCTOS_DB))
    by (vm_compute; left; reflexivity).
  assert (Hg : SFleb CUTOFF (difflib.score (lower (strip " Gam Pro ")) "laptop gamer pro")
               = true)
    by (vm_compute; reflexivity).
  destruct (H Hnone "laptop gamer pro" Hin Hg) as (m & p & Hf & _ & Hgm & Hbest).
  exists m, p. split; [exact Hf|]. split; [exact Hgm|].
  exact (Hbest "laptop gamer pro" Hin Hg).
Defined.

(** * Further properties of the tools *)

(** ** Adding to the cart *)

Lemma find_app_none {A} (f : A -> bool) (l : list A) (a : A) :
  find f l = None -> find f (l ++ [a]) = if f a then Some a else None.
Proof.
  induction l as [|y l IH]; cbn [find app]; [reflexivity|].
  destruct (f y); [discriminate|exact IH].
Qed.

Lemma find_app_some {A} (f : A -> bool) (l l' : list A) (v : A) :
  find f l = Some v -> find f (l ++ l') = Some v.
Proof.
  induction l as [|y l IH]; cbn [find app]; [discriminate|].
  destruct (f y); [exact (fun H => H)|exact IH].
Qed.

Lemma find_update_item_other (l : list CartItem) (x y : str) (item' : CartItem) :
  CartItem.producto_id item' = x -> x <> y ->
  find (fun i => String.eqb (CartItem.producto_id i) y) (update_item l x item')
  = find (fun i => String.eqb (CartItem.producto_id i) y) l.
Proof.
  intros Hid Hxy. induction l as [|i l IH]; [reflexivity|]. cbn [update_item].
  destruct (String.eqb_spec (CartItem.producto_id i) x) as [E|NE]; cbn [find].
  - rewrite Hid, E. destruct (String.eqb_spec x y); [contradiction|reflexivity].
  - now rewrite IH.
Qed.

(** The lines after an accepted addition of [cantidad] units of [p]. *)
Lemma agregar_al_carrito_accepted (st : State) (producto key : str) (p : Product)
    (cantidad : Z) :
  0 < cantidad ->
  find_product_fuzzy producto = Some (key, p) ->
  cantidad_en_carrito (carrito st) (Product.id p) + cantidad <= Product.stock p ->
  snd (agregar_al_carrito producto cantidad st)
  = with_items st
      match get_cart_item_by_product (carrito st) (Product.id p) with
      | Some item =>
          update_item (Cart.items (carrito st)) (Product.id p)
            (with_cantidad item (CartItem.cantidad item + cantidad))
      | None =>
          (Cart.items (carrito st)
             ++ [CartItem.new (Product.id p) (Product.nombre p) (Product.precio p)
                   cantidad])%list
      end.
Proof.
  intros Hpos Hf Hstock. unfold agregar_al_carrito.
  destruct (Z.leb_spec cantidad 0); [lia|]. rewrite Hf.
  fold (cantidad_en_carrito (carrito st) (Product.id p)).
  destruct (Z.ltb_spec (Product.stock p)
              (cantidad_en_carrito (carrito st) (Product.id p) + cantidad)); [lia|].
  cbv zeta. cbn [snd].
  destruct (get_cart_item_by_product (carrito st) (Product.id p)); reflexivity.
Qed.

Lemma agregar_al_carrito_success (st : State) (producto key : str) (p : Product)
    (cantidad : Z) :
  cart_ok (carrito st) ->
  0 < cantidad ->
  find_product_fuzzy producto = Some (key, p) ->
  cantidad_en_carrito (carrito st) (Product.id p) + cantidad <= Product.stock p ->
  exists precio subtotal_agregado subtotal,
    fst (agregar_al_carrito producto cantidad st)
    = Returns
        [ ("status", VStr "success");
          ("message", VStr ("✅ Agregado " ++ str_int cantidad ++ "x '"
                              ++ Product.nombre p ++ "' al carrito."));
          ("producto_agregado",
            VDict
              [ ("nombre", VStr (Product.nombre p));
                ("cantidad", VInt cantidad);
                ("precio_unitario", VStr precio);
                ("subtotal", VStr subtotal_agregado) ]);
          ("carrito_resumen",
            VDict
              [ ("total_items",
                  VInt (total_unidades
                          (carrito (snd (agregar_al_carrito producto cantidad st)))));
                ("subtotal", VStr subtotal);
                ("envio_gratis",
                  VBool (SHIPPING_THRESHOLD
                         <=? Cart.get_subtotal
                               (carrito (snd (agregar_al_carrito producto cantidad st))))) ]) ].
Proof.
  intros Hok Hpos Hf Hstock.
  pose proof (agregar_al_carrito_ok producto cantidad st Hok) as Hok'.
  revert Hok'. unfold agregar_al_carrito.
  destruct (Z.leb_spec cantidad 0); [lia|]. rewrite Hf.
  pose proof (find_product_fuzzy_In _ _ _ Hf) as Hp.
  pose proof (cantidad_en_carrito_bounds _ _ Hok Hp) as Hq.
  unfold cantidad_en_carrito in Hq, Hstock.
  set (already := match get_cart_item_by_product (carrito st) (Product.id p) with
                  | Some item => CartItem.cantidad item
                  | None => 0
                  end) in *.
  destruct (Z.ltb_spec (Product.stock p) (already + cantidad)); [lia|].
  cbv zeta. cbn [fst snd]. intros Hok'.
  pose proof (catalogue_bounds _ Hp) as (Hs & Hpr & Hb).
  rewrite (format_price_int _ (catalogue_price_range _ Hp)). cbn [bind].
  rewrite (format_price_int (Product.precio p * cantidad))
    by (apply in_float_range_small; nia).
  cbn [bind]. rewrite (format_price_int _ (cart_ok_in_float_range _ Hok')).
  cbn [bind]. eexists _, _, _. reflexivity.
Qed.

(** X1.  For a name of the ASCII range, on which the resolver of the
    embedding is Python's: in a cart that satisfies the invariant, an
    addition of a positive quantity that the stock allows returns a success, leaves the product
    with the units it had plus the units added, which is within the stock,
    and leaves the quantity of every other product, the discount code and
    the search history as they were. *)
Theorem add_within_stock_adds_the_quantity (st : State) (producto key : str)
    (p : Product) (cantidad : Z) :
  is_ascii producto = true ->
  cart_ok (carrito st) ->
  0 < cantidad ->
  find_product_fuzzy producto = Some (key, p) ->
  cantidad_en_carrito (carrito st) (Product.id p) + cantidad <= Product.stock p ->
  let r := agregar_al_carrito producto cantidad st in
  result_field r "status" = Some (VStr "success")
  /\ result_field2 r "producto_agregado" "cantidad" = Some (VInt cantidad)
  /\ cantidad_en_carrito (carrito (snd r)) (Product.id p)
     = cantidad_en_carrito (carrito st) (Product.id p) + cantidad
  /\ cantidad_en_carrito (carrito (snd r)) (Product.id p) <= Product.stock p
  /\ (forall x, x <> Product.id p ->
        get_cart_item_by_product (carrito (snd r)) x
        = get_cart_item_by_product (carrito st) x)
  /\ Cart.discount_code (carrito (snd r)) = Cart.discount_code (carrito st)
  /\ historial_busquedas (snd r) = historial_busquedas st.
Proof.
  intros _ Hok Hpos Hf Hstock r.
  destruct (agregar_al_carrito_success st producto key p cantidad Hok Hpos Hf Hstock)
    as (s1 & s2 & s3 & Hres).
  pose proof (agregar_al_carrito_accepted st producto key p cantidad Hpos Hf Hstock)
    as Hst.
  assert (Hq : cantidad_en_carrito (carrito (snd r)) (Product.id p)
               = cantidad_en_carrito (carrito st) (Product.id p) + cantidad).
  { subst r. rewrite Hst. unfold cantidad_en_carrito, get_cart_item_by_product.
    cbn [with_items set_carrito carrito set_items Cart.items].
    destruct (find _ (Cart.items (carrito st))) as [item|] eqn:Eg.
    - rewrite (find_update_item _ _ item); [reflexivity|exact Eg|].
      cbn. apply find_some in Eg. destruct Eg as [_ Eg]. now apply String.eqb_eq in Eg.
    - rewrite (find_app_none _ _ _ Eg). cbn. now rewrite String.eqb_refl. }
  unfold result_field, result_field2. subst r. rewrite Hres.
  split; [reflexivity|]. split; [reflexivity|]. split; [exact Hq|].
  split; [rewrite Hq; exact Hstock|]. rewrite Hst. split; [|split; reflexivity].
  intros x Hx. unfold get_cart_item_by_product.
  cbn [with_items set_carrito carrito set_items Cart.items].
  destruct (find _ (Cart.items (carrito st))) as [item|] eqn:Eg.
  - apply find_update_item_other; [|congruence].
    cbn. apply find_some in Eg. destruct Eg as [_ Eg]. now apply String.eqb_eq in Eg.
  - destruct (find (fun i => String.eqb (CartItem.producto_id i) x)
                (Cart.items (carrito st))) as [v|] eqn:Ex.
    + now apply find_app_some.
    + rewrite (find_app_none _ _ _ Ex). cbn.
      destruct (String.eqb_spec (Product.id p) x); [congruence|reflexivity].
Qed.

Lemma add_within_stock_adds_the_quantity_witness :
  cantidad_en_carrito
    (carrito (snd (agregar_al_carrito "mouse gaming pro" 13 two_mice)))
    (Product.id mouse) = 15.
Proof.
  assert (Hok : cart_ok (carrito two_mice)) by cart_ok_by_computation.
  assert (Hf : find_product_fuzzy "mouse gaming pro" = Some ("mouse gaming pro", mouse))
    by (vm_compute; reflexivity).
  destruct (add_within_stock_adds_the_quantity two_mice "mouse gaming pro"
              "mouse gaming pro" mouse 13 eq_refl Hok) as (_ & _ & Hq & _).
  - vm_compute. reflexivity.
  - exact Hf.
  - vm_compute. discriminate.
  - rewrite Hq. vm_compute. reflexivity.
Defined.

(** The line of [p] after an accepted addition. *)
Lemma line_after_agregar (st : State) (producto key : str) (p : Product)
    (cantidad : Z) :
  0 < cantidad ->
  find_product_fuzzy producto = Some (key, p) ->
  cantidad_en_carrito (carrito st) (Product.id p) + cantidad <= Product.stock p ->
  get_cart_item_by_product
    (carrito (snd (agregar_al_carrito producto cantidad st))) (Product.id p)
  = Some
      match get_cart_item_by_product (carrito st) (Product.id p) with
      | Some item => with_cantidad item (CartItem.cantidad item + cantidad)
      | None =>
          CartItem.new (Product.id p) (Product.nombre p) (Product.precio p) cantidad
      end.
Proof.
  intros Hpos Hf Hstock.
  rewrite (agregar_al_carrito_accepted st producto key p cantidad Hpos Hf Hstock).
  unfold get_cart_item_by_product.
  cbn [with_items set_carrito carrito set_items Cart.items].
  destruct (find _ (Cart.items (carrito st))) as [item|] eqn:Eg.
  - apply (find_update_item _ _ item); [exact Eg|].
    cbn. apply find_some in Eg. destruct Eg as [_ Eg]. now apply String.eqb_eq in Eg.
  - rewrite (find_app_none _ _ _ Eg). cbn. now rewrite String.eqb_refl.
Qed.



(** ** Adding and removing compose *)

Lemma update_item_same (l : list CartItem) (x : str) (item : CartItem) :
  find (fun i => String.eqb (CartItem.producto_id i) x) l = Some item ->
  update_item l x item = l.
Proof.
  induction l as [|y l IH]; [reflexivity|]. cbn [find update_item].
  destruct (String.eqb (CartItem.producto_id y) x).
  - now intros [= ->].
  - intros H. now rewrite IH.
Qed.

Lemma update_item_twice (l : list CartItem) (x : str) (i1 i2 : CartItem) :
  CartItem.producto_id i1 = x ->
  update_item (update_item l x i1) x i2 = update_item l x i2.
Proof.
  intros Hid. induction l as [|y l IH]; [reflexivity|]. cbn [update_item].
  destruct (String.eqb (CartItem.producto_id y) x) eqn:E; cbn [update_item].
  - now rewrite Hid, String.eqb_refl.
  - now rewrite E, IH.
Qed.

Lemma update_item_app_last (l : list CartItem) (x : str) (i i' : CartItem) :
  find (fun j => String.eqb (CartItem.producto_id j) x) l = None ->
  CartItem.producto_id i = x ->
  update_item (l ++ [i]) x i' = (l ++ [i'])%list.
Proof.
  intros Hn Hid. induction l as [|y l IH]; cbn [app update_item find] in *.
  - now rewrite Hid, String.eqb_refl.
  - destruct (String.eqb (CartItem.producto_id y) x); [discriminate|].
    now rewrite IH.
Qed.

Lemma list_remove_app_last (l : list CartItem) (i : CartItem) :
  find (fun j => String.eqb (CartItem.producto_id j) (CartItem.producto_id i)) l = None ->
  list_remove i (l ++ [i]) = l.
Proof.
  intros Hn. induction l as [|y l IH]; cbn [app list_remove find] in *.
  - now rewrite CartItem_eqb_refl.
  - destruct (String.eqb (CartItem.producto_id y) (CartItem.producto_id i)) eqn:E;
      [discriminate|].
    destruct (CartItem.eqb y i) eqn:Ey.
    + apply CartItem_eqb_id in Ey. rewrite Ey, String.eqb_refl in E. discriminate.
    + now rewrite IH.
Qed.

Lemma with_items_same (st : State) : with_items st (Cart.items (carrito st)) = st.
Proof. destruct st as [[items code] h]. reflexivity. Qed.

Lemma with_items_twice (st : State) (l l' : list CartItem) :
  with_items (with_items st l) l' = with_items st l'.
Proof. reflexivity. Qed.

Lemma with_cantidad_same (c : Cart) (item : CartItem) :
  cart_ok c -> In item (Cart.items c) ->
  with_cantidad item (CartItem.cantidad item) = item.
Proof.
  intros Hok Hin.
  destruct (line_ok_inv _ (cart_ok_line _ _ Hok Hin)) as (p & _ & _ & _ & _ & _ & Hs).
  destruct item as [pid nom pu q sub]. unfold with_cantidad. cbn in *. now rewrite Hs.
Qed.

(** X3.  For a name of the ASCII range, on which the resolver of the
    embedding is Python's: in a cart that satisfies the invariant, removing
    the quantity that an accepted addition has just added gives back the state before the
    addition: the line is deleted if the addition made it, and is back to
    its quantity and subtotal if it was there. *)
Theorem remove_undoes_add (st : State) (producto key : str) (p : Product)
    (cantidad : Z) :
  is_ascii producto = true ->
  cart_ok (carrito st) ->
  0 < cantidad ->
  find_product_fuzzy producto = Some (key, p) ->
  cantidad_en_carrito (carrito st) (Product.id p) + cantidad <= Product.stock p ->
  snd (remover_del_carrito producto (Some cantidad)
         (snd (agregar_al_carrito producto cantidad st)))
  = st.
Proof.
  intros _ Hok Hpos Hf Hstock.
  pose proof (line_after_agregar st producto key p cantidad Hpos Hf Hstock) as Hg.
  pose proof (agregar_al_carrito_accepted st producto key p cantidad Hpos Hf Hstock)
    as Hst.
  unfold remover_del_carrito. rewrite Hf, Hg. rewrite Hst.
  destruct (get_cart_item_by_product (carrito st) (Product.id p)) as [item|] eqn:Eg.
  - destruct (get_cart_item_by_product_some _ _ _ Eg) as [Hin Hid].
    destruct (line_ok_inv _ (cart_ok_line _ _ Hok Hin)) as (p' & _ & _ & _ & _ & Hq & _).
    set (item1 := with_cantidad item (CartItem.cantidad item + cantidad)).
    assert (Hq1 : CartItem.cantidad item1 = CartItem.cantidad item + cantidad)
      by reflexivity.
    assert (Hback : with_cantidad item1 (CartItem.cantidad item1 - cantidad) = item).
    { rewrite Hq1.
      replace (CartItem.cantidad item + cantidad - cantidad)
        with (CartItem.cantidad item) by lia.
      exact (with_cantidad_same _ _ Hok Hin). }
    destruct (Z.leb_spec (CartItem.cantidad item1) cantidad); [lia|].
    destruct (Z.ltb_spec 0 cantidad); [|lia]. cbv zeta. cbn [snd]. rewrite Hback.
    unfold with_items, set_carrito, set_items.
    cbn [carrito Cart.items historial_busquedas Cart.discount_code].
    rewrite update_item_twice by exact Hid.
    rewrite (update_item_same _ _ _ Eg). destruct st as [[items code] h]. reflexivity.
  - set (item1 := CartItem.new (Product.id p) (Product.nombre p) (Product.precio p)
                    cantidad).
    assert (Hq1 : CartItem.cantidad item1 = cantidad) by reflexivity.
    destruct (Z.leb_spec (CartItem.cantidad item1) cantidad); [|lia]. cbn [snd].
    unfold with_items, set_carrito, set_items.
    cbn [carrito Cart.items historial_busquedas Cart.discount_code].
    rewrite list_remove_app_last by exact Eg. destruct st as [[items code] h].
    reflexivity.
Qed.

Lemma remove_undoes_add_witness :
  snd (remover_del_carrito "mouse gaming pro" (Some 3)
         (snd (agregar_al_carrito "mouse gaming pro" 3 two_mice)))
  = two_mice.
Proof.
  apply (remove_undoes_add two_mice "mouse gaming pro" "mouse gaming pro" mouse 3).
  - reflexivity.
  - cart_ok_by_computation.
  - vm_compute. reflexivity.
  - vm_compute. reflexivity.
  - vm_compute. discriminate.
Defined.

(** X4.  For a name of the ASCII range, on which the resolver of the
    embedding is Python's: in a cart that satisfies the invariant, two
    accepted additions of [a] and then [b] units of a product leave the state that one addition of
    [a + b] units leaves. *)
Theorem add_twice_is_add_sum (st : State) (producto key : str) (p : Product)
    (a b : Z) :
  is_ascii producto = true ->
  cart_ok (carrito st) ->
  0 < a -> 0 < b ->
  find_product_fuzzy producto = Some (key, p) ->
  cantidad_en_carrito (carrito st) (Product.id p) + (a + b) <= Product.stock p ->
  snd (agregar_al_carrito producto b (snd (agregar_al_carrito producto a st)))
  = snd (agregar_al_carrito producto (a + b) st).
Proof.
  intros _ Hok Ha Hb Hf Hstock.
  assert (Hstock1 : cantidad_en_carrito (carrito st) (Product.id p) + a
                    <= Product.stock p) by lia.
  pose proof (line_after_agregar st producto key p a Ha Hf Hstock1) as Hg1.
  pose proof (agregar_al_carrito_accepted st producto key p a Ha Hf Hstock1) as Hst1.
  set (st1 := snd (agregar_al_carrito producto a st)) in *.
  assert (Hstock2 : cantidad_en_carrito (carrito st1) (Product.id p) + b
                    <= Product.stock p).
  { unfold cantidad_en_carrito at 1. rewrite Hg1.
    unfold cantidad_en_carrito in Hstock.
    destruct (get_cart_item_by_product (carrito st) (Product.id p)); cbn; lia. }
  rewrite (agregar_al_carrito_accepted st1 producto key p b Hb Hf Hstock2).
  rewrite (agregar_al_carrito_accepted st producto key p (a + b) ltac:(lia) Hf Hstock).
  rewrite Hg1, Hst1.
  unfold with_items, set_carrito, set_items.
  cbn [carrito Cart.items historial_busquedas Cart.discount_code].
  destruct (get_cart_item_by_product (carrito st) (Product.id p)) as [item|] eqn:Eg.
  - destruct (get_cart_item_by_product_some _ _ _ Eg) as [_ Hid].
    rewrite update_item_twice by exact Hid.
    unfold with_cantidad. cbn. now rewrite Z.add_assoc.
  - rewrite update_item_app_last; [reflexivity|exact Eg|reflexivity].
Qed.

Lemma add_twice_is_add_sum_witness :
  snd (agregar_al_carrito "mouse gaming pro" 4
         (snd (agregar_al_carrito "mouse gaming pro" 3 two_mice)))
  = snd (agregar_al_carrito "mouse gaming pro" 7 two_mice).
Proof.
  apply (add_twice_is_add_sum two_mice "mouse gaming pro" "mouse gaming pro" mouse 3 4).
  - reflexivity.
  - cart_ok_by_computation.
  - vm_compute. reflexivity.
  - vm_compute. reflexivity.
  - vm_compute. reflexivity.
  - vm_compute. discriminate.
Defined.

(** ** Emptying the cart *)

(** X5.  [vaciar_carrito] always succeeds: it reports the number of lines
    and of units it removes, leaves no line and no discount code, and keeps
    the search history.  After it, the view and the total both report an
    empty cart, the total as $0.00, and a discount code is refused. *)
Theorem clear_empties_cart_and_code (st : State) :
  let r := vaciar_carrito st in
  result_field r "status" = Some (VStr "success")
  /\ result_field r "productos_removidos"
     = Some (VInt (Z.of_nat (List.length (Cart.items (carrito st)))))
  /\ result_field r "unidades_removidas"
     = Some (VInt (sum_int (map CartItem.cantidad (Cart.items (carrito st)))))
  /\ carrito (snd r) = {| Cart.items := []; Cart.discount_code := None |}
  /\ historial_busquedas (snd r) = historial_busquedas st
  /\ result_field (ver_carrito (snd r)) "status" = Some (VStr "empty")
  /\ result_field (calcular_total (snd r)) "status" = Some (VStr "empty")
  /\ result_field (calcular_total (snd r)) "total" = Some (VStr "$0.00")
  /\ (forall codigo,
        aplicar_descuento codigo (snd r) = (Returns discount_empty_cart, snd r))
  /\ vaciar_carrito (snd r)
     = (Returns
          [ ("status", VStr "success");
            ("message", VStr "🧹 Carrito vaciado correctamente.");
            ("productos_removidos", VInt 0);
            ("unidades_removidas", VInt 0) ],
        snd r).
Proof.
  cbv zeta. repeat split.
Qed.

(** ** What the tools leave alone *)

Lemma buscar_producto_por_nombre_state (repr_float : double -> str) (q : str)
    (st : State) :
  snd (buscar_producto_por_nombre repr_float q st)
  = {| carrito := carrito st;
       historial_busquedas := (historial_busquedas st ++ [q])%list |}.
Proof.
  unfold buscar_producto_por_nombre.
  destruct (find_product_fuzzy q) as [[key p]|]; reflexivity.
Qed.

(** X6.  The view, the total, the recommendations and the history display
    change nothing of the state.  The search changes the history only, by
    appending the query as it was typed, whether or not it resolves; no
    other tool changes the history. *)
Theorem tools_frame (repr_float : double -> str) (st : State) :
  snd (ver_carrito st) = st
  /\ snd (calcular_total st) = st
  /\ (forall categoria, snd (recomendar_productos repr_float categoria st) = st)
  /\ snd (mostrar_historial_busquedas st) = st
  /\ (forall q,
        carrito (snd (buscar_producto_por_nombre repr_float q st)) = carrito st
        /\ historial_busquedas (snd (buscar_producto_por_nombre repr_float q st))
           = (historial_busquedas st ++ [q])%list)
  /\ (forall c,
        (forall q, c <> Buscar q) ->
        historial_busquedas (snd (run repr_float c st)) = historial_busquedas st).
Proof.
  assert (Hver : snd (ver_carrito st) = st)
    by (unfold ver_carrito; destruct (Cart.items (carrito st)); reflexivity).
  assert (Hcalc : snd (calcular_total st) = st)
    by (unfold calcular_total; destruct (Cart.items (carrito st)); reflexivity).
  assert (Hrec : forall categoria, snd (recomendar_productos repr_float categoria st) = st).
  { intros categoria. unfold recomendar_productos. cbv zeta.
    destruct categoria as [cat|]; [destruct (str_bool cat)|];
      try (destruct (filter _ _)); reflexivity. }
  assert (Hhist : snd (mostrar_historial_busquedas st) = st)
    by (unfold mostrar_historial_busquedas; destruct (historial_busquedas st);
        reflexivity).
  repeat split; try assumption.
  - now rewrite buscar_producto_por_nombre_state.
  - now rewrite buscar_producto_por_nombre_state.
  - intros c Hc. destruct c as [q|producto n| |codigo|producto n| | |cat|]; cbn [run].
    + now elim (Hc q).
    + unfold agregar_al_carrito. destruct (n <=? 0); [reflexivity|].
      destruct (find_product_fuzzy producto) as [[key p]|]; [|reflexivity].
      destruct (Product.stock p <? _); reflexivity.
    + now rewrite Hver.
    + unfold aplicar_descuento. destruct (Cart.items (carrito st)); [reflexivity|].
      cbv zeta. destruct (dict_get _ _ _); reflexivity.
    + unfold remover_del_carrito.
      destruct (find_product_fuzzy producto) as [[key p]|]; [|reflexivity].
      destruct (get_cart_item_by_product _ _) as [item|]; [|reflexivity].
      destruct n as [n|]; [|reflexivity].
      destruct (CartItem.cantidad item <=? n); [reflexivity|].
      destruct (0 <? n); reflexivity.
    + reflexivity.
    + now rewrite Hcalc.
    + now rewrite Hrec.
    + now rewrite Hhist.
Qed.

(** ** The search history *)

Lemma last5_app_one {A} (h : list A) (q : A) :
  last5 (h ++ [q]) = (skipn (List.length h - 4) h ++ [q])%list.
Proof.
  unfold last5. rewrite length_app. cbn [List.length].
  replace (List.length h + 1 - 5)%nat with (List.length h - 4)%nat by lia.
  rewrite skipn_app.
  replace (List.length h - 4 - List.length h)%nat with O by lia. reflexivity.
Qed.

(** X7.  After a search for [q], the history display is a success; it shows
    the last five queries at most, oldest first: [q] is the last one shown,
    before it come the four latest earlier queries (all of them when there
    are fewer), in the order they were made; and it counts every query ever
    made. *)
Theorem history_shows_last_five (repr_float : double -> str) (st : State) (q : str) :
  let h := historial_busquedas st in
  let r := mostrar_historial_busquedas
             (snd (buscar_producto_por_nombre repr_float q st)) in
  exists earlier older,
    h = (earlier ++ older)%list
    /\ List.length older = Nat.min 4 (List.length h)
    /\ fst r
       = Returns
           [ ("status", VStr "success");
             ("historial", VList (map VStr (older ++ [q])));
             ("total_busquedas", VInt (Z.of_nat (List.length h) + 1)) ].
Proof.
  intros h r.
  exists (firstn (List.length h - 4) h), (skipn (List.length h - 4) h).
  split; [symmetry; apply firstn_skipn|].
  split; [rewrite length_skipn; lia|].
  subst r. rewrite buscar_producto_por_nombre_state.
  unfold mostrar_historial_busquedas. cbn [historial_busquedas]. fold h.
  destruct (h ++ [q])%list as [|x l] eqn:E; [now destruct h|].
  rewrite <- E, last5_app_one, length_app. cbn [fst List.length].
  replace (Z.of_nat (List.length h + 1)) with (Z.of_nat (List.length h) + 1) by lia.
  reflexivity.
Qed.

(** ** Discount codes *)

(** X8.  Discount codes do not stack.  With lines in the cart, and for a
    code [c2] of the ASCII range, on which [upper] is Python's: applying
    [c2], when valid, after any other application leaves the state that
    applying it alone leaves, and the cart's code is then the normalised
    code; when invalid, it leaves the state, and so the code applied before
    it. *)
Theorem last_valid_code_wins (st : State) (c1 c2 : str) :
  Cart.items (carrito st) <> [] ->
  is_ascii c2 = true ->
  (forall r,
     dict_get String.eqb DISCOUNT_CODES (upper (strip c2)) = Some r ->
     snd (aplicar_descuento c2 (snd (aplicar_descuento c1 st)))
     = snd (aplicar_descuento c2 st)
     /\ Cart.discount_code (carrito (snd (aplicar_descuento c2 st)))
        = Some (upper (strip c2)))
  /\ (dict_get String.eqb DISCOUNT_CODES (upper (strip c2)) = None ->
      snd (aplicar_descuento c2 st) = st
      /\ snd (aplicar_descuento c2 (snd (aplicar_descuento c1 st)))
         = snd (aplicar_descuento c1 st)).
Proof.
  intros Hne _.
  assert (H1 : snd (aplicar_descuento c1 st) = st
               \/ snd (aplicar_descuento c1 st)
                  = set_carrito st (set_discount_code (carrito st)
                                      (Some (upper (strip c1))))).
  { unfold aplicar_descuento. destruct (Cart.items (carrito st)); [now left|].
    cbv zeta. destruct (dict_get _ _ _); [now right|now left]. }
  assert (Hne1 : Cart.items (carrito (snd (aplicar_descuento c1 st))) <> [])
    by (destruct H1 as [-> | ->]; exact Hne).
  split.
  - intros r Hr. unfold aplicar_descuento at 1 3 4.
    destruct (Cart.items (carrito (snd (aplicar_descuento c1 st)))) eqn:E1;
      [contradiction|].
    destruct (Cart.items (carrito st)) eqn:E; [contradiction|].
    cbv zeta. rewrite Hr. cbn [snd]. split; [|reflexivity].
    destruct H1 as [-> | ->]; [reflexivity|].
    destruct st as [[items code] h]. reflexivity.
  - intros Hr.
    assert (G : forall s, snd (aplicar_descuento c2 s) = s).
    { intros s. unfold aplicar_descuento. destruct (Cart.items (carrito s));
        [reflexivity|]. cbv zeta. now rewrite Hr. }
    split; apply G.
Qed.

Lemma last_valid_code_wins_witness :
  snd (aplicar_descuento "vip30" (snd (aplicar_descuento "SAVE20" two_mice)))
  = snd (aplicar_descuento "vip30" two_mice)
  /\ snd (aplicar_descuento "FREE" (snd (aplicar_descuento "SAVE20" two_mice)))
     = snd (aplicar_descuento "SAVE20" two_mice).
Proof.
  assert (Hne : Cart.items (carrito two_mice) <> []) by (vm_compute; discriminate).
  destruct (last_valid_code_wins two_mice "SAVE20" "vip30" Hne eq_refl) as [Hv _].
  destruct (last_valid_code_wins two_mice "SAVE20" "FREE" Hne eq_refl) as [_ Hi].
  split.
  - edestruct Hv as [H _]; [reflexivity|exact H].
  - apply Hi. vm_compute. reflexivity.
Defined.

Lemma agregar_al_carrito_code (producto : str) (cantidad : Z) (st : State) :
  Cart.discount_code (carrito (snd (agregar_al_carrito producto cantidad st)))
  = Cart.discount_code (carrito st).
Proof.
  unfold agregar_al_carrito. destruct (cantidad <=? 0); [reflexivity|].
  destruct (find_product_fuzzy producto) as [[key p]|]; [|reflexivity].
  destruct (Product.stock p <? _); reflexivity.
Qed.

Lemma remover_del_carrito_code (producto : str) (cantidad : option Z) (st : State) :
  Cart.discount_code (carrito (snd (remover_del_carrito producto cantidad st)))
  = Cart.discount_code (carrito st).
Proof.
  unfold remover_del_carrito.
  destruct (find_product_fuzzy producto) as [[key p]|]; [|reflexivity].
  destruct (get_cart_item_by_product (carrito st) (Product.id p)) as [item|];
    [|reflexivity].
  destruct cantidad as [n|]; [|reflexivity].
  destruct (CartItem.cantidad item <=? n); [reflexivity|].
  destruct (0 <? n); reflexivity.
Qed.

(** X9.  In every reachable state the discount code of the cart is unset or
    is one of the three keys of the table: [get_discount_amount] never meets
    a code it does not know. *)
Theorem reachable_discount_code_is_valid (repr_float : double -> str) (st : State) :
  reachable repr_float st ->
  Cart.discount_code (carrito st) = None
  \/ exists code r,
       Cart.discount_code (carrito st) = Some code
       /\ dict_get String.eqb DISCOUNT_CODES code = Some r
       /\ In code ["WELCOME10"; "SAVE20"; "VIP30"].
Proof.
  induction 1 as [|c st _ IH]; [now left|].
  destruct c as [q|producto n| |codigo|producto n| | |cat|]; cbn [run].
  - now rewrite buscar_producto_por_nombre_state.
  - now rewrite agregar_al_carrito_code.
  - unfold ver_carrito. destruct (Cart.items (carrito st)); exact IH.
  - unfold aplicar_descuento. destruct (Cart.items (carrito st)); [exact IH|].
    cbv zeta.
    destruct (dict_get String.eqb DISCOUNT_CODES (upper (strip codigo))) as [r|] eqn:Er;
      [|exact IH].
    right. exists (upper (strip codigo)), r. split; [reflexivity|]. split; [exact Er|].
    apply dict_get_In in Er. apply (in_map fst) in Er. exact Er.
  - now rewrite remover_del_carrito_code.
  - now left.
  - unfold calcular_total. destruct (Cart.items (carrito st)); exact IH.
  - unfold recomendar_productos. cbv zeta.
    destruct cat as [cat|]; [destruct (str_bool cat)|];
      try (destruct (filter _ _)); exact IH.
  - unfold mostrar_historial_busquedas. destruct (historial_busquedas st); exact IH.
Qed.

Lemma reachable_discount_code_is_valid_witness :
  Cart.discount_code (carrito one_teclado_save20) = None
  \/ exists code r,
       Cart.discount_code (carrito one_teclado_save20) = Some code
       /\ dict_get String.eqb DISCOUNT_CODES code = Some r
       /\ In code ["WELCOME10"; "SAVE20"; "VIP30"].
Proof.
  apply (reachable_discount_code_is_valid (fun _ => EmptyString)).
  apply (reachable_call _ (Aplicar "SAVE20")
           (snd (agregar_al_carrito "teclado mecanico rgb" 1 initial_state))).
  apply (reachable_call _ (Agregar "teclado mecanico rgb" 1) initial_state).
  apply reachable_initial.
Defined.

(** X10.  In a cart with lines that satisfies the invariant, [ver_carrito]
    and [calcular_total] both return a success, neither raises, and they show
    the same amounts: the subtotal, the tax, the shipping cost and the total
    of the [Cart] methods, formatted as prices; both say that shipping is
    free exactly when the subtotal is at least the threshold; the message of
    the total repeats the total; and the view counts the lines and the
    units. *)
Theorem view_and_total_agree (st : State) :
  cart_ok (carrito st) ->
  Cart.items (carrito st) <> [] ->
  let c := carrito st in
  exists (tax total : num) (s_sub s_tax s_ship s_total : str) (dv dt : dict),
    Cart.get_tax c = Returns tax
    /\ Cart.get_total c = Returns total
    /\ format_price (PInt (Cart.get_subtotal c)) = Returns s_sub
    /\ format_price tax = Returns s_tax
    /\ format_price (Cart.get_shipping c) = Returns s_ship
    /\ format_price total = Returns s_total
    /\ ver_carrito st = (Returns dv, st)
    /\ calcular_total st = (Returns dt, st)
    /\ field dv "status" = Some (VStr "success")
    /\ field dt "status" = Some (VStr "success")
    /\ field2 dv "calculos" "subtotal" = Some (VStr s_sub)
    /\ field dt "subtotal" = Some (VStr s_sub)
    /\ field2 dv "calculos" "impuestos" = Some (VStr s_tax)
    /\ field2 dt "impuestos" "monto" = Some (VStr s_tax)
    /\ field2 dv "calculos" "envio" = Some (VStr s_ship)
    /\ field2 dt "envio" "costo" = Some (VStr s_ship)
    /\ field2 dv "calculos" "envio_gratis"
       = Some (VBool (SHIPPING_THRESHOLD <=? Cart.get_subtotal c))
    /\ field2 dt "envio" "gratis"
       = Some (VBool (SHIPPING_THRESHOLD <=? Cart.get_subtotal c))
    /\ field2 dv "calculos" "total" = Some (VStr s_total)
    /\ field dt "total" = Some (VStr s_total)
    /\ field dt "mensaje" = Some (VStr ("💳 Total a pagar: " ++ s_total))
    /\ field dv "total_productos"
       = Some (VInt (Z.of_nat (List.length (Cart.items c))))
    /\ field dv "total_unidades"
       = Some (VInt (sum_int (map CartItem.cantidad (Cart.items c)))).
Proof.
  intros Hok Hne c. subst c.
  pose proof (cart_ok_in_float_range _ Hok) as Hrange.
  assert (Hship : exists s_ship,
             format_price (Cart.get_shipping (carrito st)) = Returns s_ship).
  { destruct (get_shipping_cases (carrito st)) as [-> | ->].
    - eexists. apply format_price_float.
    - eexists. reflexivity. }
  destruct Hship as (s_ship & Hship).
  assert (Hfree : num_eq0 (Cart.get_shipping (carrito st))
                  = (SHIPPING_THRESHOLD <=? Cart.get_subtotal (carrito st))).
  { unfold Cart.get_shipping. now destruct (_ <=? _). }
  destruct (map_outcome_returns (item_detail "nombre") (Cart.items (carrito st)))
    as (dn & Hdn & _); [intros x Hx; now apply (item_detail_returns (carrito st))|].
  destruct (map_outcome_returns (item_detail "producto") (Cart.items (carrito st)))
    as (dp & Hdp & _); [intros x Hx; now apply (item_detail_returns (carrito st))|].
  assert (Htasa : percent TAX_RATE = Returns "8%") by reflexivity.
  assert (Hcost : format_price (PInt SHIPPING_COST) = Returns "$10.00") by reflexivity.
  assert (Humbral : format_price (PInt SHIPPING_THRESHOLD) = Returns "$100.00")
    by reflexivity.
  set (s_sub := "$" ++ format_comma_2f (Z2F (Cart.get_subtotal (carrito st)))).
  set (tax := spec_tax (Z2F (Cart.get_subtotal (carrito st)))
                (spec_discount (Z2F (Cart.get_subtotal (carrito st)))
                   (Cart.discount_code (carrito st)))).
  set (s_tax := "$" ++ format_comma_2f tax).
  set (s_total := "$" ++ format_comma_2f (spec_total (carrito st))).
  assert (Hv : exists dv,
             ver_carrito st = (Returns dv, st)
             /\ field dv "status" = Some (VStr "success")
             /\ field2 dv "calculos" "subtotal" = Some (VStr s_sub)
             /\ field2 dv "calculos" "impuestos" = Some (VStr s_tax)
             /\ field2 dv "calculos" "envio" = Some (VStr s_ship)
             /\ field2 dv "calculos" "envio_gratis"
                = Some (VBool (SHIPPING_THRESHOLD <=? Cart.get_subtotal (carrito st)))
             /\ field2 dv "calculos" "total" = Some (VStr s_total)
             /\ field dv "total_productos"
                = Some (VInt (Z.of_nat (List.length (Cart.items (carrito st)))))
             /\ field dv "total_unidades"
                = Some (VInt (sum_int (map CartItem.cantidad
                                         (Cart.items (carrito st)))))).
  { unfold ver_carrito.
    destruct (Cart.items (carrito st)) as [|i l] eqn:Ei; [congruence|].
    rewrite <- Ei in Hdn |- *. rewrite Hdn.
    rewrite (get_discount_amount_spec _ Hrange), (get_tax_spec _ Hrange),
      (get_total_spec _ Hrange).
    cbn [bind]. rewrite (format_price_int _ Hrange). cbn [bind].
    rewrite ?format_price_float, Hship. cbn [bind].
    rewrite ?format_price_float, Hfree. cbn [bind].
    destruct (num_gt0 _); cbn [bind];
      destruct (SHIPPING_THRESHOLD <=? Cart.get_subtotal (carrito st));
      cbn [andb]; eexists; repeat split; reflexivity. }
  assert (Ht : exists dt,
             calcular_total st = (Returns dt, st)
             /\ field dt "status" = Some (VStr "success")
             /\ field dt "subtotal" = Some (VStr s_sub)
             /\ field2 dt "impuestos" "monto" = Some (VStr s_tax)
             /\ field2 dt "envio" "costo" = Some (VStr s_ship)
             /\ field2 dt "envio" "gratis"
                = Some (VBool (SHIPPING_THRESHOLD <=? Cart.get_subtotal (carrito st)))
             /\ field dt "total" = Some (VStr s_total)
             /\ field dt "mensaje" = Some (VStr ("💳 Total a pagar: " ++ s_total))).
  { unfold calcular_total.
    destruct (Cart.items (carrito st)) as [|i l] eqn:Ei; [congruence|].
    rewrite <- Ei in Hdp |- *. rewrite Hdp.
    rewrite (get_discount_amount_spec _ Hrange), (get_tax_spec _ Hrange),
      (get_total_spec _ Hrange).
    cbn [bind]. rewrite (format_price_int _ Hrange). cbn [bind].
    rewrite Htasa, Humbral, ?format_price_float, Hship. cbn [bind].
    rewrite ?format_price_float, Hfree, Hcost. cbn [bind].
    destruct (num_gt0 _); cbn [bind];
      destruct (SHIPPING_THRESHOLD <=? Cart.get_subtotal (carrito st));
      cbn [andb bind app];
      try (unfold py_add, py_arith; cbn [num_to_float bind];
           rewrite ?ten_in_float_range; cbn [bind]);
      rewrite ?format_price_float; cbn [bind];
      eexists; repeat split; reflexivity. }
  destruct Hv as (dv & Hv & Hv1 & Hv2 & Hv3 & Hv4 & Hv5 & Hv6 & Hv7 & Hv8).
  destruct Ht as (dt & Ht & Ht1 & Ht2 & Ht3 & Ht4 & Ht5 & Ht6 & Ht7).
  exists (PFloat tax), (PFloat (spec_total (carrito st))), s_sub, s_tax, s_ship,
    s_total, dv, dt.
  split; [apply (get_tax_spec _ Hrange)|].
  split; [apply (get_total_spec _ Hrange)|].
  split; [apply (format_price_int _ Hrange)|].
  split; [apply format_price_float|].
  split; [exact Hship|].
  split; [apply format_price_float|].
  repeat split; assumption.
Qed.

Lemma view_and_total_agree_witness :
  exists dv dt,
    ver_carrito two_mice = (Returns dv, two_mice)
    /\ calcular_total two_mice = (Returns dt, two_mice)
    /\ field2 dv "calculos" "total" = field dt "total".
Proof.
  assert (Hok : cart_ok (carrito two_mice)) by cart_ok_by_computation.
  assert (Hne : Cart.items (carrito two_mice) <> []) by (vm_compute; discriminate).
  destruct (view_and_total_agree two_mice Hok Hne)
    as (tax & total & s_sub & s_tax & s_ship & s_total & dv & dt & H).
  exists dv, dt. intuition congruence.
Defined.

(** ** The discount in the view and in the total *)

Lemma discounts_positive (z : Z) : 1 <= z <= 75000 -> discount_positive z = true.
Proof.
  intros Hz.
  apply (all_from_spec discount_positive (Z.to_nat 75000) 1); [|lia].
  vm_compute. reflexivity.
Qed.

Lemma sum_int_lower (l : list Z) :
  (forall x, In x l -> 1 <= x) -> Z.of_nat (List.length l) <= sum_int l.
Proof.
  intros H. unfold sum_int.
  enough (G : forall a, a + Z.of_nat (List.length l) <= fold_left Z.add l a)
    by (specialize (G 0); lia).
  induction l as [|x l IH]; intros a; cbn [fold_left List.length].
  - lia.
  - specialize (IH (fun y Hy => H y (or_intror Hy)) (a + x)).
    pose proof (H x (or_introl eq_refl)). lia.
Qed.

Lemma catalogue_price_positive (p : Product) :
  In p (dict_values PRODUCTOS_DB) -> 1 <= Product.precio p.
Proof.
  intros H. each_product H; cbn; lia.
Qed.

Lemma cart_ok_subtotal_positive (c : Cart) :
  cart_ok c -> Cart.items c <> [] -> 1 <= Cart.get_subtotal c.
Proof.
  intros Hok Hne. unfold Cart.get_subtotal.
  pose proof (sum_int_lower (map CartItem.subtotal (Cart.items c))) as H.
  rewrite length_map in H.
  assert (0 < Z.of_nat (List.length (Cart.items c))).
  { destruct (Cart.items c); [congruence|cbn [List.length]; lia]. }
  enough (forall x, In x (map CartItem.subtotal (Cart.items c)) -> 1 <= x)
    by (specialize (H ltac:(assumption)); lia).
  intros x Hx. apply in_map_iff in Hx. destruct Hx as (item & <- & Hin).
  destruct (line_ok_inv _ (cart_ok_line _ _ Hok Hin))
    as (p & Hp & _ & _ & Hpr & Hq & Hs).
  pose proof (catalogue_price_positive _ Hp). rewrite Hs, Hpr. nia.
Qed.

Lemma discount_amount_positive (c : Cart) (code : str) (r : double) :
  cart_ok c -> Cart.items c <> [] ->
  dict_get String.eqb DISCOUNT_CODES code = Some r ->
  num_gt0 (PFloat (fmul (Z2F (Cart.get_subtotal c)) r)) = true.
Proof.
  intros Hok Hne Hr.
  pose proof (cart_ok_subtotal_positive _ Hok Hne).
  pose proof (cart_ok_subtotal_range _ Hok).
  pose proof (discounts_positive (Cart.get_subtotal c) ltac:(lia)) as H1.
  unfold discount_positive in H1. rewrite forallb_forall in H1.
  exact (H1 (code, r) (dict_get_In _ _ _ Hr)).
Qed.

(** X11.  In a cart with lines that satisfies the invariant and whose
    discount code is unset or a key of the table, the view and the total
    show a discount exactly when a code is set.  With a code, the amount of
    [get_discount_amount] is above zero and both tools show it with the
    code, the view with its savings message; with no code, both show no
    discount and the view has no savings message. *)
Theorem discount_shown_iff_code_set (st : State) :
  cart_ok (carrito st) ->
  Cart.items (carrito st) <> [] ->
  (Cart.discount_code (carrito st) = None
   \/ exists code r,
        Cart.discount_code (carrito st) = Some code
        /\ dict_get String.eqb DISCOUNT_CODES code = Some r) ->
  exists dv dt,
    ver_carrito st = (Returns dv, st)
    /\ calcular_total st = (Returns dt, st)
    /\ match Cart.discount_code (carrito st) with
       | None =>
           field2 dv "calculos" "descuento" = Some VNone
           /\ field2 dv "calculos" "codigo_descuento" = Some VNone
           /\ field dv "mensaje_ahorro" = None
           /\ field dt "descuento" = Some VNone
       | Some code =>
           exists d s,
             Cart.get_discount_amount (carrito st) = Returns d
             /\ num_gt0 d = true
             /\ format_price d = Returns s
             /\ field2 dv "calculos" "descuento" = Some (VStr s)
             /\ field2 dv "calculos" "codigo_descuento" = Some (VStr code)
             /\ field dv "mensaje_ahorro"
                = Some (VStr ("¡Estás ahorrando " ++ s ++ "!"))
             /\ field2 dt "descuento" "codigo" = Some (VStr code)
             /\ field2 dt "descuento" "monto" = Some (VStr s)
       end.
Proof.
  intros Hok Hne Hcode.
  pose proof (cart_ok_in_float_range _ Hok) as Hrange.
  assert (Hship : exists s_ship,
             format_price (Cart.get_shipping (carrito st)) = Returns s_ship).
  { destruct (get_shipping_cases (carrito st)) as [-> | ->].
    - eexists. apply format_price_float.
    - eexists. reflexivity. }
  destruct Hship as (s_ship & Hship).
  assert (Hfree : num_eq0 (Cart.get_shipping (carrito st))
                  = (SHIPPING_THRESHOLD <=? Cart.get_subtotal (carrito st))).
  { unfold Cart.get_shipping. now destruct (_ <=? _). }
  destruct (map_outcome_returns (item_detail "nombre") (Cart.items (carrito st)))
    as (dn & Hdn & _); [intros x Hx; now apply (item_detail_returns (carrito st))|].
  destruct (map_outcome_returns (item_detail "producto") (Cart.items (carrito st)))
    as (dp & Hdp & _); [intros x Hx; now apply (item_detail_returns (carrito st))|].
  assert (Htasa : percent TAX_RATE = Returns "8%") by reflexivity.
  assert (Hcost : format_price (PInt SHIPPING_COST) = Returns "$10.00") by reflexivity.
  assert (Humbral : format_price (PInt SHIPPING_THRESHOLD) = Returns "$100.00")
    by reflexivity.
  pose proof (get_discount_amount_spec _ Hrange) as Hd.
  set (d := spec_discount (Z2F (Cart.get_subtotal (carrito st)))
              (Cart.discount_code (carrito st))) in *.
  assert (Hgt : num_gt0 (PFloat d)
                = match Cart.discount_code (carrito st) with
                  | Some _ => true
                  | None => false
                  end).
  { subst d. destruct Hcode as [-> | (code & r & -> & Hr)]; [reflexivity|].
    unfold spec_discount, rate. rewrite Hr.
    exact (discount_amount_positive _ code r Hok Hne Hr). }
  set (s := "$" ++ format_comma_2f d).
  set (vcode := match Cart.discount_code (carrito st) with
                | Some code => VStr code
                | None => VNone
                end).
  assert (Hv : exists dv,
             ver_carrito st = (Returns dv, st)
             /\ field2 dv "calculos" "codigo_descuento" = Some vcode
             /\ if num_gt0 (PFloat d)
                then field2 dv "calculos" "descuento" = Some (VStr s)
                     /\ field dv "mensaje_ahorro"
                        = Some (VStr ("¡Estás ahorrando " ++ s ++ "!"))
                else field2 dv "calculos" "descuento" = Some VNone
                     /\ field dv "mensaje_ahorro" = None).
  { unfold ver_carrito.
    destruct (Cart.items (carrito st)) as [|i l] eqn:Ei; [congruence|].
    rewrite <- Ei in Hdn |- *. rewrite Hdn.
    rewrite Hd, (get_tax_spec _ Hrange), (get_total_spec _ Hrange).
    cbn [bind]. rewrite (format_price_int _ Hrange). cbn [bind].
    rewrite ?format_price_float, Hship. cbn [bind].
    rewrite ?format_price_float, Hfree. cbn [bind].
    destruct (num_gt0 _); cbn [bind];
      destruct (SHIPPING_THRESHOLD <=? Cart.get_subtotal (carrito st));
      cbn [andb]; eexists; repeat split; reflexivity. }
  assert (Ht : exists dt,
             calcular_total st = (Returns dt, st)
             /\ if num_gt0 (PFloat d)
                then field2 dt "descuento" "codigo" = Some vcode
                     /\ field2 dt "descuento" "monto" = Some (VStr s)
                else field dt "descuento" = Some VNone).
  { unfold calcular_total.
    destruct (Cart.items (carrito st)) as [|i l] eqn:Ei; [congruence|].
    rewrite <- Ei in Hdp |- *. rewrite Hdp.
    rewrite Hd, (get_tax_spec _ Hrange), (get_total_spec _ Hrange).
    cbn [bind]. rewrite (format_price_int _ Hrange). cbn [bind].
    rewrite Htasa, Humbral, ?format_price_float, Hship. cbn [bind].
    rewrite ?format_price_float, Hfree, Hcost. cbn [bind].
    destruct (num_gt0 _); cbn [bind];
      destruct (SHIPPING_THRESHOLD <=? Cart.get_subtotal (carrito st));
      cbn [andb bind app];
      try (unfold py_add, py_arith; cbn [num_to_float bind];
           rewrite ?ten_in_float_range; cbn [bind]);
      rewrite ?format_price_float; cbn [bind];
      eexists; repeat split; reflexivity. }
  destruct Hv as (dv & Hv & Hvc & Hv1). destruct Ht as (dt & Ht & Ht1).
  exists dv, dt. split; [exact Hv|]. split; [exact Ht|].
  rewrite Hgt in Hv1, Ht1. subst vcode.
  destruct (Cart.discount_code (carrito st)) as [code|].
  - exists (PFloat d), s. rewrite format_price_float.
    destruct Hv1, Ht1. repeat split; assumption.
  - destruct Hv1. repeat split; assumption.
Qed.

Lemma discount_shown_iff_code_set_witness :
  exists dv,
    ver_carrito one_teclado_save20 = (Returns dv, one_teclado_save20)
    /\ field2 dv "calculos" "descuento" = Some (VStr "$24.00")
    /\ field2 dv "calculos" "codigo_descuento" = Some (VStr "SAVE20").
Proof.
  assert (Hok : cart_ok (carrito one_teclado_save20)) by cart_ok_by_computation.
  assert (Hne : Cart.items (carrito one_teclado_save20) <> [])
    by (vm_compute; discriminate).
  destruct (discount_shown_iff_code_set one_teclado_save20 Hok Hne)
    as (dv & dt & Hv & _ & H).
  - right. eexists _, _. split; vm_compute; reflexivity.
  - exists dv. split; [exact Hv|].
    change (Cart.discount_code (carrito one_teclado_save20)) with (Some "SAVE20") in H.
    destruct H as (d & s & Hd & _ & Hs & H1 & H2 & _).
    assert (Es : s = "$24.00").
    { vm_compute in Hd. injection Hd as <-. vm_compute in Hs. congruence. }
    subst s. split; assumption.
Defined.

(** ** The subtotal and the units under additions and removals *)





(** ** The resolver and the catalogue *)

(** X13.  What the resolver returns is a key of the catalogue with the
    product stored under it, and it can be resolved again: the key resolves
    to the same entry by the exact match, and so does the display name of
    the product, which the results of the tools show. *)
Theorem resolved_entry_resolves_again (nombre key : str) (p : Product) :
  find_product_fuzzy nombre = Some (key, p) ->
  dict_get String.eqb PRODUCTOS_DB key = Some p
  /\ lower (strip key) = key
  /\ find_product_fuzzy key = Some (key, p)
  /\ find_product_fuzzy (Product.nombre p) = Some (key, p).
Proof.
  intros Hf. pose proof (find_product_fuzzy_get _ _ _ Hf) as Hg.
  split; [exact Hg|].
  apply dict_get_In in Hg.
  cbv [PRODUCTOS_DB In] in Hg.
  repeat (destruct Hg as [Hg|Hg]; [injection Hg as <- <-; vm_compute; auto|]).
  contradiction.
Qed.

Lemma resolved_entry_resolves_again_witness :
  find_product_fuzzy "Auriculares Gaming 7.1"
  = Some ("auriculares 7.1", product_at "auriculares 7.1").
Proof.
  assert (Hf : find_product_fuzzy "  AURICULARES  "
               = Some ("auriculares 7.1", product_at "auriculares 7.1"))
    by (vm_compute; reflexivity).
  destruct (resolved_entry_resolves_again _ _ _ Hf) as (_ & _ & _ & H).
  exact H.
Defined.

(** ** Case and white space around a query *)

Lemma isspace_lower_char (c : ascii) : isspace (lower_char c) = isspace c.
Proof.
  destruct c as [[] [] [] [] [] [] [] []]; reflexivity.
Qed.

Lemma isspace_upper_char (c : ascii) : isspace (upper_char c) = isspace c.
Proof.
  destruct c as [[] [] [] [] [] [] [] []]; reflexivity.
Qed.

Lemma lower_upper_char (c : ascii) : lower_char (upper_char c) = lower_char c.
Proof.
  destruct c as [[] [] [] [] [] [] [] []]; reflexivity.
Qed.

Lemma lower_lower_char (c : ascii) : lower_char (lower_char c) = lower_char c.
Proof.
  destruct c as [[] [] [] [] [] [] [] []]; reflexivity.
Qed.

Lemma lstrip_map_str (f : ascii -> ascii) (s : str) :
  (forall c, isspace (f c) = isspace c) ->
  lstrip (map_str f s) = map_str f (lstrip s).
Proof.
  intros Hf. induction s as [|c s IH]; [reflexivity|].
  cbn [map_str lstrip]. rewrite Hf. now destruct (isspace c).
Qed.

Lemma rstrip_map_str (f : ascii -> ascii) (s : str) :
  (forall c, isspace (f c) = isspace c) ->
  rstrip (map_str f s) = map_str f (rstrip s).
Proof.
  intros Hf. induction s as [|c s IH]; [reflexivity|].
  cbn [map_str rstrip]. rewrite IH, Hf.
  destruct (rstrip s); [now destruct (isspace c)|reflexivity].
Qed.

Lemma strip_map_str (f : ascii -> ascii) (s : str) :
  (forall c, isspace (f c) = isspace c) ->
  strip (map_str f s) = map_str f (strip s).
Proof.
  intros Hf. unfold strip. now rewrite lstrip_map_str, rstrip_map_str.
Qed.

Lemma map_str_map_str (f g : ascii -> ascii) (s : str) :
  map_str f (map_str g s) = map_str (fun c => f (g c)) s.
Proof.
  induction s as [|c s IH]; [reflexivity|]. cbn [map_str]. now rewrite IH.
Qed.

Lemma map_str_ext (f g : ascii -> ascii) (s : str) :
  (forall c, f c = g c) -> map_str f s = map_str g s.
Proof.
  intros H. induction s as [|c s IH]; [reflexivity|]. cbn [map_str]. now rewrite H, IH.
Qed.

Lemma lstrip_all_space (ws : str) : all_space ws = true -> lstrip ws = EmptyString.
Proof.
  induction ws as [|c ws IH]; [reflexivity|].
  cbn [all_space str_forall lstrip]. intros H. apply andb_true_iff in H.
  destruct H as [-> H]. exact (IH H).
Qed.

Lemma rstrip_all_space (ws : str) : all_space ws = true -> rstrip ws = EmptyString.
Proof.
  induction ws as [|c ws IH]; [reflexivity|].
  cbn [all_space str_forall rstrip]. intros H. apply andb_true_iff in H.
  destruct H as [Hc H]. now rewrite (IH H), Hc.
Qed.

Lemma lstrip_app_space (ws s : str) :
  all_space ws = true -> lstrip (ws ++ s) = lstrip s.
Proof.
  induction ws as [|c ws IH]; [reflexivity|].
  cbn [all_space str_forall]. intros H. apply andb_true_iff in H.
  destruct H as [Hc H]. cbn [String.append lstrip]. rewrite Hc. exact (IH H).
Qed.

Lemma rstrip_app_space (s ws : str) :
  all_space ws = true -> rstrip (s ++ ws) = rstrip s.
Proof.
  intros H. induction s as [|c s IH]; [exact (rstrip_all_space _ H)|].
  cbn [String.append rstrip]. now rewrite IH.
Qed.

Lemma strip_app_space (s ws : str) :
  all_space ws = true -> strip (s ++ ws) = strip s.
Proof.
  intros H. unfold strip. induction s as [|c s IH].
  - cbn [String.append]. now rewrite (lstrip_all_space _ H).
  - cbn [String.append lstrip]. destruct (isspace c); [exact IH|].
    exact (rstrip_app_space (String c s) ws H).
Qed.

Lemma strip_padded (ws1 q ws2 : str) :
  all_space ws1 = true -> all_space ws2 = true ->
  strip (ws1 ++ q ++ ws2) = strip q.
Proof.
  intros H1 H2. unfold strip at 1. rewrite (lstrip_app_space _ _ H1).
  exact (strip_app_space q ws2 H2).
Qed.

Lemma find_product_fuzzy_normal (a b : str) :
  lower (strip a) = lower (strip b) -> find_product_fuzzy a = find_product_fuzzy b.
Proof.
  intros H. unfold find_product_fuzzy. now rewrite H.
Qed.

(** X14.  The resolver ignores ASCII white space around the query and, for
    a query of the ASCII range, the case of its letters: the padded query,
    the query in upper case and the query in lower case resolve as the query
    does.  So an addition under any of these spellings leaves the same
    cart. *)
Theorem resolver_ignores_case_and_padding (q ws1 ws2 : str) :
  all_space ws1 = true ->
  all_space ws2 = true ->
  find_product_fuzzy (ws1 ++ q ++ ws2) = find_product_fuzzy q
  /\ (is_ascii q = true ->
      find_product_fuzzy (upper q) = find_product_fuzzy q
      /\ find_product_fuzzy (lower q) = find_product_fuzzy q
      /\ forall n st,
           snd (agregar_al_carrito (ws1 ++ upper q ++ ws2) n st)
           = snd (agregar_al_carrito q n st)).
Proof.
  intros H1 H2.
  assert (Hu : find_product_fuzzy (upper q) = find_product_fuzzy q).
  { apply find_product_fuzzy_normal. unfold upper, lower.
    rewrite (strip_map_str _ _ isspace_upper_char), map_str_map_str.
    apply map_str_ext, lower_upper_char. }
  assert (Hl : find_product_fuzzy (lower q) = find_product_fuzzy q).
  { apply find_product_fuzzy_normal. unfold lower.
    rewrite (strip_map_str _ _ isspace_lower_char), map_str_map_str.
    apply map_str_ext, lower_lower_char. }
  assert (Hp : forall s, find_product_fuzzy (ws1 ++ s ++ ws2) = find_product_fuzzy s).
  { intros s. apply find_product_fuzzy_normal. now rewrite strip_padded. }
  split; [apply Hp|]. intros _. split; [exact Hu|]. split; [exact Hl|].
  intros n st. unfold agregar_al_carrito. rewrite Hp, Hu.
  destruct (n <=? 0); [reflexivity|].
  destruct (find_product_fuzzy q) as [[key p]|]; [|reflexivity].
  destruct (Product.stock p <? _); reflexivity.
Qed.

Lemma resolver_ignores_case_and_padding_witness :
  find_product_fuzzy "  mouse gaming pro  " = find_product_fuzzy "mouse gaming pro"
  /\ find_product_fuzzy "MOUSE GAMING PRO" = find_product_fuzzy "mouse gaming pro".
Proof.
  destruct (resolver_ignores_case_and_padding "mouse gaming pro" "  " "  ")
    as [Hp Hc]; [reflexivity|reflexivity|].
  split; [exact Hp|]. destruct Hc as [Hu _]; [reflexivity|exact Hu].
Defined.

(** ** The recommendations *)

Lemma key_lt_spec (p q : Product) :
  Product.rating p <> S754_nan -> Product.rating q <> S754_nan ->
  (key_lt p q = true <-> klt p q).
Proof.
  intros Hp Hq. unfold key_lt, klt.
  pose proof (SFeqb_fkey _ _ Hp Hq) as He. pose proof (SFltb_fkey _ _ Hp Hq) as Hl.
  destruct (SFeqb (Product.rating p) (Product.rating q)).
  - assert (E : fkey (Product.rating p) = fkey (Product.rating q)) by now apply He.
    rewrite Z.ltb_lt. split.
    + intros H. right. now split.
    + intros [H|[_ H]]; [|exact H]. rewrite E in H. now apply lt3_irrefl in H.
  - rewrite Hl. split.
    + intros H. now left.
    + intros [H|[E _]]; [exact H|]. apply He in E. discriminate.
Qed.

Lemma klt_trans (a b c : Product) : klt a b -> klt b c -> klt a c.
Proof.
  unfold klt. intros [H1|[E1 H1]] [H2|[E2 H2]].
  - left. exact (lt3_trans _ _ _ H1 H2).
  - left. now rewrite <- E2.
  - left. now rewrite E1.
  - right. split; [congruence|lia].
Qed.

Lemma klt_irrefl (a : Product) : ~ klt a a.
Proof.
  unfold klt. intros [H|[_ H]]; [now apply lt3_irrefl in H|lia].
Qed.

Lemma catalogue_rating (p : Product) :
  In p (dict_values PRODUCTOS_DB) -> Product.rating p <> S754_nan.
Proof.
  intros H. each_product H; discriminate.
Qed.

Lemma insert_desc_perm (p : Product) (l : list Product) :
  Permutation (insert_desc p l) (p :: l).
Proof.
  induction l as [|q l IH]; cbn [insert_desc]; [reflexivity|].
  destruct (key_lt q p); [reflexivity|].
  rewrite IH. apply perm_swap.
Qed.

Lemma sort_desc_perm (l : list Product) : Permutation (sort_desc l) l.
Proof.
  unfold sort_desc.
  enough (G : forall acc,
             Permutation (fold_left (fun a p => insert_desc p a) l acc) (l ++ acc))
    by (rewrite (G []); now rewrite app_nil_r).
  induction l as [|p l IH]; intros acc; cbn [fold_left app]; [reflexivity|].
  rewrite IH, insert_desc_perm. symmetry. apply Permutation_middle.
Qed.

Lemma insert_desc_sorted (p : Product) (l : list Product) :
  Product.rating p <> S754_nan ->
  Forall (fun q => Product.rating q <> S754_nan) l ->
  StronglySorted (fun a b => key_lt a b = false) l ->
  StronglySorted (fun a b => key_lt a b = false) (insert_desc p l).
Proof.
  intros Hp Hok Hs. induction Hs as [|q l Hs IH Hq]; cbn [insert_desc].
  - constructor; constructor.
  - inversion Hok as [|? ? Hoq Hol]; subst.
    destruct (key_lt q p) eqn:E.
    + constructor; [now constructor|]. constructor.
      * destruct (key_lt p q) eqn:E'; [|reflexivity].
        apply (key_lt_spec _ _ Hoq Hp) in E. apply (key_lt_spec _ _ Hp Hoq) in E'.
        now destruct (klt_irrefl _ (klt_trans _ _ _ E E')).
      * rewrite Forall_forall in Hq, Hol |- *. intros r Hr.
        destruct (key_lt p r) eqn:E'; [|reflexivity].
        apply (key_lt_spec _ _ Hoq Hp) in E.
        apply (key_lt_spec _ _ Hp (Hol _ Hr)) in E'.
        pose proof (klt_trans _ _ _ E E') as H.
        apply (key_lt_spec _ _ Hoq (Hol _ Hr)) in H.
        rewrite (Hq _ Hr) in H. discriminate.
    + constructor; [exact (IH Hol)|].
      rewrite Forall_forall in Hq |- *. intros r Hr.
      apply (Permutation_in _ (insert_desc_perm p l)) in Hr.
      destruct Hr as [<-|Hr]; [exact E|exact (Hq _ Hr)].
Qed.

Lemma sort_desc_sorted (l : list Product) :
  Forall (fun q => Product.rating q <> S754_nan) l ->
  StronglySorted (fun a b => key_lt a b = false) (sort_desc l).
Proof.
  unfold sort_desc. intros Hok.
  enough (G : forall acc,
             Forall (fun q => Product.rating q <> S754_nan) acc ->
             StronglySorted (fun a b => key_lt a b = false) acc ->
             StronglySorted (fun a b => key_lt a b = false)
               (fold_left (fun a p => insert_desc p a) l acc))
    by (apply G; constructor).
  induction Hok as [|p l Hp Hok IH]; intros acc Hacc Hs; cbn [fold_left]; [exact Hs|].
  apply IH.
  - rewrite Forall_forall in Hacc |- *. intros r Hr.
    apply (Permutation_in _ (insert_desc_perm p acc)) in Hr.
    destruct Hr as [<-|Hr]; [exact Hp|exact (Hacc _ Hr)].
  - now apply insert_desc_sorted.
Qed.

Lemma sorted_firstn_skipn {A} (R : A -> A -> Prop) (n : nat) (l : list A) :
  StronglySorted R l ->
  StronglySorted R (firstn n l)
  /\ forall a b, In a (firstn n l) -> In b (skipn n l) -> R a b.
Proof.
  intros Hs. revert n. induction Hs as [|x l Hs IH Hx]; intros [|n];
    cbn [firstn skipn].
  - split; [constructor|contradiction].
  - split; [constructor|contradiction].
  - split; [constructor|contradiction].
  - destruct (IH n) as [IH1 IH2]. rewrite Forall_forall in Hx. split.
    + constructor; [exact IH1|]. rewrite Forall_forall. intros y Hy.
      apply Hx. exact (firstn_In_list _ _ _ Hy).
    + intros a b [<-|Ha] Hb.
      * apply Hx. rewrite <- (firstn_skipn n l). apply in_or_app. now right.
      * now apply IH2.
Qed.

Lemma catalogue_NoDup : NoDup (dict_values PRODUCTOS_DB).
Proof.
  cbv [PRODUCTOS_DB dict_values map snd].
  repeat (constructor; [cbn [In]; intuition discriminate|]). constructor.
Qed.

Lemma candidatos_catalogue (categoria : option str) (p : Product) :
  In p (candidatos categoria) -> In p (dict_values PRODUCTOS_DB).
Proof.
  unfold candidatos. destruct categoria as [cat|]; [destruct (str_bool cat)|];
    try exact (fun H => H).
  intros H. apply filter_In in H. apply H.
Qed.

Lemma candidatos_NoDup (categoria : option str) : NoDup (candidatos categoria).
Proof.
  unfold candidatos. destruct categoria as [cat|]; [destruct (str_bool cat)|];
    try exact catalogue_NoDup.
  apply NoDup_filter, catalogue_NoDup.
Qed.

Lemma distinct_In (l : list str) (x : str) : In x (distinct l) <-> In x l.
Proof.
  induction l as [|y l IH]; [reflexivity|].
  cbn [distinct In]. rewrite filter_In, IH.
  destruct (String.eqb_spec y x) as [->|Hne]; cbn [negb]; [tauto|].
  split; [tauto|]. intros [H|H]; [now left|right; now split].
Qed.

Lemma distinct_NoDup (l : list str) : NoDup (distinct l).
Proof.
  induction l as [|y l IH]; cbn [distinct]; constructor.
  - rewrite filter_In, String.eqb_refl. cbn [negb]. intros [_ H]. discriminate.
  - now apply NoDup_filter.
Qed.

(** X15.  For a category of the ASCII range or spelled as in the catalogue,
    and for no category: [recomendar_productos] reports an error exactly
    when a category is given and no product of the catalogue has it in
    lower case; the categories it then lists are those of the catalogue,
    each once.  Otherwise it succeeds with the best three of the products to
    choose from, or all of them when there are fewer: no product is listed
    twice, none is listed before a product with a greater [(rating,
    reviews)], no product left out has a greater one than a product listed,
    and the message gives their number. *)
Theorem recommendations_are_the_best_three (repr_float : double -> str)
    (categoria : option str) (st : State) :
  categoria_en_rango categoria ->
  let r := recomendar_productos repr_float categoria st in
  (candidatos categoria = [] ->
   result_field r "status" = Some (VStr "error")
   /\ exists cats,
        result_field r "categorias_disponibles" = Some (VList (map VStr cats))
        /\ NoDup cats
        /\ forall c, In c cats
                     <-> exists p, In p (dict_values PRODUCTOS_DB)
                                   /\ Product.categoria p = c)
  /\ (candidatos categoria <> [] ->
      exists ps recs,
        map_outcome (recomendacion repr_float) ps = Returns recs
        /\ result_field r "status" = Some (VStr "success")
        /\ result_field r "recomendaciones" = Some (VList recs)
        /\ result_field r "mensaje"
           = Some (VStr ("🌟 Top " ++ str_int (Z.of_nat (List.length recs))
                           ++ " productos recomendados"))
        /\ List.length recs = List.length ps
        /\ List.length ps = Nat.min 3 (List.length (candidatos categoria))
        /\ NoDup ps
        /\ incl ps (candidatos categoria)
        /\ StronglySorted (fun a b => key_lt a b = false) ps
        /\ forall p x, In p ps -> In x (candidatos categoria) -> ~ In x ps ->
                       key_lt p x = false).
Proof.
  intros _ r. subst r. unfold recomendar_productos, result_field. cbv zeta.
  set (filtro := match categoria with
                 | Some cat => if str_bool cat then Some cat else None
                 | None => None
                 end).
  assert (Ep : match filtro with
               | Some cat =>
                   filter (fun p => String.eqb (lower (Product.categoria p)) (lower cat))
                     (dict_values PRODUCTOS_DB)
               | None => dict_values PRODUCTOS_DB
               end = candidatos categoria).
  { unfold filtro, candidatos.
    destruct categoria as [cat|]; [destruct (str_bool cat)|]; reflexivity. }
  rewrite Ep.
  assert (Hnone : filtro = None -> candidatos categoria <> []).
  { intros E. rewrite E in Ep. rewrite <- Ep. discriminate. }
  set (s := sort_desc (candidatos categoria)).
  assert (Hperm : Permutation s (candidatos categoria)) by apply sort_desc_perm.
  assert (Hsorted : StronglySorted (fun a b => key_lt a b = false) s).
  { apply sort_desc_sorted. rewrite Forall_forall. intros p Hp.
    exact (catalogue_rating _ (candidatos_catalogue _ _ Hp)). }
  destruct (map_outcome_returns (recomendacion repr_float) (firstn 3 s))
    as (recs & Hrecs & Hlen).
  { intros p Hp. apply firstn_In_list in Hp.
    apply (Permutation_in _ Hperm), candidatos_catalogue in Hp.
    unfold recomendacion.
    rewrite (format_price_int _ (catalogue_price_range _ Hp)). cbn [bind].
    eexists. reflexivity. }
  split.
  - intros E. destruct filtro as [cat|]; [|now destruct (Hnone eq_refl)].
    rewrite E. cbn [fst]. split; [reflexivity|].
    exists (distinct (map Product.categoria (dict_values PRODUCTOS_DB))).
    split; [reflexivity|]. split.
    + apply distinct_NoDup.
    + intros c. rewrite distinct_In, in_map_iff.
      split; intros (p & H1 & H2); exists p; now split.
  - intros Hne. exists (firstn 3 s), recs.
    fold s.
    match goal with
    | |- context [fst ?m] =>
        assert (Er : fst m
                     = Returns
                         [ ("status", VStr "success");
                           ("categoria",
                             VStr (match filtro with
                                   | Some cat => cat
                                   | None => "Todas"
                                   end));
                           ("recomendaciones", VList recs);
                           ("mensaje",
                             VStr ("🌟 Top " ++ str_int (Z.of_nat (List.length recs))
                                     ++ " productos recomendados")) ])
    end.
    { destruct filtro; destruct (candidatos categoria); try congruence;
        cbn [fst]; rewrite Hrecs; reflexivity. }
    rewrite Er.
    destruct (sorted_firstn_skipn _ 3 s Hsorted) as [Hs1 Hs2].
    repeat split; try reflexivity; try assumption.
    + rewrite length_firstn. now rewrite (Permutation_length Hperm).
    + apply (NoDup_app_remove_r _ (skipn 3 s)). rewrite firstn_skipn.
      exact (Permutation_NoDup (Permutation_sym Hperm) (candidatos_NoDup _)).
    + intros p Hp. apply firstn_In_list in Hp. exact (Permutation_in _ Hperm Hp).
    + intros p x Hp Hx Hnx. apply (Hs2 p x Hp).
      apply (Permutation_in _ (Permutation_sym Hperm)) in Hx.
      rewrite <- (firstn_skipn 3 s) in Hx. apply in_app_or in Hx.
      destruct Hx as [Hx|Hx]; [contradiction|exact Hx].
Qed.

Lemma recommendations_are_the_best_three_witness :
  result_field
    (recomendar_productos (fun _ => EmptyString) (Some "laptops") initial_state)
    "status"
  = Some (VStr "error")
  /\ result_field
       (recomendar_productos (fun _ => EmptyString) (Some "Periféricos") initial_state)
       "mensaje"
     = Some (VStr "🌟 Top 2 productos recomendados").
Proof.
  split.
  - destruct (recommendations_are_the_best_three (fun _ => EmptyString)
                (Some "laptops") initial_state) as [[H _] _];
      [left; reflexivity|reflexivity|exact H].
  - destruct (recommendations_are_the_best_three (fun _ => EmptyString)
                (Some "Periféricos") initial_state) as [_ H];
      [right; vm_compute; tauto|].
    destruct H as (ps & recs & _ & _ & _ & Hm & Hl & Hn & _); [discriminate|].
    rewrite Hm, Hl, Hn. reflexivity.
Defined.

(** ** The search and the cart tools *)




(** ** The discount that [aplicar_descuento] reports *)

Lemma ver_carrito_fields (st : State) :
  cart_ok (carrito st) ->
  Cart.items (carrito st) <> [] ->
  let subtotal := Z2F (Cart.get_subtotal (carrito st)) in
  let d := spec_discount subtotal (Cart.discount_code (carrito st)) in
  exists dv,
    ver_carrito st = (Returns dv, st)
    /\ field2 dv "calculos" "subtotal" = Some (VStr ("$" ++ format_comma_2f subtotal))
    /\ field2 dv "calculos" "descuento"
       = Some (if num_gt0 (PFloat d) then VStr ("$" ++ format_comma_2f d) else VNone)
    /\ field2 dv "calculos" "codigo_descuento"
       = Some match Cart.discount_code (carrito st) with
              | Some code => VStr code
              | None => VNone
              end
    /\ field2 dv "calculos" "total"
       = Some (VStr ("$" ++ format_comma_2f (spec_total (carrito st)))).
Proof.
  intros Hok Hne subtotal d. subst subtotal d.
  pose proof (cart_ok_in_float_range _ Hok) as Hrange.
  assert (Hship : exists s_ship,
             format_price (Cart.get_shipping (carrito st)) = Returns s_ship).
  { destruct (get_shipping_cases (carrito st)) as [-> | ->].
    - eexists. apply format_price_float.
    - eexists. reflexivity. }
  destruct Hship as (s_ship & Hship).
  destruct (map_outcome_returns (item_detail "nombre") (Cart.items (carrito st)))
    as (dn & Hdn & _); [intros x Hx; now apply (item_detail_returns (carrito st))|].
  unfold ver_carrito.
  destruct (Cart.items (carrito st)) as [|i l] eqn:Ei; [congruence|].
  rewrite <- Ei in Hdn |- *. rewrite Hdn.
  rewrite (get_discount_amount_spec _ Hrange), (get_tax_spec _ Hrange),
    (get_total_spec _ Hrange).
  cbn [bind]. rewrite (format_price_int _ Hrange). cbn [bind].
  rewrite ?format_price_float, Hship. cbn [bind].
  rewrite ?format_price_float. cbn [bind].
  destruct (num_gt0 _); cbn [bind];
    destruct (num_eq0 _ && _); eexists; repeat split; reflexivity.
Qed.

Lemma calcular_total_fields (st : State) :
  cart_ok (carrito st) ->
  Cart.items (carrito st) <> [] ->
  let subtotal := Z2F (Cart.get_subtotal (carrito st)) in
  let d := spec_discount subtotal (Cart.discount_code (carrito st)) in
  exists dt,
    calcular_total st = (Returns dt, st)
    /\ field dt "subtotal" = Some (VStr ("$" ++ format_comma_2f subtotal))
    /\ field dt "descuento"
       = Some (if num_gt0 (PFloat d)
               then VDict [ ("codigo",
                              match Cart.discount_code (carrito st) with
                              | Some code => VStr code
                              | None => VNone
                              end);
                            ("monto", VStr ("$" ++ format_comma_2f d)) ]
               else VNone)
    /\ field dt "total" = Some (VStr ("$" ++ format_comma_2f (spec_total (carrito st)))).
Proof.
  intros Hok Hne subtotal d. subst subtotal d.
  pose proof (cart_ok_in_float_range _ Hok) as Hrange.
  assert (Hship : exists s_ship,
             format_price (Cart.get_shipping (carrito st)) = Returns s_ship).
  { destruct (get_shipping_cases (carrito st)) as [-> | ->].
    - eexists. apply format_price_float.
    - eexists. reflexivity. }
  destruct Hship as (s_ship & Hship).
  assert (Hfree : num_eq0 (Cart.get_shipping (carrito st))
                  = (SHIPPING_THRESHOLD <=? Cart.get_subtotal (carrito st))).
  { unfold Cart.get_shipping. now destruct (_ <=? _). }
  destruct (map_outcome_returns (item_detail "producto") (Cart.items (carrito st)))
    as (dp & Hdp & _); [intros x Hx; now apply (item_detail_returns (carrito st))|].
  assert (Htasa : percent TAX_RATE = Returns "8%") by reflexivity.
  assert (Hcost : format_price (PInt SHIPPING_COST) = Returns "$10.00") by reflexivity.
  assert (Humbral : format_price (PInt SHIPPING_THRESHOLD) = Returns "$100.00")
    by reflexivity.
  unfold calcular_total.
  destruct (Cart.items (carrito st)) as [|i l] eqn:Ei; [congruence|].
  rewrite <- Ei in Hdp |- *. rewrite Hdp.
  rewrite (get_discount_amount_spec _ Hrange), (get_tax_spec _ Hrange),
    (get_total_spec _ Hrange).
  cbn [bind]. rewrite (format_price_int _ Hrange). cbn [bind].
  rewrite Htasa, Humbral, ?format_price_float, Hship. cbn [bind].
  rewrite ?format_price_float, Hfree, Hcost. cbn [bind].
  destruct (num_gt0 _); cbn [bind];
    destruct (SHIPPING_THRESHOLD <=? Cart.get_subtotal (carrito st));
    cbn [andb bind app];
    try (unfold py_add, py_arith; cbn [num_to_float bind];
         rewrite ?ten_in_float_range; cbn [bind]);
    rewrite ?format_price_float; cbn [bind];
    eexists; repeat split; reflexivity.
Qed.

(** X17.  In a cart with lines that satisfies the invariant, what
    [aplicar_descuento] reports for a valid code is what the view and the
    total show right after it: the same discount amount, under the
    normalised code, the same subtotal and the same total. *)
Theorem applied_discount_is_the_one_shown (st : State) (codigo : str) (r : double) :
  cart_ok (carrito st) ->
  Cart.items (carrito st) <> [] ->
  dict_get String.eqb DISCOUNT_CODES (upper (strip codigo)) = Some r ->
  let ra := aplicar_descuento codigo st in
  exists monto subtotal total : str,
    result_field ra "status" = Some (VStr "success")
    /\ result_field2 ra "descuento" "monto" = Some (VStr monto)
    /\ result_field2 ra "descuento" "subtotal_original" = Some (VStr subtotal)
    /\ result_field2 ra "descuento" "total_con_descuento" = Some (VStr total)
    /\ result_field2 (ver_carrito (snd ra)) "calculos" "descuento"
       = Some (VStr monto)
    /\ result_field2 (ver_carrito (snd ra)) "calculos" "codigo_descuento"
       = Some (VStr (upper (strip codigo)))
    /\ result_field2 (ver_carrito (snd ra)) "calculos" "subtotal"
       = Some (VStr subtotal)
    /\ result_field2 (ver_carrito (snd ra)) "calculos" "total" = Some (VStr total)
    /\ result_field2 (calcular_total (snd ra)) "descuento" "monto"
       = Some (VStr monto)
    /\ result_field2 (calcular_total (snd ra)) "descuento" "codigo"
       = Some (VStr (upper (strip codigo)))
    /\ result_field (calcular_total (snd ra)) "subtotal" = Some (VStr subtotal)
    /\ result_field (calcular_total (snd ra)) "total" = Some (VStr total).
Proof.
  intros Hok Hne Hr ra. subst ra.
  pose proof (cart_ok_in_float_range _ Hok) as Hrange.
  destruct (percent_of_rate _ _ Hr) as (pct & Hpct).
  rewrite (aplicar_descuento_valid st codigo pct r Hne Hr Hpct Hrange).
  cbn [snd].
  set (c := set_discount_code (carrito st) (Some (upper (strip codigo)))).
  set (st' := set_carrito st c).
  assert (Hok' : cart_ok (carrito st')) by exact Hok.
  assert (Hne' : Cart.items (carrito st') <> []) by exact Hne.
  destruct (ver_carrito_fields st' Hok' Hne') as (dv & Ev & Hv1 & Hv2 & Hv3 & Hv4).
  destruct (calcular_total_fields st' Hok' Hne') as (dt & Et & Ht1 & Ht2 & Ht3).
  assert (Ed : spec_discount (Z2F (Cart.get_subtotal (carrito st')))
                 (Cart.discount_code (carrito st'))
               = fmul (Z2F (Cart.get_subtotal (carrito st))) r).
  { unfold spec_discount, rate. cbn [st' c carrito set_carrito set_discount_code
      Cart.discount_code]. now rewrite Hr. }
  rewrite Ed in Hv2, Ht2.
  rewrite (discount_amount_positive _ _ r Hok Hne Hr) in Hv2, Ht2.
  exists ("$" ++ format_comma_2f (fmul (Z2F (Cart.get_subtotal (carrito st))) r)),
    ("$" ++ format_comma_2f (Z2F (Cart.get_subtotal (carrito st)))),
    ("$" ++ format_comma_2f (spec_total c)).
  unfold result_field, result_field2. rewrite Ev, Et. cbn [fst].
  repeat split; try reflexivity; try assumption.
  - unfold field2. now rewrite Ht2.
  - unfold field2. now rewrite Ht2.
Qed.

Lemma applied_discount_is_the_one_shown_witness :
  result_field2 (ver_carrito (snd (aplicar_descuento " save20 " two_mice)))
    "calculos" "total"
  = result_field2 (aplicar_descuento " save20 " two_mice)
      "descuento" "total_con_descuento"
  /\ result_field2 (ver_carrito (snd (aplicar_descuento " save20 " two_mice)))
       "calculos" "codigo_descuento"
     = Some (VStr "SAVE20").
Proof.
  assert (Hok : cart_ok (carrito two_mice)) by cart_ok_by_computation.
  assert (Hne : Cart.items (carrito two_mice) <> []) by (vm_compute; discriminate).
  edestruct (applied_discount_is_the_one_shown two_mice " save20 ")
    as (monto & subtotal & total & _ & _ & _ & Ha & _ & Hc & _ & Hv & _);
    [exact Hok|exact Hne|vm_compute; reflexivity|].
  split; [congruence|exact Hc].
Defined.

(** ** Results other than a success *)

(** X18.  No tool changes the cart unless it reports a success: whenever
    the result of a call has a status other than success, the lines and the
    discount code of the cart are those before the call. *)
Theorem only_a_success_changes_the_cart (repr_float : double -> str) (c : call)
    (st : State) (s : str) :
  result_field (run repr_float c st) "status" = Some (VStr s) ->
  s <> "success" ->
  carrito (snd (run repr_float c st)) = carrito st.
Proof.
  intros Hs Hne.
  assert (Hno : forall (o : outcome dict),
             (forall d, o = Returns d -> field d "status" = Some (VStr "success")) ->
             match o with Returns d => field d "status" | Raises _ => None end
             = Some (VStr s) -> False).
  { intros [d|e] Hd H; [|discriminate].
    rewrite (Hd d eq_refl) in H. injection H as <-. now apply Hne. }
  destruct c as [q|producto n| |codigo|producto n| | |cat|]; cbn [run] in *.
  - now rewrite buscar_producto_por_nombre_state.
  - unfold agregar_al_carrito, result_field in *.
    destruct (n <=? 0); [reflexivity|].
    destruct (find_product_fuzzy producto) as [[key p]|]; [|reflexivity].
    destruct (Product.stock p <? _); [reflexivity|].
    exfalso. cbn [fst] in Hs. apply (Hno _) in Hs; [exact Hs|].
    intros d. repeat (destruct (format_price _); cbn [bind]; [|discriminate]).
    now intros [= <-].
  - unfold ver_carrito. now destruct (Cart.items (carrito st)).
  - unfold aplicar_descuento, result_field in *.
    destruct (Cart.items (carrito st)); [reflexivity|]. cbv zeta in *.
    destruct (dict_get String.eqb DISCOUNT_CODES _) as [pct|]; [|reflexivity].
    exfalso. cbn [fst] in Hs. apply (Hno _) in Hs; [exact Hs|].
    intros d.
    repeat match goal with
      | |- context [bind ?o _] => destruct o; cbn [bind]; [|discriminate]
      end.
    now intros [= <-].
  - unfold remover_del_carrito, result_field in *.
    destruct (find_product_fuzzy producto) as [[key p]|]; [|reflexivity].
    destruct (get_cart_item_by_product _ _) as [item|]; [|reflexivity].
    destruct n as [n|].
    + destruct (CartItem.cantidad item <=? n).
      * exfalso. cbn [fst] in Hs. injection Hs as <-. now apply Hne.
      * destruct (0 <? n); [|reflexivity].
        exfalso. cbn [fst] in Hs. injection Hs as <-. now apply Hne.
    + exfalso. cbn [fst] in Hs. injection Hs as <-. now apply Hne.
  - exfalso. cbn in Hs. injection Hs as <-. now apply Hne.
  - unfold calcular_total. now destruct (Cart.items (carrito st)).
  - unfold recomendar_productos. cbv zeta.
    destruct cat as [cat|]; [destruct (str_bool cat)|];
      try (destruct (filter _ _)); reflexivity.
  - unfold mostrar_historial_busquedas. now destruct (historial_busquedas st).
Qed.

Lemma only_a_success_changes_the_cart_witness :
  carrito (snd (run (fun _ => EmptyString) (Agregar "mouse gaming pro" 14) two_mice))
  = carrito two_mice.
Proof.
  apply (only_a_success_changes_the_cart _ _ _ "error").
  - vm_compute. reflexivity.
  - discriminate.
Defined.
